(** * gltf-pipeline: [lib/writeResources.js]

    A shallow embedding of the resource-externalization pass of
    gltf-pipeline and the properties its specification states about it.

    The JavaScript objects that are shared and mutated in place (the glTF
    document, [options.separateResources], [options.bufferStorage], the
    [writtenResourceMap]) live in one explicit state record; a resource
    object is addressed by a reference into the document, so that a
    mutation made before an exception is still there afterwards.

    The [writtenResourceMap] and [options.separateResources] are plain
    objects used as maps: a finite map holds their own properties, and a
    read that finds none goes on to the members of [Object.prototype].

    Code of the repository that [writeResources.js] requires but that is
    not part of the sources at hand ([addBuffer], [ForEach],
    [addExtensionsRequired]) is modelled from the specification and marked
    as such; third-party and black-box collaborators (the image sniffer,
    [mime], the codecs, the file system's failures, [removeUnusedElements],
    [mergeBuffers]) are fields of an environment record [Env]. *)

From Stdlib Require Import Strings.Ascii Strings.Byte.
From stdpp Require Import gmap strings list fin_maps pretty.

Local Open Scope string_scope.
Local Open Scope list_scope.

(** ** Values *)

(** The JavaScript values that end up in [object.uri], [object.bufferView]
    and the [writtenResourceMap]: a bufferView index or a uri string, and
    what a read of the map finds under a name it inherits, the member of
    [Object.prototype] of that name (a function; under [__proto__] the
    prototype itself). *)
Inductive jsval :=
| VNum (n : nat)
| VStr (s : string)
| VInherited (key : string).

#[global] Instance jsval_eq_dec : EqDecision jsval.
Proof. solve_decision. Defined.

(** [extras._pipeline.source]: a Node [Buffer], a string (shader text), or
    [undefined] (what a failed [fs.readFile] hands to its callback). *)
Inductive sourceData :=
| SBuffer (b : list byte)
| SString (s : string)
| SUndefined.

Inductive error :=
| TypeError (msg : string)
| SystemError (code path : string)
| ExternalError (msg : string).

(** [Cesium.defined]: neither [undefined] nor [null]. *)
Definition defined {A} (x : option A) : bool :=
  match x with Some _ => true | None => false end.

(** [Cesium.defaultValue]. *)
Definition defaultValue {A} (x : option A) (d : A) : A :=
  match x with Some a => a | None => d end.

(** Truthiness of an optional flag. *)
Definition truthy (x : option bool) : bool := defaultValue x false.

(** Truthiness of an optional number: [undefined] and [0] are falsy. *)
Definition truthy_num (x : option nat) : bool :=
  match x with Some (S _) => true | _ => false end.

(** ** Node's [Buffer] primitives *)

(** [Buffer.from(string)]: the bytes of the string. *)
Definition Buffer_from (s : string) : list byte := String.list_byte_of_string s.

Definition base64_alphabet : list Ascii.ascii :=
  String.list_ascii_of_string
    "ABCDEFGHIJKLMNOPQRSTUVWXYZabcdefghijklmnopqrstuvwxyz0123456789+/".

Definition base64_char (n : N) : Ascii.ascii :=
  nth (N.to_nat n) base64_alphabet "="%char.

(** [buffer.toString('base64')]. *)
Fixpoint base64_chars (bs : list byte) : list Ascii.ascii :=
  match bs with
  | [] => []
  | [a] =>
      let x := Byte.to_N a in
      [base64_char (N.shiftr x 2);
       base64_char (N.shiftl (N.land x 3) 4);
       "="%char; "="%char]
  | [a; b] =>
      let x := Byte.to_N a in
      let y := Byte.to_N b in
      [base64_char (N.shiftr x 2);
       base64_char (N.lor (N.shiftl (N.land x 3) 4) (N.shiftr y 4));
       base64_char (N.shiftl (N.land y 15) 2);
       "="%char]
  | a :: b :: c :: rest =>
      let x := Byte.to_N a in
      let y := Byte.to_N b in
      let z := Byte.to_N c in
      base64_char (N.shiftr x 2)
      :: base64_char (N.lor (N.shiftl (N.land x 3) 4) (N.shiftr y 4))
      :: base64_char (N.lor (N.shiftl (N.land y 15) 2) (N.shiftr z 6))
      :: base64_char (N.land z 63)
      :: base64_chars rest
  end.

Definition Buffer_toString_base64 (bs : list byte) : string :=
  String.string_of_list_ascii (base64_chars bs).

(** ** The document *)

(** An image, shader or buffer object, with [extras._pipeline] flattened
    into it. [mimeType] is [None] when absent or [null]. *)
Record Resource := {
  name : option string;
  uri : option jsval;
  bufferView : option jsval;
  mimeType : option string;
  type : option N;
  byteLength : option nat;
  source : sourceData;
  resourceId : option string;
  relativePath : option string;
}.

Record BufferView := {
  bv_buffer : nat;
  bv_byteOffset : nat;
  bv_byteLength : nat;
}.

(** The object stored under a key of [texture.extensions]. *)
Record TextureExtension := { ext_source : option nat }.

Record Texture := {
  tex_source : option nat;
  extensions : option (gmap string TextureExtension);
}.

Record Program := {
  prog_name : option string;
  fragmentShader : option nat;
  vertexShader : option nat;
}.

Record Gltf := {
  buffers : list Resource;
  bufferViews : list BufferView;
  images : list Resource;
  shaders : list Resource;
  textures : list Texture;
  programs : list Program;
  extensionsRequired : list string;
}.

(** The read-only part of [options]. *)
Record Options := {
  options_name : option string;
  separateBuffers : option bool;
  separateTextures : option bool;
  separateShaders : option bool;
  dataUris : option bool;
  encodeBasis : bool;
  basisQuality : option nat;
  basisLinear : bool;
  decodeWebP : bool;
  jpegCompressionRatio : option nat;
}.

(** What the pass does to the world outside the document. *)
Inductive event :=
| EConsoleError (e : error)
| EConsoleFinalExtension (extension : string)
| EDWebpWrite (path : string)
| EFsWriteFile (path : string)
| EFsReadFile (path : string)
| EFsUnlink (path : string)
| EExecBasisu (linear : bool) (quality : option nat) (input outputDir : string)
| EGmWrite (quality : nat) (input output : string)
| EUncaughtException (e : error).

(** Everything the pass mutates: the document, the mutable members of
    [options], the [writtenResourceMap], the files of the temp directory,
    the history of external effects and the number of [uuidv4()] calls. *)
Record state := {
  gltf : Gltf;
  writtenResourceMap : gmap string jsval;
  separateResources : option (gmap string sourceData);
  bufferStorage : option (option (list byte));
  files : gmap string (list byte);
  log : list event;
  uuids : nat;
}.

(** Collaborators that are not code of [writeResources.js]. The outcome of
    an external operation may depend on the history so far. [basisu] gets
    the content of its input file (if it exists) and yields the error of
    [exec] (if any) and the content of the [.ktx2] file it leaves (if any). *)
Record Env := {
  getImageExtension : list byte -> string;
  mime_getType : string -> option string;
  os_tmpdir : string;
  uuidv4 : nat -> string;
  DWebp_write : list event -> list byte -> error + list byte;
  fs_writeFile_error : list event -> string -> option error;
  fs_readFile_error : list event -> string -> option error;
  basisu : list event -> bool -> option nat -> option (list byte) ->
           option error * option (list byte);
  gm_write : list event -> nat -> option (list byte) -> error + list byte;
  removeUnusedElements : Gltf -> Gltf;
  mergeBuffers : Gltf -> option string -> Gltf;
}.

(** A resource object is referred to by its place in the document. *)
Inductive ref :=
| RBuffer (i : nat)
| RImage (i : nat)
| RShader (i : nat).

#[global] Instance ref_eq_dec : EqDecision ref.
Proof. solve_decision. Defined.

(** *** Field updates *)

Definition set_uri (v : option jsval) (o : Resource) : Resource :=
  {| name := name o; uri := v; bufferView := bufferView o;
     mimeType := mimeType o; type := type o; byteLength := byteLength o;
     source := source o; resourceId := resourceId o;
     relativePath := relativePath o |}.

Definition set_bufferView (v : option jsval) (o : Resource) : Resource :=
  {| name := name o; uri := uri o; bufferView := v;
     mimeType := mimeType o; type := type o; byteLength := byteLength o;
     source := source o; resourceId := resourceId o;
     relativePath := relativePath o |}.

Definition set_mimeType (v : option string) (o : Resource) : Resource :=
  {| name := name o; uri := uri o; bufferView := bufferView o;
     mimeType := v; type := type o; byteLength := byteLength o;
     source := source o; resourceId := resourceId o;
     relativePath := relativePath o |}.

Definition set_source (v : sourceData) (o : Resource) : Resource :=
  {| name := name o; uri := uri o; bufferView := bufferView o;
     mimeType := mimeType o; type := type o; byteLength := byteLength o;
     source := v; resourceId := resourceId o;
     relativePath := relativePath o |}.

Definition set_extensions (v : option (gmap string TextureExtension))
    (t : Texture) : Texture :=
  {| tex_source := tex_source t; extensions := v |}.

Definition with_buffers (f : list Resource -> list Resource) (g : Gltf) : Gltf :=
  {| buffers := f (buffers g); bufferViews := bufferViews g;
     images := images g; shaders := shaders g; textures := textures g;
     programs := programs g; extensionsRequired := extensionsRequired g |}.

Definition with_bufferViews (f : list BufferView -> list BufferView)
    (g : Gltf) : Gltf :=
  {| buffers := buffers g; bufferViews := f (bufferViews g);
     images := images g; shaders := shaders g; textures := textures g;
     programs := programs g; extensionsRequired := extensionsRequired g |}.

Definition with_images (f : list Resource -> list Resource) (g : Gltf) : Gltf :=
  {| buffers := buffers g; bufferViews := bufferViews g;
     images := f (images g); shaders := shaders g; textures := textures g;
     programs := programs g; extensionsRequired := extensionsRequired g |}.

Definition with_shaders (f : list Resource -> list Resource) (g : Gltf) : Gltf :=
  {| buffers := buffers g; bufferViews := bufferViews g;
     images := images g; shaders := f (shaders g); textures := textures g;
     programs := programs g; extensionsRequired := extensionsRequired g |}.

Definition with_textures (f : list Texture -> list Texture) (g : Gltf) : Gltf :=
  {| buffers := buffers g; bufferViews := bufferViews g;
     images := images g; shaders := shaders g; textures := f (textures g);
     programs := programs g; extensionsRequired := extensionsRequired g |}.

Definition with_extensionsRequired (f : list string -> list string)
    (g : Gltf) : Gltf :=
  {| buffers := buffers g; bufferViews := bufferViews g;
     images := images g; shaders := shaders g; textures := textures g;
     programs := programs g; extensionsRequired := f (extensionsRequired g) |}.

Definition with_gltf (f : Gltf -> Gltf) (st : state) : state :=
  {| gltf := f (gltf st); writtenResourceMap := writtenResourceMap st;
     separateResources := separateResources st;
     bufferStorage := bufferStorage st; files := files st; log := log st;
     uuids := uuids st |}.

Definition with_writtenResourceMap
    (f : gmap string jsval -> gmap string jsval) (st : state) : state :=
  {| gltf := gltf st; writtenResourceMap := f (writtenResourceMap st);
     separateResources := separateResources st;
     bufferStorage := bufferStorage st; files := files st; log := log st;
     uuids := uuids st |}.

Definition with_separateResources
    (f : option (gmap string sourceData) -> option (gmap string sourceData))
    (st : state) : state :=
  {| gltf := gltf st; writtenResourceMap := writtenResourceMap st;
     separateResources := f (separateResources st);
     bufferStorage := bufferStorage st; files := files st; log := log st;
     uuids := uuids st |}.

Definition with_bufferStorage
    (f : option (option (list byte)) -> option (option (list byte)))
    (st : state) : state :=
  {| gltf := gltf st; writtenResourceMap := writtenResourceMap st;
     separateResources := separateResources st;
     bufferStorage := f (bufferStorage st); files := files st; log := log st;
     uuids := uuids st |}.

Definition with_files
    (f : gmap string (list byte) -> gmap string (list byte))
    (st : state) : state :=
  {| gltf := gltf st; writtenResourceMap := writtenResourceMap st;
     separateResources := separateResources st;
     bufferStorage := bufferStorage st; files := f (files st); log := log st;
     uuids := uuids st |}.

Definition with_log (f : list event -> list event) (st : state) : state :=
  {| gltf := gltf st; writtenResourceMap := writtenResourceMap st;
     separateResources := separateResources st;
     bufferStorage := bufferStorage st; files := files st; log := f (log st);
     uuids := uuids st |}.

Definition with_uuids (f : nat -> nat) (st : state) : state :=
  {| gltf := gltf st; writtenResourceMap := writtenResourceMap st;
     separateResources := separateResources st;
     bufferStorage := bufferStorage st; files := files st; log := log st;
     uuids := f (uuids st) |}.

(** ** Control: returning, throwing, and promises that never settle *)

(** The result of running a piece of the pass. For synchronous code
    [Resolved] is a normal return and [Rejected] a thrown exception; for a
    promise they are its two settled states, and [Pending] is a promise
    that is never settled. The state is returned in every case: nothing is
    rolled back. *)
Inductive outcome (A : Type) :=
| Resolved (a : A)
| Rejected (e : error)
| Pending.

Arguments Resolved {A} a.
Arguments Rejected {A} e.
Arguments Pending {A}.

Definition M (A : Type) : Type := state -> outcome A * state.

Definition ret {A} (a : A) : M A := fun st => (Resolved a, st).

Definition throw {A} (e : error) : M A := fun st => (Rejected e, st).

Definition bind {A B} (m : M A) (k : A -> M B) : M B :=
  fun st =>
    match m st with
    | (Resolved a, st') => k a st'
    | (Rejected e, st') => (Rejected e, st')
    | (Pending, st') => (Pending, st')
    end.

Notation "x <- m ;; k" := (bind m (fun x => k))
  (at level 100, m at level 99, right associativity).
Notation "m ;;; k" := (bind m (fun _ => k))
  (at level 100, right associativity).

Definition gets {A} (f : state -> A) : M A := fun st => (Resolved (f st), st).

Definition modify (f : state -> state) : M unit :=
  fun st => (Resolved tt, f st).

(** ** Objects of the document *)

Definition lookup_ref (r : ref) (g : Gltf) : option Resource :=
  match r with
  | RBuffer i => buffers g !! i
  | RImage i => images g !! i
  | RShader i => shaders g !! i
  end.

Definition alter_ref (f : Resource -> Resource) (r : ref) (g : Gltf) : Gltf :=
  match r with
  | RBuffer i => with_buffers (alter f i) g
  | RImage i => with_images (alter f i) g
  | RShader i => with_shaders (alter f i) g
  end.

(** Reading a property of [object]; a [TypeError] if there is no object. *)
Definition readObject (object : ref) : M Resource :=
  fun st =>
    match lookup_ref object (gltf st) with
    | Some o => (Resolved o, st)
    | None => (Rejected (TypeError "Cannot read properties of undefined"), st)
    end.

(** Assigning or deleting a property of [object], in place. *)
Definition updateObject (object : ref) (f : Resource -> Resource) : M unit :=
  modify (with_gltf (alter_ref f object)).

(** ** Strings *)

(** [relativePath.replace(/\\/g, '/')]. *)
Fixpoint replace_backslashes (s : string) : string :=
  match s with
  | EmptyString => EmptyString
  | String c rest =>
      String (if Ascii.eqb c "\"%char then "/"%char else c)
             (replace_backslashes rest)
  end.

Definition ascii_toLowerCase (c : ascii) : ascii :=
  let n := nat_of_ascii c in
  if (65 <=? n)%nat && (n <=? 90)%nat then ascii_of_nat (n + 32) else c.

Fixpoint toLowerCase (s : string) : string :=
  match s with
  | EmptyString => EmptyString
  | String c rest => String (ascii_toLowerCase c) (toLowerCase rest)
  end.

(** A string or [null] concatenated to a string. *)
Definition string_of_nullable (x : option string) : string :=
  match x with Some s => s | None => "null" end.

(** ** The synchronous part of [writeResources.js] *)

(** [WebGLConstants.FRAGMENT_SHADER]. *)
Definition FRAGMENT_SHADER : N := 35632%N.

(** Modelled from the spec: [addBuffer] is required from [./addBuffer], which
    is not among the sources. "appendToBufferPool(bytes) → bufferView
    index": the bytes become a new buffer of the document and a new
    bufferView over the whole of it, whose index is returned. Without
    bytes there is nothing to measure, and it throws. *)
Definition appendToPool (b : list byte) (g : Gltf) : Gltf :=
  let newBuffer :=
    {| name := None; uri := None; bufferView := None; mimeType := None;
       type := None; byteLength := Some (length b); source := SBuffer b;
       resourceId := None; relativePath := None |} in
  let bufferId := length (buffers g) in
  let newBufferView :=
    {| bv_buffer := bufferId; bv_byteOffset := 0; bv_byteLength := length b |} in
  with_bufferViews (fun l => l ++ [newBufferView])
    (with_buffers (fun l => l ++ [newBuffer]) g).

Definition addBuffer (buffer : sourceData) : M nat :=
  match buffer with
  | SBuffer b =>
      fun st =>
        (Resolved (length (bufferViews (gltf st))),
         with_gltf (appendToPool b) st)
  | _ => throw (TypeError "Cannot read properties of undefined (reading 'length')")
  end.

(** Modelled from the spec: [ForEach.program] is required from [./ForEach],
    which is not among the sources. The handler of [getProgram] is applied
    to the programs in order ("scanning programs for a matching
    shader-slot reference") and the first defined result is returned. *)
Fixpoint ForEach_program {A} (handler : Program -> nat -> option A)
    (ps : list Program) (index : nat) : option A :=
  match ps with
  | [] => None
  | p :: rest =>
      match handler p index with
      | Some a => Some a
      | None => ForEach_program handler rest (S index)
      end
  end.

Definition getProgram (g : Gltf) (shaderIndex : nat) : option (Program * nat) :=
  ForEach_program
    (fun program index =>
       if bool_decide (fragmentShader program = Some shaderIndex)
          || bool_decide (vertexShader program = Some shaderIndex)
       then Some (program, index)
       else None)
    (programs g) 0.

(** [writtenResourceMap] is created as [{}] and [options.separateResources]
    is a plain object too. A read [object[key]] that finds no own property
    goes on to [Object.prototype], which has a member under each of these
    names. *)
Definition Object_prototype : list string :=
  ["constructor"; "__defineGetter__"; "__defineSetter__"; "hasOwnProperty";
   "__lookupGetter__"; "__lookupSetter__"; "isPrototypeOf";
   "propertyIsEnumerable"; "toString"; "valueOf"; "__proto__";
   "toLocaleString"].

(** [writtenResourceMap[resourceId]]. *)
Definition cached (written : gmap string jsval) (resourceId : string)
    : option jsval :=
  match written !! resourceId with
  | Some target => Some target
  | None =>
      if bool_decide (resourceId ∈ Object_prototype)
      then Some (VInherited resourceId)
      else None
  end.

(** [defined(options.separateResources[relativePath])]: an own property
    holding a value, or else a member of [Object.prototype]. *)
Definition sink_defined (sink : gmap string sourceData) (path : string) : bool :=
  match sink !! path with
  | Some SUndefined => false
  | Some _ => true
  | None => bool_decide (path ∈ Object_prototype)
  end.

(** [options.separateResources[relativePath] = source]. An own property is
    created or overwritten, except under [__proto__]: unless the sink has an
    own property of that name, the assignment is taken by the setter that
    [Object.prototype] has there, and no property is created. (Given a
    [Buffer], the setter makes it the prototype of the sink. The names the
    sink inherits through it have no dot in them, like those of
    [Object.prototype], and [getRelativePath] reads the sink under paths
    that end in the extension, which its callers pass with the dot.) *)
Definition sink_assign (relativePath : string) (source : sourceData)
    (sink : gmap string sourceData) : gmap string sourceData :=
  match sink !! relativePath with
  | None =>
      if bool_decide (relativePath = "__proto__") then sink
      else <[relativePath := source]> sink
  | Some _ => <[relativePath := source]> sink
  end.

(** The [while] loop of [getRelativePath]; [None] when the fuel is used up. *)
Fixpoint getRelativePath_loop (fuel : nat) (sink : gmap string sourceData)
    (name extension relativePath : string) (number : nat) : option string :=
  match fuel with
  | 0 => None
  | S fuel' =>
      if sink_defined sink relativePath
      then getRelativePath_loop fuel' sink name extension
             (name +:+ "_" +:+ pretty number +:+ extension) (S number)
      else Some relativePath
  end.

Arguments getRelativePath_loop : simpl never.

Section Sync.

Variable env : Env.

Definition writeDataUri (object : ref) (extension : string) : M unit :=
  updateObject object (set_bufferView None) ;;;
  o <- readObject object ;;
  let mimeType := mime_getType env extension in
  base64 <- match source o with
            | SBuffer b => ret (Buffer_toString_base64 b)
            | SString s => ret s
            | SUndefined =>
                throw (TypeError "Cannot read properties of undefined (reading 'toString')")
            end ;;
  updateObject object
    (set_uri (Some (VStr ("data:" +:+ string_of_nullable mimeType
                            +:+ ";base64," +:+ base64)))).

(** The assignment [writtenResourceMap[resourceId] = object.bufferView] is
    reached only when the read of the same name has found nothing, so
    never under an inherited name: it creates an own property. *)
Definition writeBufferView (object : ref) : M unit :=
  updateObject object (set_uri None) ;;;
  o <- readObject object ;;
  let resourceId := resourceId o in
  written <- gets writtenResourceMap ;;
  match resourceId ≫= cached written with
  | Some target => updateObject object (set_bufferView (Some target))
  | None =>
      let source :=
        match source o with
        | SString s => SBuffer (Buffer_from s)
        | other => other
        end in
      id <- addBuffer source ;;
      updateObject object (set_bufferView (Some (VNum id))) ;;;
      match resourceId with
      | Some r => modify (with_writtenResourceMap (insert r (VNum id)))
      | None => ret tt
      end
  end.

Definition getName (object : ref) (index : nat) (extension : string)
    (options : Options) : M string :=
  let gltfName := options_name options in
  o <- readObject object ;;
  match name o with
  | Some objectName => ret objectName
  | None =>
      if bool_decide (extension = ".bin") then
        match gltfName with
        | Some g => ret (g +:+ pretty index)
        | None => ret ("buffer" +:+ pretty index)
        end
      else if bool_decide (extension = ".glsl") then
        programInfo <- gets (fun st => getProgram (gltf st) index) ;;
        match programInfo with
        | None => throw (TypeError "Cannot read properties of undefined (reading 'program')")
        | Some (program, programIndex) =>
            let shaderType :=
              if bool_decide (type o = Some FRAGMENT_SHADER) then "FS" else "VS" in
            match prog_name program, gltfName with
            | Some programName, _ => ret (programName +:+ shaderType)
            | None, Some g => ret (g +:+ shaderType +:+ pretty programIndex)
            | None, None => ret (toLowerCase shaderType +:+ pretty programIndex)
            end
        end
      else
        match gltfName with
        | Some g => ret (g +:+ pretty index)
        | None => ret ("image" +:+ pretty index)
        end
  end.

Definition getRelativePath (object : ref) (index : nat) (extension : string)
    (options : Options) : M string :=
  o <- readObject object ;;
  match relativePath o with
  | Some relativePath => ret (replace_backslashes relativePath)
  | None =>
      name <- getName object index extension options ;;
      sink <- gets separateResources ;;
      match sink with
      | None => throw (TypeError "Cannot read properties of undefined")
      | Some sink =>
          match getRelativePath_loop (S (size sink + length Object_prototype))
                  sink name extension
                  (name +:+ extension) 1 with
          | Some relativePath => ret relativePath
          | None => fun st => (Pending, st)
          end
      end
  end.

(** As in [writeBufferView], the assignment to the [writtenResourceMap]
    creates an own property; the one to the sink may be under any name. *)
Definition writeFile (object : ref) (index : nat) (extension : string)
    (options : Options) : M unit :=
  updateObject object (set_bufferView None) ;;;
  o <- readObject object ;;
  let resourceId := resourceId o in
  written <- gets writtenResourceMap ;;
  match resourceId ≫= cached written with
  | Some target => updateObject object (set_uri (Some target))
  | None =>
      let source := source o in
      relativePath <- getRelativePath object index extension options ;;
      updateObject object (set_uri (Some (VStr relativePath))) ;;;
      modify (with_separateResources (fmap (sink_assign relativePath source))) ;;;
      match resourceId with
      | Some r => modify (with_writtenResourceMap (insert r (VStr relativePath)))
      | None => ret tt
      end
  end.

Definition writeResource (object : ref) (index : nat) (separate dataUris : bool)
    (extension : string) (options : Options) : M unit :=
  if separate then writeFile object index extension options
  else if dataUris then writeDataUri object extension
  else writeBufferView object.

Definition writeShader (shader : ref) (i : nat) (options : Options) : M unit :=
  writeResource shader i (truthy (separateShaders options))
    (truthy (dataUris options)) ".glsl" options.

Definition writeBufferStorage (buffer : ref) : M unit :=
  o <- readObject buffer ;;
  storage <- gets bufferStorage ;;
  match storage with
  | None => throw (TypeError "Cannot read properties of undefined (reading 'buffer')")
  | Some combinedBuffer =>
      let combinedBuffer := defaultValue combinedBuffer [] in
      match source o with
      | SBuffer b =>
          modify (with_bufferStorage (fun _ => Some (Some (combinedBuffer ++ b))))
      | _ => throw (TypeError "list[1] must be an instance of Buffer")
      end
  end.

Definition writeBuffer (buffer : ref) (i : nat) (options : Options) : M unit :=
  storage <- gets bufferStorage ;;
  if defined storage && negb (truthy (separateBuffers options))
  then writeBufferStorage buffer
  else writeResource buffer i (truthy (separateBuffers options)) true ".bin"
         options.

End Sync.

(** ** The file system and the external tools *)

Section Async.

Variable env : Env.

Definition emit (e : event) (st : state) : state :=
  with_log (fun l => l ++ [e]) st.

(** [`${os.tmpdir()}/image-${uid}${suffix}`]. *)
Definition tmp_path (uid suffix : string) : string :=
  os_tmpdir env +:+ "/image-" +:+ uid +:+ suffix.

(** [uuidv4()]. *)
Definition fresh_uid : M string :=
  fun st => (Resolved (uuidv4 env (uuids st)), with_uuids S st).

(** [fs.writeFile(path, data, callback)]: the [err] given to the callback. *)
Definition fs_writeFile (path : string) (data : list byte)
    (st : state) : option error * state :=
  match fs_writeFile_error env (log st) path with
  | Some err => (Some err, emit (EFsWriteFile path) st)
  | None => (None, with_files (insert path data) (emit (EFsWriteFile path) st))
  end.

(** [fs.readFile(path, callback)]: the [err] or the [data] given to the
    callback. A file that is not there cannot be read. *)
Definition fs_readFile (path : string) (st : state)
    : (error + list byte) * state :=
  match fs_readFile_error env (log st) path with
  | Some err => (inl err, emit (EFsReadFile path) st)
  | None =>
      match files st !! path with
      | Some data => (inr data, emit (EFsReadFile path) st)
      | None => (inl (SystemError "ENOENT" path), emit (EFsReadFile path) st)
      end
  end.

(** [fs.unlinkSync(path)]: the exception it throws, if any. *)
Definition fs_unlinkSync (path : string) (st : state) : option error * state :=
  match files st !! path with
  | Some _ => (None, with_files (delete path) (emit (EFsUnlink path) st))
  | None => (Some (SystemError "ENOENT" path), emit (EFsUnlink path) st)
  end.

(** [new DWebp(source).write(path, callback)]. *)
Definition DWebp_write_file (data : list byte) (path : string)
    (st : state) : option error * state :=
  match DWebp_write env (log st) data with
  | inl err => (Some err, emit (EDWebpWrite path) st)
  | inr png => (None, with_files (insert path png) (emit (EDWebpWrite path) st))
  end.

(** [exec(`basisu -ktx2 -mipmap ... ${input} -output_path ${os.tmpdir()}`)]:
    the [error] given to the callback. *)
Definition exec_basisu (linear : bool) (quality : option nat)
    (input output : string) (st : state) : option error * state :=
  let '(error, produced) :=
    basisu env (log st) linear quality (files st !! input) in
  let st := emit (EExecBasisu linear quality input (os_tmpdir env)) st in
  match produced with
  | Some ktx2 => (error, with_files (insert output ktx2) st)
  | None => (error, st)
  end.

(** [gm(input).quality(q).write(output, callback)]. *)
Definition gm_quality_write (quality : nat) (input output : string)
    (st : state) : option error * state :=
  match gm_write env (log st) quality (files st !! input) with
  | inl err => (Some err, emit (EGmWrite quality input output) st)
  | inr jpg =>
      (None, with_files (insert output jpg)
               (emit (EGmWrite quality input output) st))
  end.

(** [getImageExtension(image.extras._pipeline.source)]: only a [Buffer]
    has a header to look at. *)
Definition sniff (s : sourceData) : M (string * list byte) :=
  match s with
  | SBuffer b => ret (getImageExtension env b, b)
  | _ => throw (TypeError "Cannot read properties of undefined (reading 'slice')")
  end.

(** *** Settling a promise from inside callbacks *)

(** Only the first [resolve] or [reject] of a promise counts. *)
Definition settle {A} (settled : option (outcome A)) (o : outcome A)
    : option (outcome A) :=
  match settled with
  | Some first => Some first
  | None => Some o
  end.

Definition settled_or_pending {A} (settled : option (outcome A)) : outcome A :=
  match settled with
  | Some o => o
  | None => Pending
  end.

(** Modelled from the spec: [addExtensionsRequired] is required from
    [./addExtensionsRequired], which is not among the sources. It "marks
    the capability as document-required": the document's
    required-extensions set gains the name. *)
Definition addExtensionsRequired (extension : string) : M unit :=
  modify (with_gltf (with_extensionsRequired
    (fun l => if bool_decide (extension ∈ l) then l else l ++ [extension]))).

(** ** [writeImage] *)

(** The executor of the first promise: sniff, then decode WebP to a PNG
    temp file or write the bytes to a temp file as they are. *)
Definition writeImage_write (uid : string) (image : ref) (options : Options)
    : M string :=
  o <- readObject image ;;
  sniffed <- sniff (source o) ;;
  let '(extension, data) := sniffed in
  if bool_decide (extension = ".webp") && decodeWebP options then
    fun st =>
      match DWebp_write_file data (tmp_path uid ".png") st with
      | (Some err, st) => (Rejected err, st)
      | (None, st) => (Resolved ".png", st)
      end
  else
    fun st =>
      match fs_writeFile (tmp_path uid extension) data st with
      | (Some err, st) => (Rejected err, emit (EConsoleError err) st)
      | (None, st) => (Resolved extension, st)
      end.

(** The first [.then]: basisu, or else GraphicsMagick, or else nothing. *)
Definition writeImage_encode (uid : string) (image : ref) (options : Options)
    (extension : string) : M string :=
  if encodeBasis options && negb (bool_decide (extension = "ktx2")) then
    fun st =>
      let quality :=
        if truthy_num (basisQuality options) then basisQuality options
        else None in
      let '(error, st) :=
        exec_basisu (basisLinear options) quality (tmp_path uid extension)
          (tmp_path uid ".ktx2") st in
      let '(settled, st) :=
        match error with
        | Some error => (Some (Rejected error), emit (EConsoleError error) st)
        | None => (None, st)
        end in
      let '(read, st) := fs_readFile (tmp_path uid ".ktx2") st in
      let '(settled, st) :=
        match read with
        | inl err => (settle settled (Rejected err), emit (EConsoleError err) st)
        | inr _ => (settled, st)
        end in
      let data :=
        match read with
        | inl _ => SUndefined
        | inr data => SBuffer data
        end in
      let st := with_gltf (alter_ref (set_source data) image) st in
      match fs_unlinkSync (tmp_path uid extension) st with
      | (Some thrown, st) =>
          (settled_or_pending settled, emit (EUncaughtException thrown) st)
      | (None, st) =>
          (settled_or_pending (settle settled (Resolved ".ktx2")), st)
      end
  else
    match jpegCompressionRatio options with
    | Some (S _ as quality) =>
        fun st =>
          match gm_quality_write quality (tmp_path uid extension)
                  (tmp_path uid ".jpg") st with
          | (Some err, st) => (Rejected err, st)
          | (None, st) => (Resolved ".jpg", st)
          end
    | _ => ret extension
    end.

(** The second [.then]: read the temp file back and delete it. *)
Definition writeImage_read (uid : string) (image : ref) (extension : string)
    : M unit :=
  fun st =>
    let '(read, st) := fs_readFile (tmp_path uid extension) st in
    let '(settled, st) :=
      match read with
      | inl err => (Some (Rejected err), emit (EConsoleError err) st)
      | inr _ => (None, st)
      end in
    let data :=
      match read with
      | inl _ => SUndefined
      | inr data => SBuffer data
      end in
    let st := with_gltf (alter_ref (set_source data) image) st in
    match fs_unlinkSync (tmp_path uid extension) st with
    | (Some thrown, st) =>
        (settled_or_pending settled, emit (EUncaughtException thrown) st)
    | (None, st) => (settled_or_pending (settle settled (Resolved tt)), st)
    end.

(** The last [.then]: sniff again and hand over to [writeResource]. *)
Definition writeImage_finish (image : ref) (i : nat) (options : Options)
    : M unit :=
  o <- readObject image ;;
  sniffed <- sniff (source o) ;;
  let extension := sniffed.1 in
  modify (emit (EConsoleFinalExtension extension)) ;;;
  writeResource env image i (truthy (separateTextures options))
    (truthy (dataUris options)) extension options ;;;
  (if bool_decide (extension = ".ktx2")
   then addExtensionsRequired "KHR_texture_basisu"
   else ret tt) ;;;
  o <- readObject image ;;
  if defined (bufferView o)
  then updateObject image (set_mimeType (mime_getType env extension))
  else ret tt.

Definition writeImage (image : ref) (i : nat) (options : Options) : M unit :=
  uid <- fresh_uid ;;
  extension <- writeImage_write uid image options ;;
  extension <- writeImage_encode uid image options extension ;;
  writeImage_read uid image extension ;;;
  writeImage_finish image i options.

End Async.

(** ** [writeResources] *)

Section Orchestrator.

Variable env : Env.

(** The loop shared by the [ForEach] helpers below: the handler is applied
    to the indices [i, i+1, ..., i+count-1] in order, and the first
    exception or rejection ends the loop. *)
Fixpoint forEachIndex (handler : nat -> M unit) (i count : nat) : M unit :=
  match count with
  | 0 => ret tt
  | S count' => handler i ;;; forEachIndex handler (S i) count'
  end.

(** Modelled from the spec: [ForEach.imageAsync] is required from
    [./ForEach], which is not among the sources. "Transcode+externalize
    every image independently"; the operation "rejects on first failure".
    The images' chains are run one after the other, in document order,
    which is one of the completion orders the specification allows. *)
Definition ForEach_imageAsync (handler : nat -> M unit) : M unit :=
  fun st => forEachIndex handler 0 (length (images (gltf st))) st.

(** Modelled from the spec: [ForEach.shader] ("synchronous, deterministic
    order"), from [./ForEach]. *)
Definition ForEach_shader (handler : nat -> M unit) : M unit :=
  fun st => forEachIndex handler 0 (length (shaders (gltf st))) st.

(** Modelled from the spec: [ForEach.buffer], from [./ForEach]. *)
Definition ForEach_buffer (handler : nat -> M unit) : M unit :=
  fun st => forEachIndex handler 0 (length (buffers (gltf st))) st.

(** Modelled from the spec: [ForEach.texture], from [./ForEach]; the
    handler only assigns to its texture. *)
Definition ForEach_texture (handler : Texture -> Texture) : M unit :=
  modify (with_gltf (with_textures (map handler))).

(** The four [defaultValue] assignments. *)
Definition withDefaults (options : Options) : Options :=
  {| options_name := options_name options;
     separateBuffers := Some (defaultValue (separateBuffers options) false);
     separateTextures := Some (defaultValue (separateTextures options) false);
     separateShaders := Some (defaultValue (separateShaders options) false);
     dataUris := Some (defaultValue (dataUris options) false);
     encodeBasis := encodeBasis options;
     basisQuality := basisQuality options;
     basisLinear := basisLinear options;
     decodeWebP := decodeWebP options;
     jpegCompressionRatio := jpegCompressionRatio options |}.

Definition basisuTexture (options : Options) (texture : Texture) : Texture :=
  if encodeBasis options
  then set_extensions
         (Some {[ "KHR_texture_basisu" := {| ext_source := tex_source texture |} ]})
         texture
  else texture.

Definition writeResources (options : Options) : M Gltf :=
  let options := withDefaults options in
  modify (with_writtenResourceMap (fun _ => ∅)) ;;;
  ForEach_imageAsync (fun i => writeImage env (RImage i) i options) ;;;
  ForEach_shader (fun i => writeShader env (RShader i) i options) ;;;
  modify (with_gltf (removeUnusedElements env)) ;;;
  modify (with_gltf (fun g => mergeBuffers env g (options_name options))) ;;;
  ForEach_buffer (fun i => writeBuffer env (RBuffer i) i options) ;;;
  ForEach_texture (basisuTexture options) ;;;
  gets gltf.

End Orchestrator.

(** ** A concrete environment for running the model *)

Module Sample.

(** Magic numbers of the formats that occur below. *)
Definition sniffer (b : list byte) : string :=
  match b with
  | x89 :: x50 :: _ => ".png"
  | xff :: xd8 :: _ => ".jpg"
  | xab :: x4b :: _ => ".ktx2"
  | x52 :: x49 :: _ => ".webp"
  | _ => ".bin"
  end.

Definition mimeTypes (extension : string) : option string :=
  if bool_decide (extension = ".png") then Some "image/png"
  else if bool_decide (extension = ".jpg") then Some "image/jpeg"
  else if bool_decide (extension = ".ktx2") then Some "image/ktx2"
  else if bool_decide (extension = ".glsl") then Some "text/plain"
  else if bool_decide (extension = ".bin") then Some "application/octet-stream"
  else None.

Definition png : list byte := [x89; x50; x4e; x47; x01].
Definition jpg : list byte := [xff; xd8; xff; xe0; x02].
Definition ktx2 : list byte := [xab; x4b; x54; x58; x03].
Definition webp : list byte := [x52; x49; x46; x46; x04].

(** Every tool works: the decoder yields a PNG, basisu leaves a KTX2
    file when its input exists, GraphicsMagick yields a JPEG, and the
    file system never fails. *)
Definition env : Env :=
  {| getImageExtension := sniffer;
     mime_getType := mimeTypes;
     os_tmpdir := "/tmp";
     uuidv4 := fun n => "uid" +:+ pretty n;
     DWebp_write := fun _ _ => inr png;
     fs_writeFile_error := fun _ _ => None;
     fs_readFile_error := fun _ _ => None;
     basisu := fun _ _ _ input =>
                 match input with
                 | Some _ => (None, Some ktx2)
                 | None => (Some (ExternalError "basisu: no input"), None)
                 end;
     gm_write := fun _ _ input =>
                   match input with
                   | Some _ => inr jpg
                   | None => inl (ExternalError "gm: no input")
                   end;
     removeUnusedElements := fun g => g;
     mergeBuffers := fun g _ => g |}.

Definition resource (n : option string) (s : sourceData)
    (id : option string) : Resource :=
  {| name := n; uri := None; bufferView := None; mimeType := None;
     type := None; byteLength := None; source := s; resourceId := id;
     relativePath := None |}.

Definition emptyGltf : Gltf :=
  {| buffers := []; bufferViews := []; images := []; shaders := [];
     textures := []; programs := []; extensionsRequired := [] |}.

Definition options : Options :=
  {| options_name := None; separateBuffers := None;
     separateTextures := None; separateShaders := None; dataUris := None;
     encodeBasis := false; basisQuality := None; basisLinear := false;
     decodeWebP := false; jpegCompressionRatio := None |}.

Definition initial (g : Gltf) (sink : option (gmap string sourceData)) : state :=
  {| gltf := g; writtenResourceMap := ∅; separateResources := sink;
     bufferStorage := None; files := ∅; log := []; uuids := 0 |}.

End Sample.

(** ** Notions used to state the properties *)

(** The paths the collision loop tries, in order: [name + extension],
    then [name + '_' + k + extension] for [k = 1, 2, ...]. *)
Definition candidate (name extension : string) (k : nat) : string :=
  match k with
  | 0 => name +:+ extension
  | S _ => name +:+ "_" +:+ pretty k +:+ extension
  end.

(** The bytes that [writeBufferView] hands to [addBuffer]. *)
Definition bufferBytes (s : sourceData) : option (list byte) :=
  match s with
  | SBuffer b => Some b
  | SString s => Some (Buffer_from s)
  | SUndefined => None
  end.

(** What a call of [writeResource] that returns normally has done, by the
    path taken and by whether the [writtenResourceMap] had the identity. *)
Inductive writes (object : ref) (o : Resource) (st : state)
  : bool → bool → state → Prop :=
| writes_file_cached dataUris r target :
    resourceId o = Some r →
    cached (writtenResourceMap st) r = Some target →
    writes object o st true dataUris
      (with_gltf (alter_ref (set_uri (Some target)) object)
         (with_gltf (alter_ref (set_bufferView None) object) st))
| writes_file_fresh dataUris p :
    resourceId o ≫= cached (writtenResourceMap st) = None →
    writes object o st true dataUris
      (match resourceId o with
       | Some r => with_writtenResourceMap (insert r (VStr p))
       | None => fun st => st
       end
         (with_separateResources (fmap (sink_assign p (source o)))
            (with_gltf (alter_ref (set_uri (Some (VStr p))) object)
               (with_gltf (alter_ref (set_bufferView None) object) st))))
| writes_dataUri s :
    writes object o st false true
      (with_gltf (alter_ref (set_uri (Some (VStr s))) object)
         (with_gltf (alter_ref (set_bufferView None) object) st))
| writes_view_cached r target :
    resourceId o = Some r →
    cached (writtenResourceMap st) r = Some target →
    writes object o st false false
      (with_gltf (alter_ref (set_bufferView (Some target)) object)
         (with_gltf (alter_ref (set_uri None) object) st))
| writes_view_fresh b :
    resourceId o ≫= cached (writtenResourceMap st) = None →
    bufferBytes (source o) = Some b →
    writes object o st false false
      (match resourceId o with
       | Some r =>
           with_writtenResourceMap
             (insert r (VNum (length (bufferViews (gltf st)))))
       | None => fun st => st
       end
         (with_gltf (alter_ref (set_bufferView
                                  (Some (VNum (length (bufferViews (gltf st))))))
                       object)
            (with_gltf (appendToPool b)
               (with_gltf (alter_ref (set_uri None) object) st)))).

(** ** Scenarios *)

Module Scenarios.

(** A document with one image and one texture that uses it. *)
Definition oneImage (bytes : list byte) : Gltf :=
  with_textures (fun _ => [{| tex_source := Some 0; extensions := None |}])
    (with_images (fun _ => [Sample.resource None (SBuffer bytes) None])
       Sample.emptyGltf).

(** [{encodeBasis: true, jpegCompressionRatio: 80}]. *)
Definition basisOptions : Options :=
  {| options_name := None; separateBuffers := None;
     separateTextures := None; separateShaders := None; dataUris := None;
     encodeBasis := true; basisQuality := None; basisLinear := false;
     decodeWebP := false; jpegCompressionRatio := Some 80 |}.

(** [{jpegCompressionRatio: 80}]. *)
Definition jpegOptions : Options :=
  {| options_name := None; separateBuffers := None;
     separateTextures := None; separateShaders := None; dataUris := None;
     encodeBasis := false; basisQuality := None; basisLinear := false;
     decodeWebP := false; jpegCompressionRatio := Some 80 |}.

End Scenarios.

(** [st'] is [st] after some more events, all of them in [P]. *)
Definition logged (P : event → Prop) (st st' : state) : Prop :=
  ∃ evs, log st' = log st ++ evs ∧ Forall P evs.

Module Failing.

(** basisu works once and then exits with an error. *)
Definition basisuError : error := ExternalError "basisu: exit code 1".

Definition is_exec (e : event) : bool :=
  match e with
  | EExecBasisu _ _ _ _ => true
  | _ => false
  end.

Definition env : Env :=
  {| getImageExtension := Sample.sniffer;
     mime_getType := Sample.mimeTypes;
     os_tmpdir := "/tmp";
     uuidv4 := fun n => "uid" +:+ pretty n;
     DWebp_write := fun _ _ => inr Sample.png;
     fs_writeFile_error := fun _ _ => None;
     fs_readFile_error := fun _ _ => None;
     basisu := fun history _ _ _ =>
                 if existsb is_exec history
                 then (Some basisuError, None)
                 else (None, Some Sample.ktx2);
     gm_write := fun _ _ _ => inr Sample.jpg;
     removeUnusedElements := fun g => g;
     mergeBuffers := fun g _ => g |}.

(** Two PNG images. *)
Definition twoImages : Gltf :=
  with_images (fun _ => [Sample.resource None (SBuffer Sample.png) None;
                         Sample.resource None (SBuffer Sample.png) None])
    Sample.emptyGltf.

End Failing.

(** The parts of the state that writing shaders and buffers leaves alone. *)
Definition same_textures (st st' : state) : Prop :=
  textures (gltf st') = textures (gltf st)
  ∧ extensionsRequired (gltf st') = extensionsRequired (gltf st)
  ∧ log st' = log st
  ∧ files st' = files st.

(** The bytes of a [Buffer] source. *)
Definition bufferOf (s : sourceData) : list byte :=
  match s with
  | SBuffer b => b
  | _ => []
  end.

(** [options.bufferStorage.buffer] after [writeBufferStorage] has been
    called for each of the buffers in turn. *)
Definition storeAll (combined : option (list byte)) (bs : list Resource)
    : option (list byte) :=
  foldl (fun acc o => Some (defaultValue acc [] ++ bufferOf (source o)))
    combined bs.

(** [source.toString('base64')]: a [Buffer] is encoded, a string is
    returned as it is. *)
Definition toString_base64 (s : sourceData) : string :=
  match s with
  | SBuffer b => Buffer_toString_base64 b
  | SString s => s
  | SUndefined => ""
  end.

(** The object [writeDataUri] makes of an object. *)
Definition asDataUri (env : Env) (extension : string) (o : Resource) : Resource :=
  set_uri
    (Some (VStr ("data:" +:+ string_of_nullable (mime_getType env extension)
                   +:+ ";base64," +:+ toString_base64 (source o))))
    (set_bufferView None o).

(** [program.fragmentShader === shaderIndex || program.vertexShader ===
    shaderIndex]. *)
Definition references (program : Program) (shaderIndex : nat) : Prop :=
  fragmentShader program = Some shaderIndex
  ∨ vertexShader program = Some shaderIndex.

(** The name [getName] derives for an unnamed shader of stage [o] from the
    program [program] at index [programIndex]. *)
Definition shaderName (options : Options) (o : Resource) (program : Program)
    (programIndex : nat) : string :=
  let shaderType :=
    if bool_decide (type o = Some FRAGMENT_SHADER) then "FS" else "VS" in
  match prog_name program, options_name options with
  | Some programName, _ => programName +:+ shaderType
  | None, Some g => g +:+ shaderType +:+ pretty programIndex
  | None, None => toLowerCase shaderType +:+ pretty programIndex
  end.

(** * Properties *)

(** ** The primitives on examples *)

Example base64_Man : Buffer_toString_base64 (Buffer_from "Man") = "TWFu".
Proof. reflexivity. Qed.

Example base64_Ma : Buffer_toString_base64 (Buffer_from "Ma") = "TWE=".
Proof. reflexivity. Qed.

Example base64_M : Buffer_toString_base64 (Buffer_from "M") = "TQ==".
Proof. reflexivity. Qed.

Example toLowerCase_FS : toLowerCase "FS" = "fs".
Proof. reflexivity. Qed.

Example replace_backslashes_path :
  replace_backslashes "textures\wood\a.png" = "textures/wood/a.png".
Proof. reflexivity. Qed.

(** ** References into the document *)

Lemma lookup_ref_alter_eq f r g :
  lookup_ref r (alter_ref f r g) = f <$> lookup_ref r g.
Proof. destruct r; simpl; apply list_lookup_alter_eq. Qed.

Lemma lookup_ref_alter_ne f r r' g :
  r ≠ r' → lookup_ref r' (alter_ref f r g) = lookup_ref r' g.
Proof.
  intros Hne. destruct r, r'; simpl; try reflexivity;
    apply list_lookup_alter_ne; congruence.
Qed.

Lemma lookup_ref_alter f r r' g :
  lookup_ref r' (alter_ref f r g) =
  if decide (r = r') then f <$> lookup_ref r' g else lookup_ref r' g.
Proof.
  case_decide as H.
  - subst. apply lookup_ref_alter_eq.
  - by apply lookup_ref_alter_ne.
Qed.

(** Appending to the buffer pool moves no object of the document. *)
Lemma lookup_ref_appendToPool r g o b :
  lookup_ref r g = Some o → lookup_ref r (appendToPool b g) = Some o.
Proof.
  destruct r; simpl; try done. intros H. by apply lookup_app_l_Some.
Qed.

Lemma addBuffer_Resolved buffer st n st' :
  addBuffer buffer st = (Resolved n, st') →
  ∃ b, buffer = SBuffer b ∧ n = length (bufferViews (gltf st))
       ∧ st' = with_gltf (appendToPool b) st.
Proof. destruct buffer; simpl; intros [= <- <-] || done. eauto. Qed.

(** Stepping through the monad. *)
Ltac mstep :=
  unfold bind, ret, throw, gets, modify, readObject, updateObject in *;
  simpl in *.

Ltac minv :=
  repeat match goal with
    | H : (_, _) = (_, _) |- _ => inversion H; clear H; subst
    | H : context [match ?x with _ => _ end] |- _ =>
        let E := fresh "E" in destruct x eqn:E; simpl in H; try discriminate
    end.

(** ** Plain objects used as maps *)

Example cached_empty_tex : cached ∅ "tex" = None.
Proof. reflexivity. Qed.

Example cached_empty_toString :
  cached ∅ "toString" = Some (VInherited "toString").
Proof. reflexivity. Qed.

Example sink_defined_empty_valueOf : sink_defined ∅ "valueOf" = true.
Proof. reflexivity. Qed.

Example sink_assign_proto :
  sink_assign "__proto__" (SBuffer Sample.png) ∅ = ∅.
Proof. reflexivity. Qed.

Lemma cached_None m r :
  cached m r = None ↔ m !! r = None ∧ r ∉ Object_prototype.
Proof.
  unfold cached. destruct (m !! r).
  - split; [done|]. by intros [? _].
  - case_bool_decide; split; try done. by intros [_ ?].
Qed.

Lemma cached_own m r t : m !! r = Some t → cached m r = Some t.
Proof. unfold cached. by intros ->. Qed.

Lemma cached_insert_eq m r v : cached (<[r:=v]> m) r = Some v.
Proof. unfold cached. by rewrite lookup_insert_eq. Qed.

Lemma cached_insert_ne m r r' v :
  r ≠ r' → cached (<[r:=v]> m) r' = cached m r'.
Proof. intros H. unfold cached. by rewrite lookup_insert_ne. Qed.

(** Every inherited name is found, whatever the map holds. *)
Lemma cached_inherited m r : r ∈ Object_prototype → is_Some (cached m r).
Proof.
  intros H. unfold cached. destruct (m !! r); [eauto|].
  rewrite bool_decide_eq_true_2 by done. eauto.
Qed.

(** A path that is not defined in the sink is one under which an
    assignment creates or overwrites an own property. *)
Lemma sink_assign_free sink p s :
  sink_defined sink p = false → sink_assign p s sink = <[p:=s]> sink.
Proof.
  unfold sink_defined, sink_assign. destruct (sink !! p); [done|].
  intros H%bool_decide_eq_false. case_bool_decide; [|done].
  subst. destruct H. set_solver.
Qed.

Lemma sink_assign_ne sink p s :
  p ≠ "__proto__" → sink_assign p s sink = <[p:=s]> sink.
Proof.
  intros H. unfold sink_assign. destruct (sink !! p); [done|].
  by rewrite bool_decide_eq_false_2.
Qed.

(** ** Name resolution only reads *)

Lemma getName_state object index extension options st :
  (getName object index extension options st).2 = st.
Proof.
  unfold getName. mstep.
  destruct (lookup_ref object (gltf st)) as [o|]; [|done].
  destruct (name o); [done|].
  repeat case_bool_decide; simpl; repeat case_match; done.
Qed.

Lemma getRelativePath_state object index extension options st :
  (getRelativePath object index extension options st).2 = st.
Proof.
  unfold getRelativePath. mstep.
  destruct (lookup_ref object (gltf st)) as [o|]; [|done].
  destruct (relativePath o); [done|].
  pose proof (getName_state object index extension options st) as Hn.
  destruct (getName object index extension options st) as [[n|e|] st1];
    simpl in Hn; subst; try done.
  repeat case_match; done.
Qed.

(** ** One target per externalized resource *)

(** C2. After [writeResource] has externalized a resource, the resource
    holds exactly one of [uri] and [bufferView]: a [uri] and no
    [bufferView] on the separate-file and data-URI paths, a [bufferView]
    and no [uri] on the bufferView path. The other property is deleted
    first, so it is gone even when the call throws afterwards. *)
Theorem writeResource_one_target env object index separate dataUris extension
    options st r st' :
  writeResource env object index separate dataUris extension options st
    = (r, st') →
  is_Some (lookup_ref object (gltf st)) →
  ∃ o, lookup_ref object (gltf st') = Some o
       ∧ (if separate || dataUris then bufferView o = None else uri o = None)
       ∧ (r = Resolved tt →
          defined (uri o) = (separate || dataUris)
          ∧ defined (bufferView o) = negb (separate || dataUris)).
Proof.
  intros Hrun [o Ho]. revert Hrun.
  unfold writeResource. destruct separate; [|destruct dataUris]; simpl.
  - unfold writeFile. mstep. rewrite lookup_ref_alter_eq, Ho. simpl.
    destruct (resourceId o ≫= _) as [target|] eqn:Ht.
    + intros [= <- <-]. simpl. rewrite !lookup_ref_alter_eq, Ho.
      eexists; split; [done|]. done.
    + match goal with |- context [getRelativePath ?a ?b ?c ?d ?s] =>
        pose proof (getRelativePath_state a b c d s) as Hs;
        destruct (getRelativePath a b c d s) as [[p|e'|] st1] end;
        simpl in Hs; subst st1.
      * destruct (resourceId o); intros [= <- <-]; simpl;
          rewrite !lookup_ref_alter_eq, Ho; eexists; (split; [done|]); done.
      * intros [= <- <-]; simpl. rewrite !lookup_ref_alter_eq, Ho.
        eexists; (split; [done|]); done.
      * intros [= <- <-]; simpl. rewrite !lookup_ref_alter_eq, Ho.
        eexists; (split; [done|]); done.
  - unfold writeDataUri. mstep. rewrite lookup_ref_alter_eq, Ho. simpl.
    destruct (source o); simpl; intros [= <- <-]; simpl;
      rewrite !lookup_ref_alter_eq, Ho; eexists; (split; [done|]); done.
  - unfold writeBufferView. mstep. rewrite lookup_ref_alter_eq, Ho. simpl.
    destruct (resourceId o ≫= _) as [target|] eqn:Ht.
    + intros [= <- <-]. simpl. rewrite !lookup_ref_alter_eq, Ho.
      eexists; split; [done|]. done.
    + destruct (addBuffer _ _) as [[n|e|] st1] eqn:Ha.
      * apply addBuffer_Resolved in Ha as (b & _ & -> & ->).
        destruct (resourceId o); intros [= <- <-]; simpl;
          rewrite lookup_ref_alter_eq;
          erewrite lookup_ref_appendToPool
            by (rewrite lookup_ref_alter_eq, Ho; done);
          eexists; (split; [done|]); done.
      * assert (st1 = with_gltf (alter_ref (set_uri None) object) st) as ->
          by (revert Ha; unfold addBuffer, throw; repeat case_match; congruence).
        intros [= <- <-]; simpl. rewrite !lookup_ref_alter_eq, Ho.
        eexists; (split; [done|]); done.
      * revert Ha; unfold addBuffer, throw; repeat case_match; congruence.
Qed.

(** An image that enters with both properties set leaves with one. *)
Lemma writeResource_one_target_witness :
  let image :=
    {| name := None; uri := Some (VStr "old.png");
       bufferView := Some (VNum 7); mimeType := None; type := None;
       byteLength := None; source := SBuffer Sample.png;
       resourceId := None; relativePath := None |} in
  let g := with_images (fun _ => [image]) Sample.emptyGltf in
  let st := Sample.initial g None in
  let st' := (writeResource Sample.env (RImage 0) 0 false false ".png"
                Sample.options st).2 in
  ∃ o, lookup_ref (RImage 0) (gltf st') = Some o
       ∧ uri o = None
       ∧ (Resolved tt = Resolved tt →
          defined (uri o) = false ∧ defined (bufferView o) = true).
Proof.
  intros image g st st'.
  apply (writeResource_one_target Sample.env (RImage 0) 0 false false ".png"
           Sample.options st (Resolved tt) st').
  - reflexivity.
  - simpl. eauto.
Defined.

(** ** Buffers are never written as bufferViews *)

(** C9. Without [separateBuffers] and without [options.bufferStorage], a
    buffer is written as a base64 data URI whatever [options.dataUris]
    says, and is left with no [bufferView]. *)
Theorem writeBuffer_data_uri env buffer i options st o b :
  lookup_ref buffer (gltf st) = Some o →
  source o = SBuffer b →
  truthy (separateBuffers options) = false →
  bufferStorage st = None →
  ∃ st',
    writeBuffer env buffer i options st = (Resolved tt, st')
    ∧ lookup_ref buffer (gltf st') =
        Some (set_uri
                (Some (VStr ("data:" +:+ string_of_nullable (mime_getType env ".bin")
                               +:+ ";base64," +:+ Buffer_toString_base64 b)))
                (set_bufferView None o))
    ∧ writeBuffer env buffer i options st =
        writeResource env buffer i false true ".bin" options st.
Proof.
  intros Ho Hs Hsep Hst.
  unfold writeBuffer, writeResource, writeDataUri. mstep.
  rewrite Hst, Hsep. simpl. rewrite lookup_ref_alter_eq, Ho. simpl.
  rewrite Hs. simpl. eexists. split; [reflexivity|]. split; [|reflexivity].
  simpl. rewrite !lookup_ref_alter_eq, Ho. done.
Qed.

(** A buffer of the document written with [dataUris] switched off. *)
Lemma writeBuffer_data_uri_witness :
  let buffer := Sample.resource None (SBuffer Sample.png) None in
  let g := with_buffers (fun _ => [buffer]) Sample.emptyGltf in
  let st := Sample.initial g None in
  let options := withDefaults Sample.options in
  dataUris options = Some false
  ∧ ∃ st',
      writeBuffer Sample.env (RBuffer 0) 0 options st = (Resolved tt, st')
      ∧ lookup_ref (RBuffer 0) (gltf st') =
          Some (set_uri
                  (Some (VStr "data:application/octet-stream;base64,iVBORwE="))
                  (set_bufferView None buffer))
      ∧ writeBuffer Sample.env (RBuffer 0) 0 options st =
          writeResource Sample.env (RBuffer 0) 0 false true ".bin" options st.
Proof.
  intros buffer g st options. split; [reflexivity|].
  apply (writeBuffer_data_uri Sample.env (RBuffer 0) 0 options st buffer
           Sample.png); reflexivity.
Defined.

(** On the separate-file and data-URI paths [bufferView] is deleted before
    anything can fail. *)
Lemma writeResource_deletes_bufferView env object index separate extension
    options st r st' o :
  lookup_ref object (gltf st) = Some o →
  writeResource env object index separate true extension options st
    = (r, st') →
  ∃ o', lookup_ref object (gltf st') = Some o' ∧ bufferView o' = None.
Proof.
  intros Ho. unfold writeResource. destruct separate.
  - unfold writeFile. mstep. rewrite lookup_ref_alter_eq, Ho. simpl.
    destruct (resourceId o ≫= _) as [target|].
    + intros [= <- <-]. simpl. rewrite !lookup_ref_alter_eq, Ho. eauto.
    + match goal with |- context [getRelativePath ?a ?b ?c ?d ?s] =>
        pose proof (getRelativePath_state a b c d s) as Hs;
        destruct (getRelativePath a b c d s) as [[p|e'|] st1] end;
        simpl in Hs; subst st1;
        [destruct (resourceId o)| |]; intros [= <- <-]; simpl;
        rewrite !lookup_ref_alter_eq, Ho; eauto.
  - unfold writeDataUri. mstep. rewrite lookup_ref_alter_eq, Ho. simpl.
    destruct (source o); simpl; intros [= <- <-]; simpl;
      rewrite !lookup_ref_alter_eq, Ho; eauto.
Qed.

(** Whatever the options, [writeBuffer] gives no buffer a [bufferView]. *)
Lemma writeBuffer_no_bufferView env buffer i options st r st' o :
  lookup_ref buffer (gltf st) = Some o →
  writeBuffer env buffer i options st = (r, st') →
  ∃ o', lookup_ref buffer (gltf st') = Some o'
        ∧ (bufferView o' = None ∨ bufferView o' = bufferView o).
Proof.
  intros Ho. unfold writeBuffer. mstep.
  destruct (defined (bufferStorage st) && _) eqn:Hd.
  - unfold writeBufferStorage. mstep. rewrite Ho.
    intros H. exists o. split; [|by right].
    destruct (bufferStorage st); [destruct (source o)|]; simpl in H;
      injection H as <- <-; done.
  - intros H.
    destruct (writeResource_deletes_bufferView _ _ _ _ _ _ _ _ _ _ Ho H)
      as (o' & Ho' & Hd').
    exists o'. split; [done|]. by left.
Qed.

(** ** The separate-file path needs [options.separateResources] *)

Lemma getName_outcome object index extension options st :
  (∃ n, (getName object index extension options st).1 = Resolved n)
  ∨ (∃ msg, (getName object index extension options st).1
            = Rejected (TypeError msg)).
Proof.
  unfold getName. mstep.
  destruct (lookup_ref object (gltf st)) as [o|]; [|eauto].
  destruct (name o); [eauto|].
  repeat case_bool_decide; simpl; repeat case_match; eauto.
Qed.

(** C10. A resource on the separate-file path that has no explicit
    relative path and no cached target cannot be written when
    [options.separateResources] is undefined: the collision loop of
    [getRelativePath] reads the sink unguarded, and the call throws a
    [TypeError]. *)
Theorem writeFile_needs_separateResources env object index dataUris extension
    options st o :
  lookup_ref object (gltf st) = Some o →
  relativePath o = None →
  resourceId o ≫= cached (writtenResourceMap st) = None →
  separateResources st = None →
  ∃ msg st',
    writeResource env object index true dataUris extension options st
      = (Rejected (TypeError msg), st').
Proof.
  intros Ho Hrel Hcache Hsink.
  unfold writeResource, writeFile. mstep.
  rewrite lookup_ref_alter_eq, Ho. simpl. rewrite Hcache.
  unfold getRelativePath. mstep.
  rewrite lookup_ref_alter_eq, Ho. simpl. rewrite Hrel.
  match goal with |- context [getName ?a ?b ?c ?d ?s] =>
    pose proof (getName_state a b c d s) as Hs;
    destruct (getName_outcome a b c d s) as [[n Hn]|[msg Hn]];
    destruct (getName a b c d s) as [r st1] end;
    simpl in Hs, Hn; subst.
  - simpl. rewrite Hsink. eauto.
  - eauto.
Qed.

(** An unnamed buffer written with [separateBuffers] and no sink. *)
Lemma writeFile_needs_separateResources_witness :
  let buffer := Sample.resource None (SBuffer Sample.png) None in
  let g := with_buffers (fun _ => [buffer]) Sample.emptyGltf in
  let st := Sample.initial g None in
  ∃ msg st',
    writeResource Sample.env (RBuffer 0) 0 true true ".bin" Sample.options st
      = (Rejected (TypeError msg), st').
Proof.
  intros buffer g st.
  apply (writeFile_needs_separateResources Sample.env (RBuffer 0) 0 true ".bin"
           Sample.options st buffer); reflexivity.
Defined.

(** The sink write of [writeFile] itself is guarded: with an explicit
    relative path the same call returns normally and sets [uri]. *)
Lemma writeFile_explicit_path_without_sink object index extension options st o p :
  lookup_ref object (gltf st) = Some o →
  relativePath o = Some p →
  resourceId o = None →
  separateResources st = None →
  ∃ st',
    writeFile object index extension options st = (Resolved tt, st')
    ∧ separateResources st' = None
    ∧ lookup_ref object (gltf st') =
        Some (set_uri (Some (VStr (replace_backslashes p)))
                (set_bufferView None o)).
Proof.
  intros Ho Hrel Hid Hsink.
  unfold writeFile, getRelativePath. mstep.
  rewrite lookup_ref_alter_eq, Ho. simpl. rewrite Hid. simpl.
  rewrite lookup_ref_alter_eq, Ho. simpl. rewrite Hrel. simpl.
  eexists. split; [reflexivity|]. simpl.
  rewrite Hsink, !lookup_ref_alter_eq, Ho. done.
Qed.

(** ** Relative paths *)

Lemma string_length_app (s1 s2 : string) :
  String.length (s1 +:+ s2) = String.length s1 + String.length s2.
Proof. induction s1 as [|c s1 IH]; simpl; [done|]. by rewrite IH. Qed.

Lemma string_app_inv_tail (s1 s2 t : string) :
  s1 +:+ t = s2 +:+ t → s1 = s2.
Proof.
  revert s2. induction s1 as [|c s1 IH]; intros [|d s2] H; simpl in H.
  - done.
  - apply (f_equal String.length) in H.
    rewrite !string_length_app in H. simpl in H. lia.
  - apply (f_equal String.length) in H.
    rewrite !string_length_app in H. simpl in H. lia.
  - injection H as -> H. f_equal. by apply IH.
Qed.

#[global] Instance candidate_inj name extension :
  Inj (=) (=) (candidate name extension).
Proof.
  intros [|i] [|k] H; unfold candidate in H.
  - done.
  - apply (f_equal String.length) in H.
    rewrite !string_length_app in H. simpl in H. lia.
  - apply (f_equal String.length) in H.
    rewrite !string_length_app in H. simpl in H. lia.
  - apply (inj (String.append name)), (inj (String.append "_")) in H.
    apply string_app_inv_tail in H. by apply (inj pretty) in H.
Qed.

Lemma getRelativePath_loop_unfold fuel sink name extension j :
  getRelativePath_loop (S fuel) sink name extension
    (candidate name extension j) (S j) =
  if sink_defined sink (candidate name extension j)
  then getRelativePath_loop fuel sink name extension
         (candidate name extension (S j)) (S (S j))
  else Some (candidate name extension j).
Proof. reflexivity. Qed.

(** Whatever the loop returns is the first free candidate. *)
Lemma getRelativePath_loop_first_free fuel sink name extension j p :
  getRelativePath_loop fuel sink name extension
    (candidate name extension j) (S j) = Some p →
  ∃ k, (j ≤ k)%nat ∧ p = candidate name extension k
       ∧ sink_defined sink p = false
       ∧ ∀ i, (j ≤ i < k)%nat →
              sink_defined sink (candidate name extension i) = true.
Proof.
  revert j. induction fuel as [|fuel IH]; intros j; [done|].
  rewrite getRelativePath_loop_unfold.
  destruct (sink_defined sink (candidate name extension j)) eqn:Hd.
  - intros H. apply IH in H as (k & Hk & -> & Hfree & Hbefore).
    exists k. split; [lia|]. split; [done|]. split; [done|].
    intros i Hi. destruct (decide (i = j)) as [->|]; [done|].
    apply Hbefore. lia.
  - intros [= <-]. exists j. split; [lia|]. split; [done|]. split; [done|].
    intros i Hi. lia.
Qed.

Lemma sink_defined_dom sink path :
  sink_defined sink path = true → path ∈ dom sink ∨ path ∈ Object_prototype.
Proof.
  unfold sink_defined. intros H.
  destruct (sink !! path) eqn:E.
  - left. apply elem_of_dom. eauto.
  - right. by apply bool_decide_eq_true in H.
Qed.

(** Distinct defined paths are at most as many as the sink has entries and
    [Object.prototype] has members. *)
Lemma candidates_defined_bound (sink : gmap string sourceData) name extension j :
  (∀ i, (i < j)%nat → sink_defined sink (candidate name extension i) = true) →
  (j ≤ size sink + length Object_prototype)%nat.
Proof.
  intros Hall.
  assert (candidate name extension <$> seq 0 j
          ⊆+ elements (dom sink) ++ Object_prototype) as Hsub.
  { apply NoDup_submseteq.
    - apply (NoDup_fmap_2 (candidate name extension)), NoDup_seq.
    - intros x (i & -> & Hi)%list_elem_of_fmap. apply elem_of_app.
      rewrite elem_of_elements.
      apply sink_defined_dom, Hall. apply elem_of_seq in Hi. lia. }
  apply submseteq_length in Hsub.
  rewrite length_fmap, length_seq, length_app in Hsub.
  rewrite <- size_dom. exact Hsub.
Qed.

(** With more fuel than there are defined paths the loop finds a free
    path: the [while] loop of [getRelativePath] terminates. *)
Lemma getRelativePath_loop_total fuel (sink : gmap string sourceData)
    name extension j :
  (∀ i, (i < j)%nat → sink_defined sink (candidate name extension i) = true) →
  (size sink + length Object_prototype < fuel + j)%nat →
  is_Some (getRelativePath_loop fuel sink name extension
             (candidate name extension j) (S j)).
Proof.
  revert j. induction fuel as [|fuel IH]; intros j Hall Hsize.
  - apply candidates_defined_bound in Hall. lia.
  - rewrite getRelativePath_loop_unfold.
    destruct (sink_defined sink (candidate name extension j)) eqn:Hd; [|eauto].
    apply IH; [|lia]. intros i Hi.
    destruct (decide (i = j)) as [->|]; [done|]. apply Hall. lia.
Qed.

(** [getRelativePath] with a sink and no explicit path: it returns, and
    what it returns is the first candidate that is free in the sink. *)
Lemma getRelativePath_resolves object index extension options st o sink n :
  lookup_ref object (gltf st) = Some o →
  relativePath o = None →
  separateResources st = Some sink →
  getName object index extension options st = (Resolved n, st) →
  ∃ k,
    getRelativePath object index extension options st
      = (Resolved (candidate n extension k), st)
    ∧ sink_defined sink (candidate n extension k) = false
    ∧ ∀ i, (i < k)%nat → sink_defined sink (candidate n extension i) = true.
Proof.
  intros Ho Hrel Hsink Hname.
  unfold getRelativePath. mstep. rewrite Ho, Hrel, Hname, Hsink.
  destruct (getRelativePath_loop_total (S (size sink + length Object_prototype))
              sink n extension 0)
    as [p Hp]; [intros i Hi; lia|lia|].
  simpl length in Hp.
  change (n +:+ extension) with (candidate n extension 0).
  rewrite Hp.
  apply getRelativePath_loop_first_free in Hp as (k & _ & -> & Hfree & Hbefore).
  exists k. split; [done|]. split; [done|]. intros i Hi. apply Hbefore. lia.
Qed.

Lemma getRelativePath_at k object index extension options st o sink n :
  lookup_ref object (gltf st) = Some o →
  relativePath o = None →
  separateResources st = Some sink →
  getName object index extension options st = (Resolved n, st) →
  sink_defined sink (candidate n extension k) = false →
  (∀ i, (i < k)%nat → sink_defined sink (candidate n extension i) = true) →
  getRelativePath object index extension options st
    = (Resolved (candidate n extension k), st).
Proof.
  intros Ho Hrel Hsink Hname Hfree Hbefore.
  destruct (getRelativePath_resolves _ _ _ _ _ _ _ _ Ho Hrel Hsink Hname)
    as (k' & -> & Hfree' & Hbefore').
  destruct (Nat.lt_trichotomy k k') as [Hlt|[->|Hlt]]; [|done|].
  - apply Hbefore' in Hlt. congruence.
  - apply Hbefore in Hlt. congruence.
Qed.

(** Deleting or setting [uri] and [bufferView] changes no name. *)
Lemma programs_alter_ref f r g : programs (alter_ref f r g) = programs g.
Proof. by destruct r. Qed.

Lemma getName_alter f object index extension options st r :
  (∀ o, name (f o) = name o ∧ type (f o) = type o) →
  (getName object index extension options
     (with_gltf (alter_ref f r) st)).1
  = (getName object index extension options st).1.
Proof.
  intros Hf. unfold getName, getProgram. mstep.
  rewrite lookup_ref_alter.
  case_decide; destruct (lookup_ref object (gltf st)) as [o|]; simpl; try done.
  - destruct (Hf o) as [-> ->]. destruct (name o); [done|].
    repeat case_bool_decide; simpl; rewrite ?programs_alter_ref;
      repeat case_match; done.
  - destruct (name o); [done|].
    repeat case_bool_decide; simpl; rewrite ?programs_alter_ref;
      repeat case_match; done.
Qed.

Lemma getRelativePath_alter f object index extension options st r :
  (∀ o, name (f o) = name o ∧ type (f o) = type o
        ∧ relativePath (f o) = relativePath o) →
  (getRelativePath object index extension options
     (with_gltf (alter_ref f r) st)).1
  = (getRelativePath object index extension options st).1.
Proof.
  intros Hf. unfold getRelativePath. mstep.
  assert (∀ o, name (f o) = name o ∧ type (f o) = type o) as Hf'
    by (intros o; destruct (Hf o) as (? & ? & ?); done).
  pose proof (getName_alter f object index extension options st r Hf') as Hn.
  pose proof (getName_state object index extension options st) as Hs.
  pose proof (getName_state object index extension options
                (with_gltf (alter_ref f r) st)) as Hs'.
  rewrite lookup_ref_alter.
  assert (relativePath <$> (if decide (r = object)
                            then f <$> lookup_ref object (gltf st)
                            else lookup_ref object (gltf st))
          = relativePath <$> lookup_ref object (gltf st)) as Hrel.
  { case_decide; [|done]. destruct (lookup_ref object (gltf st)) as [o|]; [|done].
    simpl. f_equal. apply Hf. }
  destruct (if decide (r = object) then _ else _) as [o1|],
    (lookup_ref object (gltf st)) as [o|]; simpl in Hrel; try done.
  injection Hrel as ->. destruct (relativePath o); [done|].
  destruct (getName object index extension options st) as [res st1],
    (getName object index extension options (with_gltf (alter_ref f r) st))
      as [res' st1'].
  simpl in *. subst. destruct res; simpl; try done.
  repeat case_match; done.
Qed.

(** ** The two branches of [writeFile] and of [writeBufferView] *)

Lemma writeFile_cached object index extension options st o r target :
  lookup_ref object (gltf st) = Some o →
  resourceId o = Some r →
  cached (writtenResourceMap st) r = Some target →
  writeFile object index extension options st =
    (Resolved tt,
     with_gltf (alter_ref (set_uri (Some target)) object)
       (with_gltf (alter_ref (set_bufferView None) object) st)).
Proof.
  intros Ho Hr Ht. unfold writeFile. mstep.
  rewrite lookup_ref_alter_eq, Ho. simpl. rewrite Hr. simpl. by rewrite Ht.
Qed.

Lemma writeFile_fresh object index extension options st o p :
  lookup_ref object (gltf st) = Some o →
  resourceId o ≫= cached (writtenResourceMap st) = None →
  (getRelativePath object index extension options st).1 = Resolved p →
  writeFile object index extension options st =
    (Resolved tt,
     match resourceId o with
     | Some r => with_writtenResourceMap (insert r (VStr p))
     | None => fun st => st
     end
       (with_separateResources (fmap (sink_assign p (source o)))
          (with_gltf (alter_ref (set_uri (Some (VStr p))) object)
             (with_gltf (alter_ref (set_bufferView None) object) st)))).
Proof.
  intros Ho Hcache Hp. unfold writeFile. mstep.
  rewrite lookup_ref_alter_eq, Ho. simpl. rewrite Hcache.
  pose proof (getRelativePath_alter (set_bufferView None) object index
                extension options st object) as Ha.
  pose proof (getRelativePath_state object index extension options
                (with_gltf (alter_ref (set_bufferView None) object) st)) as Hs.
  destruct (getRelativePath object index extension options
              (with_gltf (alter_ref (set_bufferView None) object) st))
    as [res st1].
  simpl in Ha, Hs. subst st1. rewrite Ha, Hp by done.
  by destruct (resourceId o).
Qed.

Lemma writeBufferView_cached object st o r target :
  lookup_ref object (gltf st) = Some o →
  resourceId o = Some r →
  cached (writtenResourceMap st) r = Some target →
  writeBufferView object st =
    (Resolved tt,
     with_gltf (alter_ref (set_bufferView (Some target)) object)
       (with_gltf (alter_ref (set_uri None) object) st)).
Proof.
  intros Ho Hr Ht. unfold writeBufferView. mstep.
  rewrite lookup_ref_alter_eq, Ho. simpl. rewrite Hr. simpl. by rewrite Ht.
Qed.

Lemma writeBufferView_fresh object st o b :
  lookup_ref object (gltf st) = Some o →
  resourceId o ≫= cached (writtenResourceMap st) = None →
  bufferBytes (source o) = Some b →
  writeBufferView object st =
    (Resolved tt,
     match resourceId o with
     | Some r =>
         with_writtenResourceMap
           (insert r (VNum (length (bufferViews (gltf st)))))
     | None => fun st => st
     end
       (with_gltf (alter_ref (set_bufferView
                                (Some (VNum (length (bufferViews (gltf st))))))
                     object)
          (with_gltf (appendToPool b)
             (with_gltf (alter_ref (set_uri None) object) st)))).
Proof.
  intros Ho Hcache Hb. unfold writeBufferView. mstep.
  rewrite lookup_ref_alter_eq, Ho. simpl. rewrite Hcache.
  assert (bufferViews (alter_ref (set_uri None) object (gltf st))
          = bufferViews (gltf st)) as Hbv by (by destruct object).
  destruct (source o); simpl in Hb; try done; injection Hb as <-; simpl;
    rewrite Hbv; by destruct (resourceId o).
Qed.

Lemma getName_named object index extension options st o n :
  lookup_ref object (gltf st) = Some o →
  name o = Some n →
  getName object index extension options st = (Resolved n, st).
Proof. intros Ho Hn. unfold getName. mstep. by rewrite Ho, Hn. Qed.

Lemma getName_buffer object index options st o :
  lookup_ref object (gltf st) = Some o →
  name o = None →
  options_name options = None →
  getName object index ".bin" options st
    = (Resolved ("buffer" +:+ pretty index), st).
Proof. intros Ho Hn Hg. unfold getName. mstep. by rewrite Ho, Hn, Hg. Qed.

Lemma sink_defined_insert_ne sink p q (s : sourceData) :
  p ≠ q → sink_defined (<[p:=s]> sink) q = sink_defined sink q.
Proof. intros H. unfold sink_defined. by rewrite lookup_insert_ne. Qed.

Lemma sink_defined_insert_eq sink p (s : sourceData) :
  s ≠ SUndefined → sink_defined (<[p:=s]> sink) p = true.
Proof.
  intros H. unfold sink_defined. rewrite lookup_insert_eq. by destruct s.
Qed.

(** Two resources without identity written one after the other on the
    separate-file path, the first to the candidate [0] of its name and the
    second to the candidate [k] of its own. *)
Lemma writeFile_twice a b ia ib exta extb options st oa ob sink na nb k :
  a ≠ b →
  lookup_ref a (gltf st) = Some oa →
  lookup_ref b (gltf st) = Some ob →
  relativePath oa = None → relativePath ob = None →
  resourceId oa = None → resourceId ob = None →
  separateResources st = Some sink →
  (∀ st, lookup_ref a (gltf st) = Some (set_bufferView None oa) ∨
         lookup_ref a (gltf st) = Some oa →
         getName a ia exta options st = (Resolved na, st)) →
  (∀ st, lookup_ref b (gltf st) = Some ob →
         getName b ib extb options st = (Resolved nb, st)) →
  sink_defined sink (candidate na exta 0) = false →
  sink_defined (<[candidate na exta 0 := source oa]> sink)
    (candidate nb extb k) = false →
  (∀ i, (i < k)%nat →
        sink_defined (<[candidate na exta 0 := source oa]> sink)
          (candidate nb extb i) = true) →
  ∃ st1 st2,
    writeFile a ia exta options st = (Resolved tt, st1)
    ∧ writeFile b ib extb options st1 = (Resolved tt, st2)
    ∧ lookup_ref a (gltf st2) =
        Some (set_uri (Some (VStr (candidate na exta 0))) (set_bufferView None oa))
    ∧ lookup_ref b (gltf st2) =
        Some (set_uri (Some (VStr (candidate nb extb k))) (set_bufferView None ob)).
Proof.
  intros Hab Ha Hb Hra Hrb Hia Hib Hsink Hna Hnb Hfree0 Hfreek Hbefore.
  assert ((getRelativePath a ia exta options st).1
          = Resolved (candidate na exta 0)) as Hp.
  { erewrite (getRelativePath_at 0); eauto. intros i Hi. lia. }
  pose proof (writeFile_fresh a ia exta options st oa _ Ha
                ltac:(by rewrite Hia) Hp) as H1.
  rewrite Hia in H1. eexists. eexists. split; [exact H1|].
  match type of H1 with _ = (_, ?s) => set (st1 := s) in * end.
  assert (lookup_ref b (gltf st1) = Some ob) as Hb1.
  { subst st1. simpl. by rewrite !lookup_ref_alter_ne. }
  assert ((getRelativePath b ib extb options st1).1
          = Resolved (candidate nb extb k)) as Hq.
  { erewrite (getRelativePath_at k); eauto. subst st1. simpl.
    rewrite Hsink. simpl. by rewrite (sink_assign_free _ _ _ Hfree0). }
  pose proof (writeFile_fresh b ib extb options st1 ob _ Hb1
                ltac:(by rewrite Hib) Hq) as H2.
  rewrite Hib in H2. split; [exact H2|]. subst st1. simpl. split.
  - rewrite !(lookup_ref_alter_ne _ b a) by done.
    by rewrite !lookup_ref_alter_eq, Ha.
  - rewrite !lookup_ref_alter_eq, !(lookup_ref_alter_ne _ a b), Hb by done.
    done.
Qed.

Lemma writeBuffer_separate env buffer i options st :
  truthy (separateBuffers options) = true →
  writeBuffer env buffer i options st = writeFile buffer i ".bin" options st.
Proof.
  intros H. unfold writeBuffer, writeResource. mstep.
  by rewrite H, andb_false_r.
Qed.

(** C7. Unnamed buffers at indices 0 and 1, with no document name and no
    explicit relative path, are written to [buffer0.bin] and [buffer1.bin]
    when these are free in the sink; in general the relative path of a
    resource is the first of [name + extension], [name_1 + extension],
    [name_2 + extension], ... that is not a defined key of the sink; and
    of two resources with the same explicit name the second is written to
    [name_1 + extension]. *)
Theorem relative_path_collision_policy env :
  (∀ options st o0 o1 sink,
     lookup_ref (RBuffer 0) (gltf st) = Some o0 →
     lookup_ref (RBuffer 1) (gltf st) = Some o1 →
     name o0 = None → name o1 = None →
     relativePath o0 = None → relativePath o1 = None →
     resourceId o0 = None → resourceId o1 = None →
     options_name options = None →
     truthy (separateBuffers options) = true →
     separateResources st = Some sink →
     sink_defined sink "buffer0.bin" = false →
     sink_defined sink "buffer1.bin" = false →
     ∃ st1 st2,
       writeBuffer env (RBuffer 0) 0 options st = (Resolved tt, st1)
       ∧ writeBuffer env (RBuffer 1) 1 options st1 = (Resolved tt, st2)
       ∧ uri <$> lookup_ref (RBuffer 0) (gltf st2)
         = Some (Some (VStr "buffer0.bin"))
       ∧ uri <$> lookup_ref (RBuffer 1) (gltf st2)
         = Some (Some (VStr "buffer1.bin")))
  ∧ (∀ object index extension options st o sink n,
       lookup_ref object (gltf st) = Some o →
       relativePath o = None →
       separateResources st = Some sink →
       getName object index extension options st = (Resolved n, st) →
       ∃ k,
         getRelativePath object index extension options st
           = (Resolved (candidate n extension k), st)
         ∧ sink_defined sink (candidate n extension k) = false
         ∧ ∀ i, (i < k)%nat →
                sink_defined sink (candidate n extension i) = true)
  ∧ (∀ a b ia ib dataUris extension options st oa ob sink n,
       a ≠ b →
       lookup_ref a (gltf st) = Some oa →
       lookup_ref b (gltf st) = Some ob →
       name oa = Some n → name ob = Some n →
       relativePath oa = None → relativePath ob = None →
       resourceId oa = None → resourceId ob = None →
       source oa ≠ SUndefined →
       separateResources st = Some sink →
       sink_defined sink (n +:+ extension) = false →
       sink_defined sink (n +:+ "_1" +:+ extension) = false →
       ∃ st1 st2,
         writeResource env a ia true dataUris extension options st
           = (Resolved tt, st1)
         ∧ writeResource env b ib true dataUris extension options st1
           = (Resolved tt, st2)
         ∧ uri <$> lookup_ref a (gltf st2)
           = Some (Some (VStr (n +:+ extension)))
         ∧ uri <$> lookup_ref b (gltf st2)
           = Some (Some (VStr (n +:+ "_1" +:+ extension)))).
Proof.
  split; [|split].
  - intros options st o0 o1 sink H0 H1 Hn0 Hn1 Hr0 Hr1 Hi0 Hi1 Hg Hsep Hsink
      Hf0 Hf1.
    destruct (writeFile_twice (RBuffer 0) (RBuffer 1) 0 1 ".bin" ".bin" options
                st o0 o1 sink "buffer0" "buffer1" 0)
      as (st1 & st2 & Hw1 & Hw2 & Ha & Hb); try done.
    + intros st' [H|H]; eapply getName_buffer; eauto.
    + intros st' H. eapply getName_buffer; eauto.
    + by rewrite sink_defined_insert_ne.
    + intros i Hi. lia.
    + exists st1, st2. rewrite !writeBuffer_separate by done.
      split; [done|]. split; [done|]. by rewrite Ha, Hb.
  - intros object index extension options st o sink n.
    apply getRelativePath_resolves.
  - intros a b ia ib dataUris extension options st oa ob sink n Hab Ha Hb Hna
      Hnb Hra Hrb Hia Hib Hsrc Hsink Hf0 Hf1.
    destruct (writeFile_twice a b ia ib extension extension options
                st oa ob sink n n 1)
      as (st1 & st2 & Hw1 & Hw2 & Ha' & Hb'); try done.
    + intros st' [H|H]; eapply getName_named; eauto.
    + intros st' H. eapply getName_named; eauto.
    + rewrite sink_defined_insert_ne; [done|].
      intros H. by apply (inj (candidate n extension)) in H.
    + intros i Hi. assert (i = 0) as -> by lia.
      by apply sink_defined_insert_eq.
    + exists st1, st2. unfold writeResource.
      split; [done|]. split; [done|]. by rewrite Ha', Hb'.
Qed.

(** Two unnamed buffers, and two images both named [wood], written to an
    empty sink. *)
Lemma relative_path_collision_policy_witness :
  let buffer := Sample.resource None (SBuffer Sample.png) None in
  let image := Sample.resource (Some "wood") (SBuffer Sample.png) None in
  let g := with_images (fun _ => [image; image])
             (with_buffers (fun _ => [buffer; buffer]) Sample.emptyGltf) in
  let st := Sample.initial g (Some ∅) in
  let options :=
    {| options_name := None; separateBuffers := Some true;
       separateTextures := Some true; separateShaders := None;
       dataUris := None; encodeBasis := false; basisQuality := None;
       basisLinear := false; decodeWebP := false;
       jpegCompressionRatio := None |} in
  (∃ st1 st2,
     writeBuffer Sample.env (RBuffer 0) 0 options st = (Resolved tt, st1)
     ∧ writeBuffer Sample.env (RBuffer 1) 1 options st1 = (Resolved tt, st2)
     ∧ uri <$> lookup_ref (RBuffer 0) (gltf st2)
       = Some (Some (VStr "buffer0.bin"))
     ∧ uri <$> lookup_ref (RBuffer 1) (gltf st2)
       = Some (Some (VStr "buffer1.bin")))
  ∧ (∃ st1 st2,
       writeResource Sample.env (RImage 0) 0 true false ".png" options st
         = (Resolved tt, st1)
       ∧ writeResource Sample.env (RImage 1) 1 true false ".png" options st1
         = (Resolved tt, st2)
       ∧ uri <$> lookup_ref (RImage 0) (gltf st2)
         = Some (Some (VStr "wood.png"))
       ∧ uri <$> lookup_ref (RImage 1) (gltf st2)
         = Some (Some (VStr "wood_1.png"))).
Proof.
  intros buffer image g st options.
  pose proof (relative_path_collision_policy Sample.env) as (HA & _ & HC).
  split.
  - apply (HA options st buffer buffer ∅); reflexivity.
  - apply (HC (RImage 0) (RImage 1) 0 1 false ".png" options st image image ∅
             "wood"); try reflexivity; done.
Defined.

(** ** What a call of [writeResource] has done *)

Lemma bind_cached_Some (x : option string) (m : gmap string jsval) t :
  x ≫= cached m = Some t → ∃ r, x = Some r ∧ cached m r = Some t.
Proof. destruct x as [r|]; simpl; [eauto|done]. Qed.

Lemma writeResource_writes env object index separate dataUris extension
    options st st' o :
  lookup_ref object (gltf st) = Some o →
  writeResource env object index separate dataUris extension options st
    = (Resolved tt, st') →
  writes object o st separate dataUris st'.
Proof.
  intros Ho. unfold writeResource.
  destruct separate; [|destruct dataUris].
  - destruct (resourceId o ≫= cached (writtenResourceMap st)) as [t|] eqn:Hc.
    + apply bind_cached_Some in Hc as (r & Hr & Ht).
      rewrite (writeFile_cached _ _ _ _ _ _ _ _ Ho Hr Ht).
      intros [= <-]. by eapply writes_file_cached.
    + destruct (getRelativePath object index extension options st)
        as [[p|e|] st1] eqn:Hp.
      * rewrite (writeFile_fresh _ _ _ _ _ _ p Ho Hc) by (by rewrite Hp).
        intros [= <-]. by apply writes_file_fresh.
      * unfold writeFile. mstep. rewrite lookup_ref_alter_eq, Ho. simpl.
        rewrite Hc.
        pose proof (getRelativePath_alter (set_bufferView None) object index
                      extension options st object) as Ha.
        rewrite Hp in Ha. simpl in Ha.
        destruct (getRelativePath _ _ _ _ (with_gltf _ st)) as [res st2].
        simpl in Ha. rewrite Ha by done. done.
      * unfold writeFile. mstep. rewrite lookup_ref_alter_eq, Ho. simpl.
        rewrite Hc.
        pose proof (getRelativePath_alter (set_bufferView None) object index
                      extension options st object) as Ha.
        rewrite Hp in Ha. simpl in Ha.
        destruct (getRelativePath _ _ _ _ (with_gltf _ st)) as [res st2].
        simpl in Ha. rewrite Ha by done. done.
  - unfold writeDataUri. mstep. rewrite lookup_ref_alter_eq, Ho. simpl.
    destruct (source o); simpl; intros [= <-]; apply writes_dataUri.
  - destruct (resourceId o ≫= cached (writtenResourceMap st)) as [t|] eqn:Hc.
    + apply bind_cached_Some in Hc as (r & Hr & Ht).
      rewrite (writeBufferView_cached _ _ _ _ _ Ho Hr Ht).
      intros [= <-]. by eapply writes_view_cached.
    + destruct (bufferBytes (source o)) as [b|] eqn:Hb.
      * rewrite (writeBufferView_fresh _ _ _ b Ho Hc Hb).
        intros [= <-]. by apply writes_view_fresh.
      * unfold writeBufferView. mstep. rewrite lookup_ref_alter_eq, Ho. simpl.
        rewrite Hc. destruct (source o); simpl in *; done.
Qed.

Lemma writeResource_object env object index separate dataUris extension
    options st st' :
  writeResource env object index separate dataUris extension options st
    = (Resolved tt, st') →
  is_Some (lookup_ref object (gltf st)).
Proof.
  destruct (lookup_ref object (gltf st)) as [o|] eqn:Ho; [eauto|].
  unfold writeResource, writeFile, writeDataUri, writeBufferView.
  destruct separate; [|destruct dataUris]; mstep;
    rewrite lookup_ref_alter_eq, Ho; done.
Qed.

Lemma bufferViews_alter_ref f r g :
  bufferViews (alter_ref f r g) = bufferViews g.
Proof. by destruct r. Qed.

Lemma length_buffers_alter_ref f r g :
  length (buffers (alter_ref f r g)) = length (buffers g).
Proof. destruct r; simpl; try done. apply length_alter. Qed.

Lemma buffers_alter_ref_source f r g i :
  (∀ o, source (f o) = source o) →
  source <$> buffers (alter_ref f r g) !! i = source <$> buffers g !! i.
Proof.
  intros Hf. destruct r as [j| |]; simpl; try done.
  rewrite list_lookup_alter. case_decide; [subst|done].
  destruct (buffers g !! i); simpl; [|done]. by rewrite Hf.
Qed.

Lemma appendToPool_last b g :
  source <$> buffers (appendToPool b g) !! length (buffers g)
  = Some (SBuffer b).
Proof.
  simpl. rewrite lookup_app_r by lia. by rewrite Nat.sub_diag.
Qed.

(** ** Resources that share a [resourceId] *)

(** C1. Two shaders that share the [resourceId] ['constructor'], written
    by [writeResources] once to bufferViews and once to separate files.
    The [writtenResourceMap] starts as [{}], and already the first read
    of [writtenResourceMap['constructor']] finds a value, the constructor
    that every plain object inherits: both shaders take the branch for a
    resource written before. They end with the same target, but the
    target is that inherited function, and their bytes have been written
    nowhere: there is no buffer, no bufferView and no entry of the sink. *)
Theorem inherited_resourceId_never_written :
  let shader :=
    Sample.resource None (SString "void main(){}") (Some "constructor") in
  let g := with_shaders (fun _ => [shader; shader]) Sample.emptyGltf in
  let separate :=
    {| options_name := None; separateBuffers := None;
       separateTextures := None; separateShaders := Some true;
       dataUris := None; encodeBasis := false; basisQuality := None;
       basisLinear := false; decodeWebP := false;
       jpegCompressionRatio := None |} in
  let asViews :=
    writeResources Sample.env Sample.options (Sample.initial g None) in
  let asFiles :=
    writeResources Sample.env separate (Sample.initial g (Some ∅)) in
  cached ∅ "constructor" = Some (VInherited "constructor")
  ∧ asViews.1 = Resolved (gltf asViews.2)
  ∧ bufferView <$> shaders (gltf asViews.2)
    = [Some (VInherited "constructor"); Some (VInherited "constructor")]
  ∧ buffers (gltf asViews.2) = []
  ∧ bufferViews (gltf asViews.2) = []
  ∧ asFiles.1 = Resolved (gltf asFiles.2)
  ∧ uri <$> shaders (gltf asFiles.2)
    = [Some (VInherited "constructor"); Some (VInherited "constructor")]
  ∧ separateResources asFiles.2 = Some ∅.
Proof. vm_compute. done. Qed.

(** ** The transcode chain on two inputs *)

(** C3. An image whose bytes sniff as [.ktx2], with [encodeBasis]: the
    guard compares the extension with ['ktx2'], which no sniffed extension
    equals, so basisu is run on the KTX2 temp file all the same; the file
    is then deleted as the input of the stage, and the read-back of the
    next stage fails. *)
Theorem basisu_invoked_on_ktx2_image :
  let run := writeImage Sample.env (RImage 0) 0 Scenarios.basisOptions
               (Sample.initial (Scenarios.oneImage Sample.ktx2) None) in
  getImageExtension Sample.env Sample.ktx2 = ".ktx2"
  ∧ log run.2 =
      [EFsWriteFile "/tmp/image-uid0.ktx2";
       EExecBasisu false None "/tmp/image-uid0.ktx2" "/tmp";
       EFsReadFile "/tmp/image-uid0.ktx2";
       EFsUnlink "/tmp/image-uid0.ktx2";
       EFsReadFile "/tmp/image-uid0.ktx2";
       EConsoleError (SystemError "ENOENT" "/tmp/image-uid0.ktx2");
       EFsUnlink "/tmp/image-uid0.ktx2";
       EUncaughtException (SystemError "ENOENT" "/tmp/image-uid0.ktx2")]
  ∧ run.1 = Rejected (SystemError "ENOENT" "/tmp/image-uid0.ktx2").
Proof. vm_compute. done. Qed.

(** C4. A PNG image with [jpegCompressionRatio]: every tool succeeds and
    the chain resolves, the produced [.jpg] temp file is deleted, and the
    original [.png] temp file is still there. *)
Theorem jpeg_path_leaves_original_temp_file :
  let st := Sample.initial (Scenarios.oneImage Sample.png) None in
  let run := writeImage Sample.env (RImage 0) 0 Scenarios.jpegOptions st in
  files st = ∅
  ∧ run.1 = Resolved tt
  ∧ log run.2 =
      [EFsWriteFile "/tmp/image-uid0.png";
       EGmWrite 80 "/tmp/image-uid0.png" "/tmp/image-uid0.jpg";
       EFsReadFile "/tmp/image-uid0.jpg";
       EFsUnlink "/tmp/image-uid0.jpg";
       EConsoleFinalExtension ".jpg"]
  ∧ files run.2 !! "/tmp/image-uid0.jpg" = None
  ∧ files run.2 !! "/tmp/image-uid0.png" = Some Sample.png.
Proof. vm_compute. done. Qed.

(** ** The history of external effects *)

Lemma logged_refl P st st' : log st' = log st → logged P st st'.
Proof. intros H. exists []. by rewrite app_nil_r. Qed.

Lemma logged_trans P st1 st2 st3 :
  logged P st1 st2 → logged P st2 st3 → logged P st1 st3.
Proof.
  intros (e1 & H1 & F1) (e2 & H2 & F2). exists (e1 ++ e2).
  split; [by rewrite H2, H1, app_assoc|]. by apply Forall_app.
Qed.

Lemma logged_elem_of P st st' e :
  logged P st st' → e ∈ log st' → ¬ P e → e ∈ log st.
Proof.
  intros (evs & -> & HF) [H|H]%elem_of_app Hn; [done|].
  rewrite Forall_forall in HF. destruct (Hn (HF _ H)).
Qed.

Ltac logged_now :=
  eexists; split;
    [simpl; rewrite <- ?app_assoc; simpl; reflexivity
    |repeat first [apply Forall_nil_2 | apply Forall_cons_2]; auto].

(** [writeResource] and what it calls touch neither the file system, nor
    the history, nor the uid counter, nor [options.bufferStorage]. *)
Lemma writeResource_world env object index separate dataUris extension
    options st r st' :
  writeResource env object index separate dataUris extension options st
    = (r, st') →
  log st' = log st ∧ files st' = files st ∧ uuids st' = uuids st
  ∧ bufferStorage st' = bufferStorage st.
Proof.
  unfold writeResource. destruct separate; [|destruct dataUris].
  - unfold writeFile. mstep.
    destruct (lookup_ref object _) as [o|]; [|by intros [= <- <-]].
    destruct (resourceId o ≫= _); [by intros [= <- <-]|].
    match goal with |- context [getRelativePath ?a ?b ?c ?d ?s] =>
      pose proof (getRelativePath_state a b c d s) as Hs;
      destruct (getRelativePath a b c d s) as [[p|e'|] st1] end;
      simpl in Hs; subst st1;
      [destruct (resourceId o)| |]; by intros [= <- <-].
  - unfold writeDataUri. mstep.
    destruct (lookup_ref object _) as [o|]; [|by intros [= <- <-]].
    destruct (source o); by intros [= <- <-].
  - unfold writeBufferView. mstep.
    destruct (lookup_ref object _) as [o|]; [|by intros [= <- <-]].
    destruct (resourceId o ≫= _); [by intros [= <- <-]|].
    unfold addBuffer, throw.
    destruct (source o); simpl; try (by intros [= <- <-]);
      destruct (resourceId o); by intros [= <- <-].
Qed.

Section Logged.

Context (env : Env) (P : event → Prop).

Lemma writeImage_write_logged uid image options st r st' :
  (∀ p, P (EDWebpWrite p)) →
  (∀ p, P (EFsWriteFile p)) →
  (∀ e, P (EConsoleError e)) →
  writeImage_write env uid image options st = (r, st') →
  logged P st st'.
Proof.
  intros P1 P2 P3. unfold writeImage_write, sniff. mstep.
  destruct (lookup_ref image (gltf st)) as [o|];
    [|intros [= <- <-]; by apply logged_refl].
  destruct (source o); simpl;
    try (intros [= <- <-]; by apply logged_refl).
  unfold DWebp_write_file, fs_writeFile.
  repeat case_match; intros; simplify_eq; logged_now.
Qed.

Lemma writeImage_read_logged uid image extension st r st' :
  (∀ p, P (EFsReadFile p)) →
  (∀ p, P (EFsUnlink p)) →
  (∀ e, P (EConsoleError e)) →
  (∀ e, P (EUncaughtException e)) →
  writeImage_read env uid image extension st = (r, st') →
  logged P st st'.
Proof.
  intros P1 P2 P3 P4. unfold writeImage_read, fs_readFile, fs_unlinkSync.
  simpl. repeat case_match; intros; simplify_eq; logged_now.
Qed.

Lemma writeImage_finish_logged image i options st r st' :
  (∀ x, P (EConsoleFinalExtension x)) →
  writeImage_finish env image i options st = (r, st') →
  logged P st st'.
Proof.
  intros P1. unfold writeImage_finish, sniff, addExtensionsRequired. mstep.
  destruct (lookup_ref image (gltf st)) as [o|];
    [|intros [= <- <-]; by apply logged_refl].
  destruct (source o); simpl;
    try (intros [= <- <-]; by apply logged_refl).
  match goal with |- context [writeResource ?e ?a ?b ?c ?d ?x ?o ?s] =>
    pose proof (writeResource_world e a b c d x o s) as Hw;
    destruct (writeResource e a b c d x o s) as [res st1] end.
  destruct (Hw _ _ eq_refl) as (Hlog & _). simpl in Hlog.
  assert (logged P st st1) as Hst1.
  { eexists. split; [exact Hlog|]. by apply Forall_singleton. }
  destruct res; try (by intros [= <- <-]).
  repeat case_match; intros; unfold modify in *; simplify_eq;
    (eapply logged_trans; [exact Hst1|]); by apply logged_refl.
Qed.

(** The basisu branch of the encode stage runs no GraphicsMagick. *)
Lemma writeImage_encode_logged uid image options extension st r st' :
  encodeBasis options && negb (bool_decide (extension = "ktx2")) = true →
  (∀ l q a b, P (EExecBasisu l q a b)) →
  (∀ p, P (EFsReadFile p)) →
  (∀ p, P (EFsUnlink p)) →
  (∀ e, P (EConsoleError e)) →
  (∀ e, P (EUncaughtException e)) →
  writeImage_encode env uid image options extension st = (r, st') →
  logged P st st'.
Proof.
  intros Hb P1 P2 P3 P4 P5. unfold writeImage_encode. rewrite Hb.
  unfold exec_basisu, fs_readFile, fs_unlinkSync. simpl.
  repeat case_match; intros; simplify_eq; logged_now.
Qed.

End Logged.

(** The extension the first stage resolves with. *)
Lemma writeImage_write_extension env uid image options st o b extension st' :
  lookup_ref image (gltf st) = Some o →
  source o = SBuffer b →
  writeImage_write env uid image options st = (Resolved extension, st') →
  extension = ".png" ∨ extension = getImageExtension env b.
Proof.
  intros Ho Hs. unfold writeImage_write, sniff. mstep. rewrite Ho, Hs. simpl.
  unfold DWebp_write_file, fs_writeFile.
  repeat case_match; intros; simplify_eq; auto.
Qed.

(** The basisu branch starts by running basisu on the temp file. *)
Lemma writeImage_encode_runs_basisu env uid image options extension st r st' :
  encodeBasis options && negb (bool_decide (extension = "ktx2")) = true →
  writeImage_encode env uid image options extension st = (r, st') →
  ∃ quality rest,
    log st' = log st ++ EExecBasisu (basisLinear options) quality
                          (tmp_path env uid extension) (os_tmpdir env) :: rest.
Proof.
  intros Hb. unfold writeImage_encode. rewrite Hb.
  unfold exec_basisu, fs_readFile, fs_unlinkSync. simpl.
  repeat case_match; intros; simplify_eq; simpl; rewrite <- ?app_assoc; simpl;
    eauto.
Qed.

(** C5. With [encodeBasis] set, whatever [jpegCompressionRatio] is: for an
    image that takes the basisu branch (its sniffed extension is not the
    string ['ktx2']) the chain never runs GraphicsMagick, and once the
    first stage has resolved it has run basisu. *)
Theorem jpeg_dropped_when_basis_encodes env image i options st o b r st' :
  encodeBasis options = true →
  lookup_ref image (gltf st) = Some o →
  source o = SBuffer b →
  getImageExtension env b ≠ "ktx2" →
  writeImage env image i options st = (r, st') →
  (∀ quality input output,
     EGmWrite quality input output ∈ log st' →
     EGmWrite quality input output ∈ log st)
  ∧ (∀ extension st1,
       writeImage_write env (uuidv4 env (uuids st)) image options
         (with_uuids S st) = (Resolved extension, st1) →
       ∃ quality,
         EExecBasisu (basisLinear options) quality
           (tmp_path env (uuidv4 env (uuids st)) extension) (os_tmpdir env)
         ∈ log st').
Proof.
  intros Hbasis Ho Hs Hsniff Hrun.
  set (P := fun e => match e with EGmWrite _ _ _ => False | _ => True end).
  set (T := fun _ : event => True).
  unfold writeImage, fresh_uid in Hrun. unfold bind at 1 in Hrun.
  unfold bind at 1 in Hrun.
  destruct (writeImage_write env _ image options (with_uuids S st))
    as [r1 st1] eqn:H1.
  assert (logged P st st1 ∧ logged T st st1) as [L1 T1].
  { split; eapply logged_trans;
      try (eapply writeImage_write_logged; [| | |exact H1]; done);
      by apply logged_refl. }
  assert (∀ e, ¬ P e → ∀ s, logged P st s → e ∈ log s → e ∈ log st) as Hno.
  { intros e He s Hl Hin. by eapply logged_elem_of. }
  destruct r1 as [extension|e|]; cycle 1.
  { injection Hrun as <- <-. split; [|done].
    intros q a c Hin. by apply (Hno (EGmWrite q a c)) with st1; auto. }
  { injection Hrun as <- <-. split; [|done].
    intros q a c Hin. by apply (Hno (EGmWrite q a c)) with st1; auto. }
  assert (encodeBasis options
          && negb (bool_decide (extension = "ktx2")) = true) as Hbranch.
  { rewrite Hbasis. simpl. apply negb_true_iff, bool_decide_eq_false.
    destruct (writeImage_write_extension env _ image options
                (with_uuids S st) o b extension st1 Ho Hs H1)
      as [->| ->]; done. }
  unfold bind at 1 in Hrun.
  destruct (writeImage_encode env _ image options extension st1)
    as [r2 st2] eqn:H2.
  pose proof (writeImage_encode_logged env P _ _ _ _ _ _ _ Hbranch
                ltac:(done) ltac:(done) ltac:(done) ltac:(done)
                ltac:(done) H2) as L2.
  pose proof (writeImage_encode_logged env T _ _ _ _ _ _ _ Hbranch
                ltac:(done) ltac:(done) ltac:(done) ltac:(done)
                ltac:(done) H2) as T2.
  destruct (writeImage_encode_runs_basisu _ _ _ _ _ _ _ _ Hbranch H2)
    as (quality & rest & Hexec).
  assert (∀ s, logged T st2 s →
            EExecBasisu (basisLinear options) quality
              (tmp_path env (uuidv4 env (uuids st)) extension) (os_tmpdir env)
            ∈ log s) as Hyes.
  { intros s (evs & -> & _). rewrite Hexec.
    apply elem_of_app. left. apply elem_of_app. right. left. }
  assert (logged P st st' ∧ logged T st2 st') as [LF TF].
  { destruct r2 as [ext2|e|]; cycle 1.
    { injection Hrun as <- <-. split; [by eapply logged_trans|].
      by apply logged_refl. }
    { injection Hrun as <- <-. split; [by eapply logged_trans|].
      by apply logged_refl. }
    unfold bind at 1 in Hrun.
    destruct (writeImage_read env _ image ext2 st2) as [r3 st3] eqn:H3.
    pose proof (writeImage_read_logged env P _ _ _ _ _ _
                  ltac:(done) ltac:(done) ltac:(done) ltac:(done) H3) as L3.
    pose proof (writeImage_read_logged env T _ _ _ _ _ _
                  ltac:(done) ltac:(done) ltac:(done) ltac:(done) H3) as T3.
    destruct r3 as [[]|e|]; cycle 1.
    { injection Hrun as <- <-. split; [|done].
      eapply logged_trans; [|exact L3]. by eapply logged_trans. }
    { injection Hrun as <- <-. split; [|done].
      eapply logged_trans; [|exact L3]. by eapply logged_trans. }
    pose proof (writeImage_finish_logged env P _ _ _ _ _ _
                  ltac:(done) Hrun) as L4.
    pose proof (writeImage_finish_logged env T _ _ _ _ _ _
                  ltac:(done) Hrun) as T4.
    split; [|by eapply logged_trans].
    eapply logged_trans; [|exact L4].
    eapply logged_trans; [|exact L3]. by eapply logged_trans. }
  split.
  - intros q a c Hin. by apply (Hno (EGmWrite q a c)) with st'; auto.
  - intros ext' st1' H1'. assert (ext' = extension) as -> by congruence.
    exists quality. by apply Hyes.
Qed.

(** A PNG image with both options set. *)
Lemma jpeg_dropped_when_basis_encodes_witness :
  let st := Sample.initial (Scenarios.oneImage Sample.png) None in
  let run := writeImage Sample.env (RImage 0) 0 Scenarios.basisOptions st in
  jpegCompressionRatio Scenarios.basisOptions = Some 80
  ∧ (∀ quality input output,
       EGmWrite quality input output ∈ log run.2 →
       EGmWrite quality input output ∈ log st)
  ∧ (∀ extension st1,
       writeImage_write Sample.env (uuidv4 Sample.env (uuids st)) (RImage 0)
         Scenarios.basisOptions (with_uuids S st) = (Resolved extension, st1) →
       ∃ quality,
         EExecBasisu (basisLinear Scenarios.basisOptions) quality
           (tmp_path Sample.env (uuidv4 Sample.env (uuids st)) extension)
           (os_tmpdir Sample.env)
         ∈ log run.2).
Proof.
  intros st run. split; [reflexivity|].
  apply (jpeg_dropped_when_basis_encodes Sample.env (RImage 0) 0
           Scenarios.basisOptions st
           (Sample.resource None (SBuffer Sample.png) None) Sample.png
           run.1 run.2).
  - reflexivity.
  - reflexivity.
  - reflexivity.
  - vm_compute. discriminate.
  - subst run. by destruct (writeImage _ _ _ _ _).
Defined.

(** ** Failures of the transcode chain *)

Lemma forEachIndex_rejects handler i j k st stj e st' :
  forEachIndex handler i j st = (Resolved tt, stj) →
  handler (i + j) stj = (Rejected e, st') →
  forEachIndex handler i (j + S k) st = (Rejected e, st').
Proof.
  revert i st. induction j as [|j IH]; intros i st; simpl.
  - intros [= <-]. rewrite Nat.add_0_r. unfold bind. by intros ->.
  - unfold bind. destruct (handler i st) as [[[]|e1|] st1]; try done.
    intros Hj Hh. apply IH; [done|]. by rewrite Nat.add_succ_comm.
Qed.

(** C8. A failure of an external tool or of a temp-file operation in any
    stage makes the stage reject with that very error; a rejecting stage
    makes [writeImage] reject with the same error in the same state; and
    a rejecting image makes [writeResources] reject with the same error,
    in the state in which the chain stopped: the result carries no
    document and nothing is undone. *)
Theorem image_failure_rejects env options :
  (* the stages *)
  (∀ uid image st o b e,
     lookup_ref image (gltf st) = Some o →
     source o = SBuffer b →
     bool_decide (getImageExtension env b = ".webp") && decodeWebP options
       = true →
     DWebp_write env (log st) b = inl e →
     (writeImage_write env uid image options st).1 = Rejected e)
  ∧ (∀ uid image st o b e,
       lookup_ref image (gltf st) = Some o →
       source o = SBuffer b →
       bool_decide (getImageExtension env b = ".webp") && decodeWebP options
         = false →
       fs_writeFile_error env (log st)
         (tmp_path env uid (getImageExtension env b)) = Some e →
       (writeImage_write env uid image options st).1 = Rejected e)
  ∧ (∀ uid image extension st e,
       encodeBasis options && negb (bool_decide (extension = "ktx2")) = true →
       (exec_basisu env (basisLinear options)
          (if truthy_num (basisQuality options) then basisQuality options
           else None)
          (tmp_path env uid extension) (tmp_path env uid ".ktx2") st).1
         = Some e →
       (writeImage_encode env uid image options extension st).1 = Rejected e)
  ∧ (∀ uid image extension st st1 e,
       encodeBasis options && negb (bool_decide (extension = "ktx2")) = true →
       exec_basisu env (basisLinear options)
         (if truthy_num (basisQuality options) then basisQuality options
          else None)
         (tmp_path env uid extension) (tmp_path env uid ".ktx2") st
         = (None, st1) →
       (fs_readFile env (tmp_path env uid ".ktx2") st1).1 = inl e →
       (writeImage_encode env uid image options extension st).1 = Rejected e)
  ∧ (∀ uid image extension st quality e,
       encodeBasis options && negb (bool_decide (extension = "ktx2")) = false →
       jpegCompressionRatio options = Some (S quality) →
       gm_write env (log st) (S quality)
         (files st !! tmp_path env uid extension) = inl e →
       (writeImage_encode env uid image options extension st).1 = Rejected e)
  ∧ (∀ uid image extension st e,
       (fs_readFile env (tmp_path env uid extension) st).1 = inl e →
       (writeImage_read env uid image extension st).1 = Rejected e)
  (* the chain *)
  ∧ (∀ image i st e st',
       let uid := uuidv4 env (uuids st) in
       (writeImage_write env uid image options (with_uuids S st)
          = (Rejected e, st')
        ∨ ∃ extension st1,
            writeImage_write env uid image options (with_uuids S st)
              = (Resolved extension, st1)
            ∧ (writeImage_encode env uid image options extension st1
                 = (Rejected e, st')
               ∨ ∃ extension2 st2,
                   writeImage_encode env uid image options extension st1
                     = (Resolved extension2, st2)
                   ∧ (writeImage_read env uid image extension2 st2
                        = (Rejected e, st')
                      ∨ ∃ st3,
                          writeImage_read env uid image extension2 st2
                            = (Resolved tt, st3)
                          ∧ writeImage_finish env image i options st3
                            = (Rejected e, st')))) →
       writeImage env image i options st = (Rejected e, st'))
  (* the whole operation *)
  ∧ (∀ st j stj e st',
       forEachIndex (fun i => writeImage env (RImage i) i (withDefaults options))
         0 j (with_writtenResourceMap (fun _ => ∅) st) = (Resolved tt, stj) →
       (j < length (images (gltf st)))%nat →
       writeImage env (RImage j) j (withDefaults options) stj
         = (Rejected e, st') →
       writeResources env options st = (Rejected e, st')).
Proof.
  repeat split.
  - intros uid image st o b e Ho Hs Hw He.
    unfold writeImage_write, sniff. mstep. rewrite Ho, Hs. simpl. rewrite Hw.
    unfold DWebp_write_file. by rewrite He.
  - intros uid image st o b e Ho Hs Hw He.
    unfold writeImage_write, sniff. mstep. rewrite Ho, Hs. simpl. rewrite Hw.
    unfold fs_writeFile. by rewrite He.
  - intros uid image extension st e Hb He.
    unfold writeImage_encode. rewrite Hb.
    destruct (exec_basisu _ _ _ _ _ _) as [err st1]. simpl in He. subst err.
    unfold fs_readFile, fs_unlinkSync. simpl. repeat case_match; by simplify_eq.
  - intros uid image extension st st1 e Hb Hx He.
    unfold writeImage_encode. rewrite Hb, Hx.
    destruct (fs_readFile _ _ _) as [read st2]. simpl in He. subst read.
    unfold fs_unlinkSync. simpl. repeat case_match; by simplify_eq.
  - intros uid image extension st quality e Hb Hq He.
    unfold writeImage_encode. rewrite Hb, Hq.
    unfold gm_quality_write. by rewrite He.
  - intros uid image extension st e He.
    unfold writeImage_read.
    destruct (fs_readFile _ _ _) as [read st2]. simpl in He. subst read.
    unfold fs_unlinkSync. simpl. repeat case_match; by simplify_eq.
  - intros image i st e st' uid H. unfold writeImage, fresh_uid.
    unfold bind at 1. unfold bind at 1. fold uid.
    destruct H as [->|(extension & st1 & -> & H)]; [done|].
    unfold bind at 1.
    destruct H as [->|(extension2 & st2 & -> & H)]; [done|].
    unfold bind at 1.
    destruct H as [->|(st3 & -> & H)]; done.
  - intros st j stj e st' Hj Hlt He.
    unfold writeResources, ForEach_imageAsync. unfold bind at 1.
    unfold modify at 1. unfold bind at 1.
    change (gltf (with_writtenResourceMap (fun _ => ∅) st)) with (gltf st).
    replace (length (images (gltf st)))
      with (j + S (length (images (gltf st)) - S j)) by lia.
    by erewrite forEachIndex_rejects.
Qed.

(** Two images and a basisu that fails the second time: the operation
    rejects with basisu's error, and the first image keeps the bufferView
    it was given. *)
Lemma image_failure_rejects_witness :
  let st := Sample.initial Failing.twoImages None in
  let options := withDefaults Scenarios.basisOptions in
  let stj :=
    (forEachIndex (fun i => writeImage Failing.env (RImage i) i options) 0 1
       (with_writtenResourceMap (fun _ => ∅) st)).2 in
  let st' := (writeImage Failing.env (RImage 1) 1 options stj).2 in
  writeResources Failing.env Scenarios.basisOptions st
    = (Rejected Failing.basisuError, st')
  ∧ bufferView <$> images (gltf st') !! 0 = Some (Some (VNum 0))
  ∧ extensionsRequired (gltf st') = ["KHR_texture_basisu"].
Proof.
  intros st options stj st'.
  pose proof (image_failure_rejects Failing.env Scenarios.basisOptions)
    as (_ & _ & _ & _ & _ & _ & _ & Hall).
  split; [|split].
  - apply (Hall st 1 stj Failing.basisuError st').
    + vm_compute. reflexivity.
    + vm_compute. lia.
    + vm_compute. reflexivity.
  - vm_compute. reflexivity.
  - vm_compute. reflexivity.
Defined.

(** ** The stages of a chain that resolves *)

Lemma tmp_path_inj env uid : Inj (=) (=) (tmp_path env uid).
Proof.
  intros x y H. unfold tmp_path in H.
  by apply (inj (String.append (os_tmpdir env))),
     (inj (String.append "/image-")), (inj (String.append uid)) in H.
Qed.

Lemma writeImage_resolved env image i options st st' :
  writeImage env image i options st = (Resolved tt, st') →
  let uid := uuidv4 env (uuids st) in
  ∃ extension st1 extension2 st2 st3,
    writeImage_write env uid image options (with_uuids S st)
      = (Resolved extension, st1)
    ∧ writeImage_encode env uid image options extension st1
      = (Resolved extension2, st2)
    ∧ writeImage_read env uid image extension2 st2 = (Resolved tt, st3)
    ∧ writeImage_finish env image i options st3 = (Resolved tt, st').
Proof.
  intros H uid. unfold writeImage, fresh_uid in H.
  unfold bind at 1 in H. unfold bind at 1 in H. fold uid in H.
  destruct (writeImage_write _ _ _ _ _) as [[extension|?|] st1] eqn:H1;
    try done.
  unfold bind at 1 in H.
  destruct (writeImage_encode _ _ _ _ _ _) as [[extension2|?|] st2] eqn:H2;
    try done.
  unfold bind at 1 in H.
  destruct (writeImage_read _ _ _ _ _) as [[[]|?|] st3] eqn:H3; try done.
  by exists extension, st1, extension2, st2, st3.
Qed.

(** The first stage leaves one temp file and the document as it was. *)
Lemma writeImage_write_resolved env uid image options st extension st1 :
  writeImage_write env uid image options st = (Resolved extension, st1) →
  gltf st1 = gltf st
  ∧ ∃ data, files st1 = <[tmp_path env uid extension := data]> (files st).
Proof.
  unfold writeImage_write, sniff. mstep.
  destruct (lookup_ref image (gltf st)) as [o|]; [|done].
  destruct (source o); simpl; try done.
  unfold DWebp_write_file, fs_writeFile.
  repeat case_match; intros; simplify_eq; simpl; eauto.
Qed.

(** The basisu branch, when it resolves: the [.ktx2] file it has read is
    what basisu left or what was there before, the image holds these
    bytes, and the input file is gone. *)
Lemma writeImage_encode_basisu_resolved env uid image options extension st
    extension2 st2 :
  encodeBasis options && negb (bool_decide (extension = "ktx2")) = true →
  writeImage_encode env uid image options extension st
    = (Resolved extension2, st2) →
  extension2 = ".ktx2"
  ∧ files st2 !! tmp_path env uid extension = None
  ∧ ∃ data,
      gltf st2 = alter_ref (set_source (SBuffer data)) image (gltf st)
      ∧ (extension ≠ ".ktx2" →
         files st2 !! tmp_path env uid ".ktx2" = Some data
         ∧ (files st !! tmp_path env uid ".ktx2" = Some data
            ∨ ∃ history linear quality input error,
                basisu env history linear quality input = (error, Some data))).
Proof.
  intros Hb. unfold writeImage_encode. rewrite Hb.
  unfold exec_basisu, fs_readFile, fs_unlinkSync. simpl.
  repeat case_match; intros; simplify_eq; simpl in *; simplify_eq;
    (split; [done|]); (split; [by apply lookup_delete_eq|]);
    eexists; (split; [reflexivity|]); intros Hne;
    (assert (tmp_path env uid extension ≠ tmp_path env uid ".ktx2")
       by (intros ?%(inj (tmp_path env uid)); done));
    rewrite lookup_delete_ne by done;
    rewrite ?lookup_insert_eq in *; simplify_eq; eauto 10.
Qed.

(** The read-back stage, when it resolves. *)
Lemma writeImage_read_resolved env uid image extension st st3 :
  writeImage_read env uid image extension st = (Resolved tt, st3) →
  ∃ data,
    files st !! tmp_path env uid extension = Some data
    ∧ gltf st3 = alter_ref (set_source (SBuffer data)) image (gltf st)
    ∧ files st3 = delete (tmp_path env uid extension) (files st).
Proof.
  unfold writeImage_read, fs_readFile, fs_unlinkSync. simpl.
  repeat case_match; intros; simplify_eq; simpl in *; eauto.
Qed.

Lemma textures_alter_ref f r g : textures (alter_ref f r g) = textures g.
Proof. by destruct r. Qed.

Lemma extensionsRequired_alter_ref f r g :
  extensionsRequired (alter_ref f r g) = extensionsRequired g.
Proof. by destruct r. Qed.

Lemma same_textures_refl st : same_textures st st.
Proof. done. Qed.

Lemma same_textures_trans st1 st2 st3 :
  same_textures st1 st2 → same_textures st2 st3 → same_textures st1 st3.
Proof.
  intros (? & ? & ? & ?) (? & ? & ? & ?). repeat split; congruence.
Qed.

Lemma writes_same_textures object o st separate dataUris st' :
  writes object o st separate dataUris st' → same_textures st st'.
Proof.
  intros Hw. unfold same_textures.
  destruct Hw; try (destruct (resourceId o)); simpl;
    rewrite ?textures_alter_ref, ?extensionsRequired_alter_ref; simpl;
    rewrite ?textures_alter_ref, ?extensionsRequired_alter_ref; done.
Qed.

Lemma writeResource_same_textures env object index separate dataUris
    extension options st st' :
  writeResource env object index separate dataUris extension options st
    = (Resolved tt, st') →
  same_textures st st'.
Proof.
  intros H. destruct (writeResource_object _ _ _ _ _ _ _ _ _ H) as [o Ho].
  eapply writes_same_textures. by eapply writeResource_writes.
Qed.

Lemma writeBuffer_same_textures env buffer i options st st' :
  writeBuffer env buffer i options st = (Resolved tt, st') →
  same_textures st st'.
Proof.
  unfold writeBuffer. mstep. case_match.
  - unfold writeBufferStorage. mstep.
    repeat case_match; intros; by simplify_eq.
  - apply writeResource_same_textures.
Qed.

Lemma forEachIndex_invariant (R : state → state → Prop) handler :
  (∀ st, R st st) →
  (∀ st1 st2 st3, R st1 st2 → R st2 st3 → R st1 st3) →
  (∀ i st st', handler i st = (Resolved tt, st') → R st st') →
  ∀ count i st st',
    forEachIndex handler i count st = (Resolved tt, st') → R st st'.
Proof.
  intros Hrefl Htrans Hstep. induction count as [|count IH]; intros i st st'.
  - simpl. intros [= <-]. apply Hrefl.
  - simpl. unfold bind.
    destruct (handler i st) as [[[]|e|] st1] eqn:Hh; try done.
    intros H. eapply Htrans; [by eapply Hstep|by eapply IH].
Qed.

(** What [writeResources] has gone through when it resolves. *)
Lemma writeResources_resolved env options st g' st' :
  writeResources env options st = (Resolved g', st') →
  ∃ stI stS stB,
    ForEach_imageAsync
      (fun i => writeImage env (RImage i) i (withDefaults options))
      (with_writtenResourceMap (fun _ => ∅) st) = (Resolved tt, stI)
    ∧ ForEach_shader
        (fun i => writeShader env (RShader i) i (withDefaults options)) stI
      = (Resolved tt, stS)
    ∧ ForEach_buffer
        (fun i => writeBuffer env (RBuffer i) i (withDefaults options))
        (with_gltf (fun g => mergeBuffers env g (options_name options))
           (with_gltf (removeUnusedElements env) stS))
      = (Resolved tt, stB)
    ∧ st' = with_gltf (with_textures
                         (map (basisuTexture (withDefaults options)))) stB
    ∧ g' = gltf st'.
Proof.
  unfold writeResources. unfold bind at 1. unfold modify at 1.
  unfold bind at 1.
  destruct (ForEach_imageAsync _ _) as [[[]|?|] stI] eqn:HI; try done.
  unfold bind at 1.
  destruct (ForEach_shader _ _) as [[[]|?|] stS] eqn:HS; try done.
  unfold bind at 1. unfold modify at 1. unfold bind at 1. unfold modify at 1.
  unfold bind at 1.
  destruct (ForEach_buffer _ _) as [[[]|?|] stB] eqn:HB; try done.
  unfold bind, ForEach_texture, modify, gets. intros [= <- <-].
  exists stI, stS, stB. done.
Qed.

(** The last stage, when it resolves. *)
Lemma writeImage_finish_resolved env image i options st st' o data :
  lookup_ref image (gltf st) = Some o →
  source o = SBuffer data →
  writeImage_finish env image i options st = (Resolved tt, st') →
  log st' = log st ++ [EConsoleFinalExtension (getImageExtension env data)]
  ∧ files st' = files st
  ∧ textures (gltf st') = textures (gltf st)
  ∧ (getImageExtension env data = ".ktx2" →
     "KHR_texture_basisu" ∈ extensionsRequired (gltf st'))
  ∧ (∀ x, x ∈ extensionsRequired (gltf st) →
          x ∈ extensionsRequired (gltf st')).
Proof.
  intros Ho Hs. unfold writeImage_finish, sniff, addExtensionsRequired. mstep.
  rewrite Ho, Hs. simpl.
  destruct (writeResource _ _ _ _ _ _ _ _) as [[[]|?|] st1] eqn:Hw; try done.
  apply writeResource_same_textures in Hw as (Ht & Hx & Hl & Hf).
  simpl in Ht, Hx, Hl, Hf.
  repeat case_match; intros; unfold modify in *; simplify_eq; simpl;
    rewrite ?textures_alter_ref, ?extensionsRequired_alter_ref; simpl;
    rewrite ?Ht, ?Hx;
    repeat split; try done; intros;
    repeat case_bool_decide; try done;
    rewrite ?elem_of_app, ?list_elem_of_singleton; auto.
Qed.

(** C6. One image, [encodeBasis], and an operation that resolves. Given
    that basisu leaves KTX2 containers and that the two collaborator
    passes keep the textures and the required extensions: the final
    sniffed extension of the image is [.ktx2], the document requires
    [KHR_texture_basisu], and every texture has the extensions object
    [{KHR_texture_basisu: {source: texture.source}}]. *)
Theorem basis_encoded_document env options st o b g' st' :
  images (gltf st) = [o] →
  source o = SBuffer b →
  encodeBasis options = true →
  getImageExtension env b ≠ "ktx2" →
  (∀ history linear quality input error data,
     basisu env history linear quality input = (error, Some data) →
     getImageExtension env data = ".ktx2") →
  files st !! tmp_path env (uuidv4 env (uuids st)) ".ktx2" = None →
  (∀ g, textures (removeUnusedElements env g) = textures g
        ∧ extensionsRequired (removeUnusedElements env g)
          = extensionsRequired g) →
  (∀ g n, textures (mergeBuffers env g n) = textures g
          ∧ extensionsRequired (mergeBuffers env g n) = extensionsRequired g) →
  writeResources env options st = (Resolved g', st') →
  EConsoleFinalExtension ".ktx2" ∈ log st'
  ∧ "KHR_texture_basisu" ∈ extensionsRequired g'
  ∧ textures g' =
      (fun texture =>
         set_extensions
           (Some {[ "KHR_texture_basisu" :=
                      {| ext_source := tex_source texture |} ]})
           texture) <$> textures (gltf st).
Proof.
  intros Himg Hs Hbasis Hsniff Hktx2 Hfresh Hremove Hmerge Hrun.
  apply writeResources_resolved in Hrun as (stI & stS & stB & HI & HS & HB & -> & ->).
  (* the one image *)
  unfold ForEach_imageAsync in HI. simpl in HI. rewrite Himg in HI.
  simpl in HI. unfold bind, ret in HI.
  destruct (writeImage _ _ _ _ _) as [[[]|?|] stI'] eqn:Hw; try done.
  injection HI as <-.
  apply writeImage_resolved in Hw
    as (ext & st1 & ext2 & st2 & st3 & H1 & H2 & H3 & H4).
  simpl in H1, H2, H3.
  set (uid := uuidv4 env (uuids st)) in *.
  assert (lookup_ref (RImage 0) (gltf st) = Some o) as Ho
    by (simpl; by rewrite Himg).
  destruct (writeImage_write_extension env uid (RImage 0) _
              (with_uuids S (with_writtenResourceMap (fun _ => ∅) st))
              o b ext st1 Ho Hs H1) as [Hext|Hext].
  all: destruct (writeImage_write_resolved _ _ _ _ _ _ _ H1)
         as (Hg1 & data1 & Hf1); simpl in Hg1, Hf1.
  all: assert (encodeBasis (withDefaults options)
               && negb (bool_decide (ext = "ktx2")) = true) as Hbranch
         by (simpl; rewrite Hbasis; simpl;
             apply negb_true_iff, bool_decide_eq_false; by subst ext).
  all: destruct (writeImage_encode_basisu_resolved _ _ _ _ _ _ _ _ Hbranch H2)
         as (-> & Hgone & data & Hg2 & Hdata).
  all: destruct (writeImage_read_resolved _ _ _ _ _ _ H3)
         as (data3 & Hread & Hg3 & _).
  all: assert (ext ≠ ".ktx2") as Hne by (intros ->; congruence).
  all: destruct (Hdata Hne) as (Hfile & Horigin).
  all: assert (data3 = data) as -> by congruence.
  all: assert (getImageExtension env data = ".ktx2") as Hfinal.
  1,3: destruct Horigin as [Hstale|(? & ? & ? & ? & ? & Hb)];
         [|by eapply Hktx2].
  1,2: rewrite Hf1, lookup_insert_ne in Hstale
         by (intros ?%(inj (tmp_path env uid)); done); congruence.
  all: assert (lookup_ref (RImage 0) (gltf st3)
               = Some (set_source (SBuffer data)
                         (set_source (SBuffer data) o))) as Ho3
         by (rewrite Hg3, Hg2, Hg1; simpl; by rewrite Himg).
  all: destruct (writeImage_finish_resolved _ _ _ _ _ _ _ _ Ho3 eq_refl H4)
         as (Hlog & _ & Htex & Hreq & _).
  all: rewrite Hfinal in Hlog; specialize (Hreq Hfinal).
  all: assert (textures (gltf stI') = textures (gltf st)) as HtexI
         by (rewrite Htex, Hg3, Hg2, Hg1; simpl; by rewrite ?textures_alter_ref).
  (* the shaders, the collaborators, the buffers *)
  all: assert (same_textures stI' stS) as (HtS & HxS & HlS & _)
         by (eapply (forEachIndex_invariant same_textures);
               [apply same_textures_refl|apply same_textures_trans| |exact HS];
             intros ? ? ?; apply writeResource_same_textures).
  all: assert (same_textures
                 (with_gltf (fun g => mergeBuffers env g (options_name options))
                    (with_gltf (removeUnusedElements env) stS)) stB)
         as (HtB & HxB & HlB & _)
         by (eapply (forEachIndex_invariant same_textures);
               [apply same_textures_refl|apply same_textures_trans| |exact HB];
             intros ? ? ?; apply writeBuffer_same_textures).
  all: simpl in HtB, HxB, HlB.
  all: destruct (Hmerge (removeUnusedElements env (gltf stS))
                   (options_name options)) as (HtM & HxM).
  all: destruct (Hremove (gltf stS)) as (HtR & HxR).
  all: simpl; split; [|split].
  all: try (rewrite HlB, HlS, Hlog; apply elem_of_app; right; left).
  all: try (by rewrite HxB, HxM, HxR, HxS).
  all: rewrite HtB, HtM, HtR, HtS, HtexI; apply list_fmap_ext;
       intros ? texture _; unfold basisuTexture; simpl; by rewrite Hbasis.
Qed.

(** One PNG image and one texture, with tools that work. *)
Lemma basis_encoded_document_witness :
  let st := Sample.initial (Scenarios.oneImage Sample.png) None in
  let st' := (writeResources Sample.env Scenarios.basisOptions st).2 in
  EConsoleFinalExtension ".ktx2" ∈ log st'
  ∧ "KHR_texture_basisu" ∈ extensionsRequired (gltf st')
  ∧ textures (gltf st') =
      (fun texture =>
         set_extensions
           (Some {[ "KHR_texture_basisu" :=
                      {| ext_source := tex_source texture |} ]})
           texture) <$> textures (gltf st).
Proof.
  intros st st'.
  apply (basis_encoded_document Sample.env Scenarios.basisOptions st
           (Sample.resource None (SBuffer Sample.png) None) Sample.png
           (gltf st') st').
  - reflexivity.
  - reflexivity.
  - reflexivity.
  - vm_compute. discriminate.
  - intros history linear quality [input|] error data; simpl;
      intros [= <- <-]. reflexivity.
  - vm_compute. reflexivity.
  - done.
  - done.
  - vm_compute. reflexivity.
Defined.

(** ** Buffers collected in [options.bufferStorage] *)

Lemma with_bufferStorage_same st x :
  bufferStorage st = x → with_bufferStorage (fun _ => x) st = st.
Proof. intros <-. by destruct st. Qed.

Lemma storeAll_concat combined bs :
  storeAll combined bs =
  match bs with
  | [] => combined
  | _ => Some (defaultValue combined [] ++ mjoin (bufferOf ∘ source <$> bs))
  end.
Proof.
  unfold storeAll. revert combined.
  induction bs as [|o bs IH]; intros combined; [done|].
  simpl. rewrite IH. destruct bs as [|o' bs]; simpl.
  - by rewrite app_nil_r.
  - by rewrite <- !app_assoc.
Qed.

Lemma writeBuffer_storage env i options st combined o b :
  bufferStorage st = Some combined →
  truthy (separateBuffers options) = false →
  buffers (gltf st) !! i = Some o →
  source o = SBuffer b →
  writeBuffer env (RBuffer i) i options st =
    (Resolved tt,
     with_bufferStorage
       (fun _ => Some (Some (defaultValue combined [] ++ b))) st).
Proof.
  intros Hst Hsep Ho Hs. unfold writeBuffer, writeBufferStorage. mstep.
  rewrite Hst, Hsep. simpl. rewrite Ho. simpl. by rewrite Hst, Hs.
Qed.

Lemma forEachIndex_storage env options count : ∀ i st combined,
  bufferStorage st = Some combined →
  truthy (separateBuffers options) = false →
  (∀ o, o ∈ buffers (gltf st) → ∃ b, source o = SBuffer b) →
  (i + count ≤ length (buffers (gltf st)))%nat →
  forEachIndex (fun i => writeBuffer env (RBuffer i) i options) i count st =
    (Resolved tt,
     with_bufferStorage
       (fun _ => Some (storeAll combined
                         (take count (drop i (buffers (gltf st)))))) st).
Proof.
  induction count as [|count IH]; intros i st combined Hst Hsep Hall Hlen.
  - simpl. unfold ret. by rewrite with_bufferStorage_same.
  - simpl. unfold bind.
    destruct (lookup_lt_is_Some_2 (buffers (gltf st)) i) as [o Ho]; [lia|].
    destruct (Hall o) as [b Hb]; [by eapply list_elem_of_lookup_2|].
    rewrite (writeBuffer_storage _ _ _ _ _ _ _ Hst Hsep Ho Hb).
    rewrite (IH (S i) _ (Some (defaultValue combined [] ++ b)));
      [|done|done|done|simpl; lia].
    simpl. rewrite (drop_S _ o i) by done. unfold storeAll. simpl.
    rewrite Hb. reflexivity.
Qed.

(** X1. With [options.bufferStorage] and without [separateBuffers], the
    buffer pass leaves every buffer object as it is and appends the bytes
    of the buffers, in document order, to [bufferStorage.buffer] (which
    stays undefined when there is no buffer). *)
Theorem buffer_pass_fills_bufferStorage env options st combined :
  bufferStorage st = Some combined →
  truthy (separateBuffers options) = false →
  (∀ o, o ∈ buffers (gltf st) → ∃ b, source o = SBuffer b) →
  ForEach_buffer (fun i => writeBuffer env (RBuffer i) i options) st =
    (Resolved tt,
     with_bufferStorage
       (fun _ =>
          Some match buffers (gltf st) with
               | [] => combined
               | bs => Some (defaultValue combined []
                             ++ mjoin (bufferOf ∘ source <$> bs))
               end) st).
Proof.
  intros Hst Hsep Hall. unfold ForEach_buffer.
  rewrite (forEachIndex_storage _ _ _ _ _ _ Hst Hsep Hall) by (simpl; lia).
  rewrite drop_0, firstn_all, storeAll_concat. by destruct (buffers (gltf st)).
Qed.

(** Two buffers collected into a storage that holds three bytes already. *)
Lemma buffer_pass_fills_bufferStorage_witness :
  let g := with_buffers
             (fun _ => [Sample.resource None (SBuffer Sample.png) None;
                        Sample.resource None (SBuffer Sample.jpg) None])
             Sample.emptyGltf in
  let st := with_bufferStorage (fun _ => Some (Some [x01; x02; x03]))
              (Sample.initial g None) in
  ForEach_buffer
    (fun i => writeBuffer Sample.env (RBuffer i) i Sample.options) st =
    (Resolved tt,
     with_bufferStorage
       (fun _ => Some (Some ([x01; x02; x03] ++ Sample.png ++ Sample.jpg)))
       st).
Proof.
  intros g st.
  apply (buffer_pass_fills_bufferStorage Sample.env Sample.options st
           (Some [x01; x02; x03])).
  - reflexivity.
  - reflexivity.
  - intros o Ho. apply list_elem_of_In in Ho.
    destruct Ho as [<-|[<-|[]]]; eexists; reflexivity.
Defined.

(** X2. With [separateBuffers], [options.bufferStorage] is never touched,
    configured or not: the buffer goes to [writeFile], and when that
    returns the buffer holds a [uri] and no [bufferView]. *)
Theorem separateBuffers_bypasses_bufferStorage env buffer i options st r st' :
  truthy (separateBuffers options) = true →
  writeBuffer env buffer i options st = (r, st') →
  writeBuffer env buffer i options st = writeFile buffer i ".bin" options st
  ∧ bufferStorage st' = bufferStorage st
  ∧ (r = Resolved tt →
     ∃ o', lookup_ref buffer (gltf st') = Some o'
           ∧ is_Some (uri o') ∧ bufferView o' = None).
Proof.
  intros Hsep Hrun. split; [by apply writeBuffer_separate|].
  rewrite writeBuffer_separate in Hrun by done.
  change (writeFile buffer i ".bin" options st)
    with (writeResource env buffer i true true ".bin" options st) in Hrun.
  split; [by apply (writeResource_world _ _ _ _ _ _ _ _ _ _ Hrun)|].
  intros ->.
  destruct (writeResource_object _ _ _ _ _ _ _ _ _ Hrun) as [o Ho].
  pose proof (writeResource_writes _ _ _ _ _ _ _ _ _ _ Ho Hrun) as Hw.
  inversion Hw; subst; try (destruct (resourceId o)); simpl;
    rewrite !lookup_ref_alter_eq, Ho; eauto.
Qed.

(** A buffer written to the sink while a storage is configured. *)
Lemma separateBuffers_bypasses_bufferStorage_witness :
  let g := with_buffers
             (fun _ => [Sample.resource None (SBuffer Sample.png) None])
             Sample.emptyGltf in
  let st := with_bufferStorage (fun _ => Some None)
              (Sample.initial g (Some ∅)) in
  let options :=
    {| options_name := None; separateBuffers := Some true;
       separateTextures := None; separateShaders := None; dataUris := None;
       encodeBasis := false; basisQuality := None; basisLinear := false;
       decodeWebP := false; jpegCompressionRatio := None |} in
  let run := writeBuffer Sample.env (RBuffer 0) 0 options st in
  writeBuffer Sample.env (RBuffer 0) 0 options st
    = writeFile (RBuffer 0) 0 ".bin" options st
  ∧ bufferStorage run.2 = Some None
  ∧ (run.1 = Resolved tt →
     ∃ o', lookup_ref (RBuffer 0) (gltf run.2) = Some o'
           ∧ is_Some (uri o') ∧ bufferView o' = None).
Proof.
  intros g st options run.
  apply (separateBuffers_bypasses_bufferStorage Sample.env (RBuffer 0) 0
           options st run.1 run.2).
  - reflexivity.
  - subst run. by destruct (writeBuffer _ _ _ _ _).
Defined.

(** ** Passes that write data URIs *)

Lemma writeDataUri_alter env object extension st o :
  lookup_ref object (gltf st) = Some o →
  source o ≠ SUndefined →
  writeDataUri env object extension st =
    (Resolved tt, with_gltf (alter_ref (asDataUri env extension) object) st).
Proof.
  intros Ho Hs. unfold writeDataUri. mstep.
  rewrite lookup_ref_alter_eq, Ho. simpl.
  assert (∀ u, with_gltf (alter_ref (set_uri (Some (VStr
                 ("data:" +:+ string_of_nullable (mime_getType env extension)
                    +:+ ";base64," +:+ u)))) object)
                 (with_gltf (alter_ref (set_bufferView None) object) st)
               = with_gltf (alter_ref (fun o' => set_uri (Some (VStr
                   ("data:" +:+ string_of_nullable (mime_getType env extension)
                      +:+ ";base64," +:+ u))) (set_bufferView None o')) object)
                   st) as Hcompose.
  { intros u. unfold with_gltf. simpl. f_equal.
    destruct object; simpl; unfold with_buffers, with_images, with_shaders;
      simpl; f_equal; by rewrite list_alter_alter_eq. }
  assert (∀ u, u = toString_base64 (source o) →
               with_gltf (alter_ref (fun o' => set_uri (Some (VStr
                   ("data:" +:+ string_of_nullable (mime_getType env extension)
                      +:+ ";base64," +:+ u))) (set_bufferView None o')) object)
                   st
               = with_gltf (alter_ref (asDataUri env extension) object) st)
    as Hext.
  { intros u ->. unfold with_gltf. f_equal.
    destruct object as [i|i|i]; simpl in *;
      unfold with_buffers, with_images, with_shaders; simpl; f_equal;
      (apply list_alter_ext; [|done]); intros o' Ho'; simpl in *;
      by simplify_eq. }
  rewrite <- (Hext _ eq_refl), <- Hcompose.
  by destruct (source o).
Qed.

Lemma lookup_foldl_alter {A} (f : A → A) count : ∀ i (l : list A) k,
  foldl (fun acc j => alter f j acc) l (seq i count) !! k =
  if bool_decide (i ≤ k < i + count)%nat then f <$> l !! k else l !! k.
Proof.
  induction count as [|count IH]; intros i l k; simpl.
  - case_bool_decide; [lia|done].
  - rewrite IH, list_lookup_alter.
    repeat case_bool_decide; repeat case_decide; subst; try lia; done.
Qed.

Lemma foldl_alter_all {A} (f : A → A) (l : list A) :
  foldl (fun acc j => alter f j acc) l (seq 0 (length l)) = f <$> l.
Proof.
  apply list_eq. intros k. rewrite lookup_foldl_alter, list_lookup_fmap.
  case_bool_decide; [done|].
  rewrite lookup_ge_None_2 by lia. done.
Qed.

Lemma forEachIndex_data_uris env options count : ∀ i st,
  bufferStorage st = None →
  truthy (separateBuffers options) = false →
  (∀ o, o ∈ buffers (gltf st) → source o ≠ SUndefined) →
  (i + count ≤ length (buffers (gltf st)))%nat →
  forEachIndex (fun i => writeBuffer env (RBuffer i) i options) i count st =
    (Resolved tt,
     with_gltf (with_buffers
                  (fun l => foldl (fun acc j => alter (asDataUri env ".bin") j acc)
                              l (seq i count))) st).
Proof.
  induction count as [|count IH]; intros i st Hst Hsep Hall Hlen.
  - simpl. unfold ret. f_equal. by destruct st as [[] ? ? ? ? ? ?].
  - simpl. unfold bind.
    destruct (lookup_lt_is_Some_2 (buffers (gltf st)) i) as [o Ho]; [lia|].
    assert (writeBuffer env (RBuffer i) i options st =
            (Resolved tt,
             with_gltf (alter_ref (asDataUri env ".bin") (RBuffer i)) st))
      as ->.
    { unfold writeBuffer, writeResource. mstep. rewrite Hst, Hsep. simpl.
      apply (writeDataUri_alter _ _ _ _ o); [done|]. apply Hall.
      by eapply list_elem_of_lookup_2. }
    rewrite IH; [done|done|done| |].
    + simpl. intros o' [k Hk]%list_elem_of_lookup.
      rewrite list_lookup_alter in Hk. case_decide; [subst k|].
      * rewrite Ho in Hk. simpl in Hk. injection Hk as <-. simpl.
        apply Hall. by eapply list_elem_of_lookup_2.
      * apply Hall. by eapply list_elem_of_lookup_2.
    + simpl. rewrite length_alter. lia.
Qed.

(** X3. Without [separateBuffers] and without [options.bufferStorage] the
    buffer pass returns normally and turns every buffer into its data
    URI, [data:<mime of .bin>;base64,<bytes>], with no [bufferView];
    nothing else of the state changes. *)
Theorem buffer_pass_data_uris env options st :
  bufferStorage st = None →
  truthy (separateBuffers options) = false →
  (∀ o, o ∈ buffers (gltf st) → source o ≠ SUndefined) →
  ForEach_buffer (fun i => writeBuffer env (RBuffer i) i options) st =
    (Resolved tt,
     with_gltf (with_buffers (fmap (asDataUri env ".bin"))) st).
Proof.
  intros Hst Hsep Hall. unfold ForEach_buffer.
  rewrite forEachIndex_data_uris by (done || (simpl; lia)).
  f_equal. unfold with_gltf, with_buffers. simpl.
  by rewrite foldl_alter_all.
Qed.

(** Two buffers written with [dataUris] omitted. *)
Lemma buffer_pass_data_uris_witness :
  let g := with_buffers
             (fun _ => [Sample.resource None (SBuffer Sample.png) None;
                        Sample.resource None (SBuffer Sample.jpg) None])
             Sample.emptyGltf in
  let st := Sample.initial g None in
  ForEach_buffer
    (fun i => writeBuffer Sample.env (RBuffer i) i Sample.options) st =
    (Resolved tt,
     with_gltf (with_buffers (fmap (asDataUri Sample.env ".bin"))) st).
Proof.
  intros g st.
  apply (buffer_pass_data_uris Sample.env Sample.options st).
  - reflexivity.
  - reflexivity.
  - intros o Ho. apply list_elem_of_In in Ho.
    destruct Ho as [<-|[<-|[]]]; discriminate.
Defined.

(** ** The data-URI path *)

(** X4. The data-URI path neither reads nor writes the
    [writtenResourceMap]: whatever the map holds, the object gets the data
    URI of its own source and nothing else changes. A [Buffer] source is
    base64-encoded; a string source is appended as it is, since
    [toString] of a string ignores its argument. *)
Theorem data_uri_path_ignores_cache env object index extension options st o :
  lookup_ref object (gltf st) = Some o →
  source o ≠ SUndefined →
  writeResource env object index false true extension options st =
    (Resolved tt, with_gltf (alter_ref (asDataUri env extension) object) st).
Proof. intros Ho Hs. by apply writeDataUri_alter with o. Qed.

(** A shader with a string source whose identity is already in the map. *)
Lemma data_uri_path_ignores_cache_witness :
  let shader := Sample.resource None (SString "void main(){}") (Some "id") in
  let g := with_shaders (fun _ => [shader]) Sample.emptyGltf in
  let st := with_writtenResourceMap (fun _ => {[ "id" := VNum 3 ]})
              (Sample.initial g None) in
  let run := writeResource Sample.env (RShader 0) 0 false true ".glsl"
               Sample.options st in
  run = (Resolved tt,
         with_gltf (alter_ref (asDataUri Sample.env ".glsl") (RShader 0)) st)
  ∧ uri <$> lookup_ref (RShader 0) (gltf run.2)
    = Some (Some (VStr "data:text/plain;base64,void main(){}"))
  ∧ writtenResourceMap run.2 = {[ "id" := VNum 3 ]}.
Proof.
  intros shader g st run.
  pose proof (data_uri_path_ignores_cache Sample.env (RShader 0) 0 ".glsl"
                Sample.options st shader eq_refl ltac:(discriminate)) as H.
  split; [exact H|]. subst run. rewrite H. split; reflexivity.
Defined.

(** ** Shaders and their programs *)

Lemma ForEach_program_first shaderIndex ps : ∀ base,
  match ForEach_program
          (fun program index =>
             if bool_decide (fragmentShader program = Some shaderIndex)
                || bool_decide (vertexShader program = Some shaderIndex)
             then Some (program, index) else None) ps base with
  | Some (p, k) =>
      ∃ j, k = (base + j)%nat ∧ ps !! j = Some p ∧ references p shaderIndex
           ∧ ∀ j' p', (j' < j)%nat → ps !! j' = Some p' →
                      ¬ references p' shaderIndex
  | None => ∀ j p, ps !! j = Some p → ¬ references p shaderIndex
  end.
Proof.
  induction ps as [|p ps IH]; intros base; simpl.
  - intros j p. by rewrite lookup_nil.
  - destruct (bool_decide _ || bool_decide _) eqn:Hb.
    + exists 0. split; [lia|]. split; [done|]. split; [|intros; lia].
      apply orb_true_iff in Hb as [Hb|Hb]; apply bool_decide_eq_true in Hb;
        [by left|by right].
    + assert (¬ references p shaderIndex) as Hp.
      { apply orb_false_iff in Hb as [H1 H2].
        apply bool_decide_eq_false in H1, H2. by intros [?|?]. }
      specialize (IH (S base)).
      destruct (ForEach_program _ ps (S base)) as [[q k]|].
      * destruct IH as (j & -> & Hj & Hr & Hfirst).
        exists (S j). split; [lia|]. split; [done|]. split; [done|].
        intros [|j'] p' Hlt Hp'; simpl in Hp'; [by simplify_eq|].
        apply (Hfirst j' p'); [lia|done].
      * intros [|j] q Hq; simpl in Hq; [by simplify_eq|]. by eapply IH.
Qed.

(** X5. [getProgram] returns the first program, in document order, one of
    whose two shader slots holds the index, together with its index; it
    returns nothing exactly when no program refers to the shader. *)
Theorem getProgram_first_match g shaderIndex :
  match getProgram g shaderIndex with
  | Some (p, k) =>
      programs g !! k = Some p ∧ references p shaderIndex
      ∧ ∀ k' p', (k' < k)%nat → programs g !! k' = Some p' →
                 ¬ references p' shaderIndex
  | None => ∀ k p, programs g !! k = Some p → ¬ references p shaderIndex
  end.
Proof.
  unfold getProgram.
  pose proof (ForEach_program_first shaderIndex (programs g) 0) as H.
  destruct (ForEach_program _ _ _) as [[p k]|]; [|done].
  destruct H as (j & -> & ? & ? & ?). done.
Qed.

Lemma getName_shader object index options st o p k :
  lookup_ref object (gltf st) = Some o →
  name o = None →
  getProgram (gltf st) index = Some (p, k) →
  getName object index ".glsl" options st
    = (Resolved (shaderName options o p k), st).
Proof.
  intros Ho Hn Hp. unfold getName, shaderName. mstep.
  rewrite Ho, Hn. simpl. rewrite Hp. simpl.
  destruct (prog_name p), (options_name options); done.
Qed.

(** X6. An unnamed shader written as a separate file is named after the
    first program that refers to it: the program's name and [FS] or [VS];
    for an unnamed program the document name, the stage and the program's
    index; with no document name the lower-cased stage and the index.
    When [name.glsl] is free the sink gets the source under that path. *)
Theorem shader_named_after_program env shader i options st o sink p k :
  lookup_ref shader (gltf st) = Some o →
  name o = None →
  relativePath o = None →
  resourceId o = None →
  truthy (separateShaders options) = true →
  separateResources st = Some sink →
  getProgram (gltf st) i = Some (p, k) →
  sink_defined sink (shaderName options o p k +:+ ".glsl") = false →
  ∃ st',
    writeShader env shader i options st = (Resolved tt, st')
    ∧ uri <$> lookup_ref shader (gltf st')
      = Some (Some (VStr (shaderName options o p k +:+ ".glsl")))
    ∧ separateResources st'
      = Some (<[shaderName options o p k +:+ ".glsl" := source o]> sink).
Proof.
  intros Ho Hn Hrel Hid Hsep Hsink Hp Hfree.
  unfold writeShader, writeResource. rewrite Hsep.
  assert ((getRelativePath shader i ".glsl" options st).1
          = Resolved (shaderName options o p k +:+ ".glsl")) as Hpath.
  { erewrite (getRelativePath_at 0); eauto using getName_shader.
    intros j Hj. lia. }
  rewrite (writeFile_fresh _ _ _ _ _ _ _ Ho ltac:(by rewrite Hid) Hpath).
  rewrite Hid. eexists. split; [done|]. simpl.
  rewrite !lookup_ref_alter_eq, Ho, Hsink. simpl.
  by rewrite (sink_assign_free _ _ _ Hfree).
Qed.

(** The fragment shader of the program [main]. *)
Lemma shader_named_after_program_witness :
  let shader :=
    {| name := None; uri := None; bufferView := None; mimeType := None;
       type := Some FRAGMENT_SHADER; byteLength := None;
       source := SString "void main(){}"; resourceId := None;
       relativePath := None |} in
  let program := {| prog_name := Some "main"; fragmentShader := Some 0;
                    vertexShader := Some 1 |} in
  let g :=
    {| buffers := []; bufferViews := []; images := []; shaders := [shader];
       textures := []; programs := [program]; extensionsRequired := [] |} in
  let st := Sample.initial g (Some ∅) in
  let options :=
    {| options_name := None; separateBuffers := None;
       separateTextures := None; separateShaders := Some true;
       dataUris := None; encodeBasis := false; basisQuality := None;
       basisLinear := false; decodeWebP := false;
       jpegCompressionRatio := None |} in
  ∃ st',
    writeShader Sample.env (RShader 0) 0 options st = (Resolved tt, st')
    ∧ uri <$> lookup_ref (RShader 0) (gltf st')
      = Some (Some (VStr "mainFS.glsl"))
    ∧ separateResources st'
      = Some (<["mainFS.glsl" := SString "void main(){}"]> ∅).
Proof.
  intros shader program g st options.
  apply (shader_named_after_program Sample.env (RShader 0) 0 options st
           shader ∅ program 0); reflexivity.
Defined.

(** X7. An unnamed shader that no program refers to cannot be written as
    a separate file: [getName] reads [programInfo.program] of [undefined].
    The call throws a [TypeError] after [bufferView] has been deleted. *)
Theorem orphan_shader_throws env shader i options st o :
  lookup_ref shader (gltf st) = Some o →
  name o = None →
  relativePath o = None →
  resourceId o ≫= cached (writtenResourceMap st) = None →
  truthy (separateShaders options) = true →
  (∀ k p, programs (gltf st) !! k = Some p → ¬ references p i) →
  ∃ msg,
    writeShader env shader i options st =
      (Rejected (TypeError msg),
       with_gltf (alter_ref (set_bufferView None) shader) st).
Proof.
  intros Ho Hn Hrel Hc Hsep Hnone.
  assert (getProgram (gltf st) i = None) as Hp.
  { unfold getProgram.
    pose proof (ForEach_program_first i (programs (gltf st)) 0) as H.
    destruct (ForEach_program _ _ _) as [[p k]|]; [|done].
    destruct H as (j & -> & Hk & Hr & _). destruct (Hnone _ _ Hk Hr). }
  unfold writeShader, writeResource, writeFile. rewrite Hsep. mstep.
  rewrite lookup_ref_alter_eq, Ho. simpl. rewrite Hc.
  unfold getRelativePath. mstep. rewrite lookup_ref_alter_eq, Ho. simpl.
  rewrite Hrel. unfold getName. mstep. rewrite lookup_ref_alter_eq, Ho. simpl.
  rewrite Hn. simpl. unfold getProgram in *.
  rewrite programs_alter_ref, Hp. eauto.
Qed.

(** A shader in a document without programs. *)
Lemma orphan_shader_throws_witness :
  let shader := Sample.resource None (SString "void main(){}") None in
  let g := with_shaders (fun _ => [shader]) Sample.emptyGltf in
  let st := Sample.initial g (Some ∅) in
  let options :=
    {| options_name := None; separateBuffers := None;
       separateTextures := None; separateShaders := Some true;
       dataUris := None; encodeBasis := false; basisQuality := None;
       basisLinear := false; decodeWebP := false;
       jpegCompressionRatio := None |} in
  ∃ msg,
    writeShader Sample.env (RShader 0) 0 options st =
      (Rejected (TypeError msg),
       with_gltf (alter_ref (set_bufferView None) (RShader 0)) st).
Proof.
  intros shader g st options.
  apply (orphan_shader_throws Sample.env (RShader 0) 0 options st shader);
    try reflexivity.
  intros k p Hk. simpl in Hk. by rewrite lookup_nil in Hk.
Defined.

(** ** Names and paths *)

(** X8. Unnamed buffers, and unnamed images, of one document get pairwise
    different names: for two unnamed objects at different indices and the
    same extension other than [.glsl], [getName] never returns the same
    name. *)
Theorem default_names_distinct a b i j extension options st oa ob na nb :
  lookup_ref a (gltf st) = Some oa →
  lookup_ref b (gltf st) = Some ob →
  name oa = None →
  name ob = None →
  extension ≠ ".glsl" →
  i ≠ j →
  getName a i extension options st = (Resolved na, st) →
  getName b j extension options st = (Resolved nb, st) →
  na ≠ nb.
Proof.
  intros Ha Hb Hna Hnb Hext Hij. unfold getName. mstep.
  rewrite Ha, Hb, Hna, Hnb.
  rewrite (bool_decide_eq_false_2 (extension = ".glsl")) by done.
  destruct (bool_decide (extension = ".bin")), (options_name options);
    intros [= <-] [= <-] Heq;
    apply (inj (String.append _)), (inj pretty) in Heq; done.
Qed.

(** Images 3 and 4 of a document called [scene]. *)
Lemma default_names_distinct_witness :
  let image := Sample.resource None (SBuffer Sample.png) None in
  let g := with_images (fun _ => [image; image; image; image; image])
             Sample.emptyGltf in
  let st := Sample.initial g None in
  let options :=
    {| options_name := Some "scene"; separateBuffers := None;
       separateTextures := None; separateShaders := None; dataUris := None;
       encodeBasis := false; basisQuality := None; basisLinear := false;
       decodeWebP := false; jpegCompressionRatio := None |} in
  "scene3" ≠ "scene4".
Proof.
  intros image g st options.
  apply (default_names_distinct (RImage 3) (RImage 4) 3 4 ".png" options st
           image image "scene3" "scene4"); try reflexivity; done.
Defined.

Lemma replace_backslashes_clean s :
  "\"%char ∉ String.list_ascii_of_string (replace_backslashes s).
Proof.
  induction s as [|c s IH]; simpl; [apply not_elem_of_nil|].
  apply not_elem_of_cons. split; [|done].
  destruct (Ascii.eqb c "\") eqn:Hc; [done|].
  by apply Ascii.eqb_neq in Hc.
Qed.

(** X9. An explicit relative path is used as it is, with every backslash
    turned into a slash: no collision check is made and no suffix is
    added, so an entry of the sink under that path is overwritten. The one
    path that may name no entry is [__proto__]: unless the sink has an own
    property of that name, the assignment creates none and the sink stays
    as it is, while [uri] is set to the path all the same. *)
Theorem explicit_relative_path_overwrites env object index dataUris extension
    options st o p sink :
  let path := replace_backslashes p in
  lookup_ref object (gltf st) = Some o →
  relativePath o = Some p →
  resourceId o ≫= cached (writtenResourceMap st) = None →
  separateResources st = Some sink →
  ∃ st',
    writeResource env object index true dataUris extension options st
      = (Resolved tt, st')
    ∧ uri <$> lookup_ref object (gltf st') = Some (Some (VStr path))
    ∧ (path ≠ "__proto__" ∨ is_Some (sink !! path) →
       separateResources st' = Some (<[path := source o]> sink))
    ∧ (path = "__proto__" → sink !! path = None →
       separateResources st' = Some sink)
    ∧ "\"%char ∉ String.list_ascii_of_string path.
Proof.
  intros path Ho Hrel Hc Hsink. unfold writeResource.
  assert ((getRelativePath object index extension options st).1
          = Resolved path) as Hpath.
  { unfold getRelativePath. mstep. by rewrite Ho, Hrel. }
  rewrite (writeFile_fresh _ _ _ _ _ _ _ Ho Hc Hpath).
  eexists. split; [done|].
  assert (separateResources
            (match resourceId o with
             | Some r => with_writtenResourceMap (insert r (VStr path))
             | None => fun st => st
             end
               (with_separateResources (fmap (sink_assign path (source o)))
                  (with_gltf (alter_ref (set_uri (Some (VStr path))) object)
                     (with_gltf (alter_ref (set_bufferView None) object) st))))
          = Some (sink_assign path (source o) sink)) as ->.
  { destruct (resourceId o); simpl; by rewrite Hsink. }
  split; [|split; [|split]].
  - destruct (resourceId o); simpl; by rewrite !lookup_ref_alter_eq, Ho.
  - intros [Hne|[s Hs]]; f_equal.
    + by apply sink_assign_ne.
    + unfold sink_assign. by rewrite Hs.
  - intros Heq Hnone. unfold sink_assign.
    by rewrite Hnone, bool_decide_eq_true_2.
  - apply replace_backslashes_clean.
Qed.

(** Two images with the same Windows-style path: the second replaces the
    sink entry of the first. *)
Lemma explicit_relative_path_overwrites_witness :
  let image (b : list byte) :=
    {| name := None; uri := None; bufferView := None; mimeType := None;
       type := None; byteLength := None; source := SBuffer b;
       resourceId := None; relativePath := Some "tex\wood.png" |} in
  let g := with_images (fun _ => [image Sample.png; image Sample.jpg])
             Sample.emptyGltf in
  let sink : gmap string sourceData :=
    {[ "tex/wood.png" := SBuffer Sample.png ]} in
  let st := Sample.initial g (Some sink) in
  ∃ st',
    writeResource Sample.env (RImage 1) 1 true false ".png" Sample.options st
      = (Resolved tt, st')
    ∧ uri <$> lookup_ref (RImage 1) (gltf st')
      = Some (Some (VStr "tex/wood.png"))
    ∧ separateResources st'
      = Some (<["tex/wood.png" := SBuffer Sample.jpg]> sink)
    ∧ "\"%char ∉ String.list_ascii_of_string "tex/wood.png".
Proof.
  intros image g sink st.
  destruct (explicit_relative_path_overwrites Sample.env (RImage 1) 1 false
              ".png" Sample.options st (image Sample.jpg) "tex\wood.png" sink)
    as (st' & Hrun & Huri & Hsink & _ & Hclean); try reflexivity.
  exists st'. split; [exact Hrun|]. split; [exact Huri|].
  split; [|exact Hclean]. apply Hsink. left. discriminate.
Defined.

(** X10. A path that [getRelativePath] derives from the name is never a
    defined key of the sink: when the call returns, the object's [uri] is
    a path that was free, the sink maps it to the object's source, and
    every other entry of the sink is as before. *)
Theorem derived_path_is_fresh env object index dataUris extension options
    st st' o sink :
  lookup_ref object (gltf st) = Some o →
  relativePath o = None →
  resourceId o ≫= cached (writtenResourceMap st) = None →
  separateResources st = Some sink →
  writeResource env object index true dataUris extension options st
    = (Resolved tt, st') →
  ∃ path,
    uri <$> lookup_ref object (gltf st') = Some (Some (VStr path))
    ∧ sink_defined sink path = false
    ∧ separateResources st' = Some (<[path := source o]> sink)
    ∧ ∀ other, other ≠ path →
        (defaultValue (separateResources st') ∅) !! other = sink !! other.
Proof.
  intros Ho Hrel Hc Hsink. unfold writeResource.
  destruct (getRelativePath object index extension options st)
    as [res st1] eqn:Hpath.
  pose proof (getName_state object index extension options st) as Hst.
  destruct (getName object index extension options st) as [[n|e|] st2] eqn:Hn;
    simpl in Hst; subst st2.
  - destruct (getRelativePath_resolves _ _ _ _ _ _ _ _ Ho Hrel Hsink Hn)
      as (k & Hk & Hfree & _).
    rewrite (writeFile_fresh _ _ _ _ _ _ (candidate n extension k) Ho Hc)
      by (by rewrite Hk).
    intros [= <-]. exists (candidate n extension k).
    destruct (resourceId o); simpl;
      rewrite !lookup_ref_alter_eq, Ho, Hsink; simpl;
      rewrite (sink_assign_free _ _ _ Hfree);
      (split; [done|]); (split; [done|]); (split; [done|]);
      intros other Hother; by rewrite lookup_insert_ne.
  - intros Hw. exfalso. revert Hw. unfold writeFile. mstep.
    rewrite lookup_ref_alter_eq, Ho. simpl. rewrite Hc.
    pose proof (getRelativePath_alter (set_bufferView None) object index
                  extension options st object ltac:(done)) as Ha.
    destruct (getRelativePath _ _ _ _ (with_gltf _ st)) as [res' st3].
    simpl in Ha. rewrite Ha.
    unfold getRelativePath. mstep. rewrite Ho, Hrel, Hn. done.
  - intros Hw. exfalso. revert Hw. unfold writeFile. mstep.
    rewrite lookup_ref_alter_eq, Ho. simpl. rewrite Hc.
    pose proof (getRelativePath_alter (set_bufferView None) object index
                  extension options st object ltac:(done)) as Ha.
    destruct (getRelativePath _ _ _ _ (with_gltf _ st)) as [res' st3].
    simpl in Ha. rewrite Ha.
    unfold getRelativePath. mstep. rewrite Ho, Hrel, Hn. done.
Qed.

(** An image named [wood] written to a sink that has [wood.png]. *)
Lemma derived_path_is_fresh_witness :
  let image := Sample.resource (Some "wood") (SBuffer Sample.jpg) None in
  let g := with_images (fun _ => [image]) Sample.emptyGltf in
  let sink : gmap string sourceData := {[ "wood.png" := SBuffer Sample.png ]} in
  let st := Sample.initial g (Some sink) in
  let st' := (writeResource Sample.env (RImage 0) 0 true false ".png"
                Sample.options st).2 in
  ∃ path,
    uri <$> lookup_ref (RImage 0) (gltf st') = Some (Some (VStr path))
    ∧ sink_defined sink path = false
    ∧ separateResources st' = Some (<[path := SBuffer Sample.jpg]> sink)
    ∧ ∀ other, other ≠ path →
        (defaultValue (separateResources st') ∅) !! other = sink !! other.
Proof.
  intros image g sink st st'.
  apply (derived_path_is_fresh Sample.env (RImage 0) 0 false ".png"
           Sample.options st st' image sink).
  - reflexivity.
  - reflexivity.
  - reflexivity.
  - reflexivity.
  - vm_compute. reflexivity.
Defined.

(** ** Chains without an encoder *)

Lemma alter_ref_id f r g o :
  lookup_ref r g = Some o → f o = o → alter_ref f r g = g.
Proof.
  intros Ho Hf.
  assert (∀ (l : list Resource) i, l !! i = Some o → alter f i l = l) as Hl.
  { intros l i Hi. apply list_eq. intros k. rewrite list_lookup_alter.
    case_decide; [subst|done]. by rewrite Hi; simpl; rewrite Hf. }
  destruct r, g; simpl in *; unfold with_buffers, with_images, with_shaders;
    simpl; f_equal; by apply Hl.
Qed.

Lemma set_source_same o s : source o = s → set_source s o = o.
Proof. intros <-. by destruct o. Qed.

Lemma writeImage_encode_nothing env uid image options extension st :
  encodeBasis options && negb (bool_decide (extension = "ktx2")) = false →
  truthy_num (jpegCompressionRatio options) = false →
  writeImage_encode env uid image options extension st
    = (Resolved extension, st).
Proof.
  intros Hb Hj. unfold writeImage_encode. rewrite Hb.
  by destruct (jpegCompressionRatio options) as [[|q]|].
Qed.

(** X11. An image that needs no decoding and no encoding makes a round
    trip through its temp file: when the file can be written and read,
    the chain reaches its last stage with the document as it was, the
    temp file deleted, and exactly a write, a read and an unlink of that
    file in the history. *)
Theorem passthrough_chain env image i options st o b :
  let uid := uuidv4 env (uuids st) in
  let path := tmp_path env uid (getImageExtension env b) in
  lookup_ref image (gltf st) = Some o →
  source o = SBuffer b →
  bool_decide (getImageExtension env b = ".webp") && decodeWebP options
    = false →
  encodeBasis options
    && negb (bool_decide (getImageExtension env b = "ktx2")) = false →
  truthy_num (jpegCompressionRatio options) = false →
  fs_writeFile_error env (log st) path = None →
  fs_readFile_error env (log st ++ [EFsWriteFile path]) path = None →
  writeImage env image i options st =
    writeImage_finish env image i options
      (with_files (delete path)
         (with_log (fun l => l ++ [EFsWriteFile path; EFsReadFile path;
                                   EFsUnlink path])
            (with_uuids S st))).
Proof.
  intros uid path Ho Hs Hwebp Hbasis Hjpeg Hwrite Hread.
  unfold writeImage, fresh_uid. unfold bind at 1. unfold bind at 1.
  fold uid.
  assert (writeImage_write env uid image options (with_uuids S st) =
          (Resolved (getImageExtension env b),
           with_files (insert path b)
             (emit (EFsWriteFile path) (with_uuids S st)))) as ->.
  { unfold writeImage_write, sniff. mstep. rewrite Ho, Hs. simpl.
    rewrite Hwebp. unfold fs_writeFile. simpl. fold path. by rewrite Hwrite. }
  unfold bind at 1. rewrite writeImage_encode_nothing by done.
  unfold bind at 1.
  assert (writeImage_read env uid image (getImageExtension env b)
            (with_files (insert path b)
               (emit (EFsWriteFile path) (with_uuids S st))) =
          (Resolved tt,
           with_files (delete path)
             (with_log (fun l => l ++ [EFsWriteFile path; EFsReadFile path;
                                       EFsUnlink path])
                (with_uuids S st)))) as ->; [|done].
  unfold writeImage_read, fs_readFile, fs_unlinkSync. simpl. fold path.
  rewrite Hread. simpl. rewrite lookup_insert_eq. simpl.
  rewrite lookup_insert_eq. simpl. f_equal.
  unfold with_files, with_log, with_uuids, with_gltf, emit. simpl.
  rewrite (alter_ref_id _ _ (gltf st) o) by (done || by apply set_source_same).
  f_equal; [apply delete_insert_eq|by rewrite <- !app_assoc].
Qed.

(** A PNG image and no option. *)
Lemma passthrough_chain_witness :
  let st := Sample.initial (Scenarios.oneImage Sample.png) None in
  writeImage Sample.env (RImage 0) 0 Sample.options st =
    writeImage_finish Sample.env (RImage 0) 0 Sample.options
      (with_files (delete "/tmp/image-uid0.png")
         (with_log (fun l => l ++ [EFsWriteFile "/tmp/image-uid0.png";
                                   EFsReadFile "/tmp/image-uid0.png";
                                   EFsUnlink "/tmp/image-uid0.png"])
            (with_uuids S st))).
Proof.
  intros st.
  apply (passthrough_chain Sample.env (RImage 0) 0 Sample.options st
           (Sample.resource None (SBuffer Sample.png) None) Sample.png);
    reflexivity.
Defined.

(** X12. A WebP image with [decodeWebP] and no encoder: the original
    bytes are never written to disk; the decoder writes a [.png] temp
    file, and when it can be read back the chain reaches its last stage
    with the decoder's output as the image's bytes and the temp file
    deleted. *)
Theorem webp_decoded_chain env image i options st o b png :
  let uid := uuidv4 env (uuids st) in
  let path := tmp_path env uid ".png" in
  lookup_ref image (gltf st) = Some o →
  source o = SBuffer b →
  getImageExtension env b = ".webp" →
  decodeWebP options = true →
  encodeBasis options = false →
  truthy_num (jpegCompressionRatio options) = false →
  DWebp_write env (log st) b = inr png →
  fs_readFile_error env (log st ++ [EDWebpWrite path]) path = None →
  writeImage env image i options st =
    writeImage_finish env image i options
      (with_files (delete path)
         (with_log (fun l => l ++ [EDWebpWrite path; EFsReadFile path;
                                   EFsUnlink path])
            (with_gltf (alter_ref (set_source (SBuffer png)) image)
               (with_uuids S st)))).
Proof.
  intros uid path Ho Hs Hwebp Hdecode Hbasis Hjpeg Hdwebp Hread.
  unfold writeImage, fresh_uid. unfold bind at 1. unfold bind at 1.
  fold uid.
  assert (writeImage_write env uid image options (with_uuids S st) =
          (Resolved ".png",
           with_files (insert path png)
             (emit (EDWebpWrite path) (with_uuids S st)))) as ->.
  { unfold writeImage_write, sniff. mstep. rewrite Ho, Hs. simpl.
    rewrite Hwebp, Hdecode. simpl. unfold DWebp_write_file. simpl. fold path.
    by rewrite Hdwebp. }
  unfold bind at 1.
  rewrite writeImage_encode_nothing by (by rewrite ?Hbasis).
  unfold bind at 1.
  assert (writeImage_read env uid image ".png"
            (with_files (insert path png)
               (emit (EDWebpWrite path) (with_uuids S st))) =
          (Resolved tt,
           with_files (delete path)
             (with_log (fun l => l ++ [EDWebpWrite path; EFsReadFile path;
                                       EFsUnlink path])
                (with_gltf (alter_ref (set_source (SBuffer png)) image)
                   (with_uuids S st))))) as ->; [|done].
  unfold writeImage_read, fs_readFile, fs_unlinkSync. simpl. fold path.
  rewrite Hread. simpl. rewrite lookup_insert_eq. simpl.
  rewrite lookup_insert_eq. simpl. f_equal.
  unfold with_files, with_log, with_uuids, with_gltf, emit. simpl.
  f_equal; [apply delete_insert_eq|by rewrite <- !app_assoc].
Qed.

(** A WebP image decoded to PNG. *)
Lemma webp_decoded_chain_witness :
  let st := Sample.initial (Scenarios.oneImage Sample.webp) None in
  let options :=
    {| options_name := None; separateBuffers := None;
       separateTextures := None; separateShaders := None; dataUris := None;
       encodeBasis := false; basisQuality := None; basisLinear := false;
       decodeWebP := true; jpegCompressionRatio := None |} in
  writeImage Sample.env (RImage 0) 0 options st =
    writeImage_finish Sample.env (RImage 0) 0 options
      (with_files (delete "/tmp/image-uid0.png")
         (with_log (fun l => l ++ [EDWebpWrite "/tmp/image-uid0.png";
                                   EFsReadFile "/tmp/image-uid0.png";
                                   EFsUnlink "/tmp/image-uid0.png"])
            (with_gltf (alter_ref (set_source (SBuffer Sample.png)) (RImage 0))
               (with_uuids S st)))).
Proof.
  intros st options.
  apply (webp_decoded_chain Sample.env (RImage 0) 0 options st
           (Sample.resource None (SBuffer Sample.webp) None) Sample.webp
           Sample.png); reflexivity.
Defined.

(** ** Temp files of the encoders *)

(** The basisu branch, when it resolves, touches two temp files only. *)
Lemma writeImage_encode_basisu_files env uid image options extension st
    extension2 st2 path :
  encodeBasis options && negb (bool_decide (extension = "ktx2")) = true →
  writeImage_encode env uid image options extension st
    = (Resolved extension2, st2) →
  path ≠ tmp_path env uid extension →
  path ≠ tmp_path env uid ".ktx2" →
  files st2 !! path = files st !! path.
Proof.
  intros Hb. unfold writeImage_encode. rewrite Hb.
  unfold exec_basisu, fs_readFile, fs_unlinkSync. simpl.
  repeat case_match; intros; simplify_eq; simpl in *; simplify_eq;
    rewrite ?lookup_delete_ne, ?lookup_insert_ne by done; done.
Qed.

(** The GraphicsMagick branch, when it resolves. *)
Lemma writeImage_encode_gm_resolved env uid image options extension st
    extension2 st2 quality :
  encodeBasis options && negb (bool_decide (extension = "ktx2")) = false →
  jpegCompressionRatio options = Some (S quality) →
  writeImage_encode env uid image options extension st
    = (Resolved extension2, st2) →
  extension2 = ".jpg"
  ∧ gltf st2 = gltf st
  ∧ ∃ jpg, files st2 = <[tmp_path env uid ".jpg" := jpg]> (files st).
Proof.
  intros Hb Hq. unfold writeImage_encode. rewrite Hb, Hq.
  unfold gm_quality_write.
  repeat case_match; intros; simplify_eq; simpl; eauto.
Qed.

Lemma writeImage_finish_files env image i options st r st' :
  writeImage_finish env image i options st = (r, st') →
  files st' = files st.
Proof.
  unfold writeImage_finish, sniff, addExtensionsRequired. mstep.
  destruct (lookup_ref image (gltf st)) as [o|]; [|by intros [= <- <-]].
  destruct (source o); simpl; try (by intros [= <- <-]).
  match goal with |- context [writeResource ?e ?a ?b ?c ?d ?x ?o ?s] =>
    pose proof (writeResource_world e a b c d x o s) as Hw;
    destruct (writeResource e a b c d x o s) as [res st1] end.
  destruct (Hw _ _ eq_refl) as (_ & Hf & _). simpl in Hf.
  destruct res; try (by intros [= <- <-]).
  repeat case_match; intros; unfold modify in *; by simplify_eq.
Qed.

(** X13. A chain through basisu that resolves leaves no temp file behind:
    the input file of basisu and the [.ktx2] file are both gone, and no
    other file has changed. *)
Theorem basisu_chain_cleans_up env image i options st st' o b :
  let uid := uuidv4 env (uuids st) in
  encodeBasis options = true →
  lookup_ref image (gltf st) = Some o →
  source o = SBuffer b →
  getImageExtension env b ≠ "ktx2" →
  writeImage env image i options st = (Resolved tt, st') →
  ∃ extension,
    (extension = ".png" ∨ extension = getImageExtension env b)
    ∧ files st' !! tmp_path env uid extension = None
    ∧ files st' !! tmp_path env uid ".ktx2" = None
    ∧ ∀ path, path ≠ tmp_path env uid extension →
              path ≠ tmp_path env uid ".ktx2" →
              files st' !! path = files st !! path.
Proof.
  intros uid Hbasis Ho Hs Hsniff Hrun.
  apply writeImage_resolved in Hrun
    as (ext & st1 & ext2 & st2 & st3 & H1 & H2 & H3 & H4).
  fold uid in H1, H2, H3.
  pose proof (writeImage_write_extension env uid image options
                (with_uuids S st) o b ext st1 Ho Hs H1) as Hext.
  destruct (writeImage_write_resolved _ _ _ _ _ _ _ H1)
    as (_ & data1 & Hf1). simpl in Hf1.
  assert (encodeBasis options
          && negb (bool_decide (ext = "ktx2")) = true) as Hbranch.
  { rewrite Hbasis. simpl. apply negb_true_iff, bool_decide_eq_false.
    by destruct Hext as [->| ->]. }
  destruct (writeImage_encode_basisu_resolved _ _ _ _ _ _ _ _ Hbranch H2)
    as (-> & Hgone & _).
  destruct (writeImage_read_resolved _ _ _ _ _ _ H3) as (_ & _ & _ & Hf3).
  apply writeImage_finish_files in H4.
  exists ext. split; [done|]. rewrite H4, Hf3. split; [|split].
  - destruct (decide (tmp_path env uid ".ktx2" = tmp_path env uid ext))
      as [->|Hne]; [by rewrite lookup_delete_eq|].
    by rewrite lookup_delete_ne.
  - by rewrite lookup_delete_eq.
  - intros path Hp1 Hp2. rewrite lookup_delete_ne by done.
    rewrite (writeImage_encode_basisu_files _ _ _ _ _ _ _ _ _ Hbranch H2)
      by done.
    by rewrite Hf1, lookup_insert_ne.
Qed.

(** A PNG image encoded while another file lies in the temp directory. *)
Lemma basisu_chain_cleans_up_witness :
  let st := with_files (fun _ => {[ "/tmp/other" := Sample.jpg ]})
              (Sample.initial (Scenarios.oneImage Sample.png) None) in
  let st' := (writeImage Sample.env (RImage 0) 0 Scenarios.basisOptions st).2 in
  ∃ extension,
    (extension = ".png" ∨ extension = ".png")
    ∧ files st' !! tmp_path Sample.env "uid0" extension = None
    ∧ files st' !! "/tmp/image-uid0.ktx2" = None
    ∧ ∀ path, path ≠ tmp_path Sample.env "uid0" extension →
              path ≠ "/tmp/image-uid0.ktx2" →
              files st' !! path = files st !! path.
Proof.
  intros st st'.
  apply (basisu_chain_cleans_up Sample.env (RImage 0) 0 Scenarios.basisOptions
           st st' (Sample.resource None (SBuffer Sample.png) None) Sample.png).
  - reflexivity.
  - reflexivity.
  - reflexivity.
  - vm_compute. discriminate.
  - vm_compute. reflexivity.
Defined.

(** X14. A chain through GraphicsMagick that resolves deletes the [.jpg]
    file it produced but not its input: unless the input was itself the
    [.jpg] file, the temp file written by the first stage is still there
    with its content. *)
Theorem gm_chain_leaves_input env image i options st st' quality :
  let uid := uuidv4 env (uuids st) in
  encodeBasis options = false →
  jpegCompressionRatio options = Some (S quality) →
  writeImage env image i options st = (Resolved tt, st') →
  ∃ extension data st1,
    writeImage_write env uid image options (with_uuids S st)
      = (Resolved extension, st1)
    ∧ files st1 !! tmp_path env uid extension = Some data
    ∧ files st' !! tmp_path env uid ".jpg" = None
    ∧ (extension ≠ ".jpg" →
       files st' !! tmp_path env uid extension = Some data).
Proof.
  intros uid Hbasis Hq Hrun.
  apply writeImage_resolved in Hrun
    as (ext & st1 & ext2 & st2 & st3 & H1 & H2 & H3 & H4).
  fold uid in H1, H2, H3.
  destruct (writeImage_write_resolved _ _ _ _ _ _ _ H1)
    as (_ & data & Hf1). simpl in Hf1.
  assert (encodeBasis options
          && negb (bool_decide (ext = "ktx2")) = false) as Hbranch
    by (by rewrite Hbasis).
  destruct (writeImage_encode_gm_resolved _ _ _ _ _ _ _ _ _ Hbranch Hq H2)
    as (-> & _ & jpg & Hf2).
  destruct (writeImage_read_resolved _ _ _ _ _ _ H3) as (_ & _ & _ & Hf3).
  apply writeImage_finish_files in H4.
  exists ext, data, st1. split; [done|].
  split; [by rewrite Hf1, lookup_insert_eq|].
  rewrite H4, Hf3. split; [by rewrite lookup_delete_eq|].
  intros Hne.
  assert (tmp_path env uid ".jpg" ≠ tmp_path env uid ext)
    by (intros ?%(inj (tmp_path env uid)); done).
  by rewrite lookup_delete_ne, Hf2, lookup_insert_ne, Hf1, lookup_insert_eq.
Qed.

(** A PNG image recompressed to JPEG. *)
Lemma gm_chain_leaves_input_witness :
  let st := Sample.initial (Scenarios.oneImage Sample.png) None in
  let st' := (writeImage Sample.env (RImage 0) 0 Scenarios.jpegOptions st).2 in
  ∃ extension data st1,
    writeImage_write Sample.env "uid0" (RImage 0) Scenarios.jpegOptions
      (with_uuids S st) = (Resolved extension, st1)
    ∧ files st1 !! tmp_path Sample.env "uid0" extension = Some data
    ∧ files st' !! "/tmp/image-uid0.jpg" = None
    ∧ (extension ≠ ".jpg" →
       files st' !! tmp_path Sample.env "uid0" extension = Some data).
Proof.
  intros st st'.
  apply (gm_chain_leaves_input Sample.env (RImage 0) 0 Scenarios.jpegOptions
           st st' 79).
  - reflexivity.
  - reflexivity.
  - vm_compute. reflexivity.
Defined.

(** ** After the last sniff *)

Lemma lookup_ref_with_extensionsRequired f r g :
  lookup_ref r (with_extensionsRequired f g) = lookup_ref r g.
Proof. by destruct r. Qed.

Lemma writes_bufferView object o st separate dataUris st' :
  lookup_ref object (gltf st) = Some o →
  writes object o st separate dataUris st' →
  ∃ o', lookup_ref object (gltf st') = Some o'
        ∧ mimeType o' = mimeType o
        ∧ defined (bufferView o') = negb (separate || dataUris).
Proof.
  intros Ho Hw.
  destruct Hw; try (destruct (resourceId o)); simpl;
    rewrite ?lookup_ref_alter_eq;
    try (erewrite lookup_ref_appendToPool
           by (by rewrite lookup_ref_alter_eq, Ho));
    rewrite ?lookup_ref_alter_eq, ?Ho; simpl; eauto.
Qed.

(** X15. The MIME type of an image is set from the final sniffed
    extension exactly when the image ends up in a bufferView; an image
    written as a data URI or as a separate file keeps the [mimeType] it
    had and has no [bufferView]. *)
Theorem mimeType_follows_bufferView env image i options st st' o data :
  lookup_ref image (gltf st) = Some o →
  source o = SBuffer data →
  writeImage_finish env image i options st = (Resolved tt, st') →
  ∃ o', lookup_ref image (gltf st') = Some o'
        ∧ if truthy (separateTextures options) || truthy (dataUris options)
          then mimeType o' = mimeType o ∧ bufferView o' = None
          else mimeType o' = mime_getType env (getImageExtension env data)
               ∧ is_Some (bufferView o').
Proof.
  intros Ho Hs. unfold writeImage_finish, sniff, addExtensionsRequired. mstep.
  rewrite Ho, Hs. simpl.
  destruct (writeResource _ _ _ _ _ _ _ _) as [[[]|?|] st1] eqn:Hw; try done.
  apply (writeResource_writes _ _ _ _ _ _ _ _ _ o) in Hw; [|done].
  destruct (writes_bufferView image o (emit (EConsoleFinalExtension
              (getImageExtension env data)) st) _ _ _ Ho Hw)
    as (o1 & Ho1 & Hm & Hbv).
  simpl in Ho1.
  assert (∀ st2,
            lookup_ref image (gltf st2) = Some o1 →
            (let (r, st3) :=
               match lookup_ref image (gltf st2) with
               | Some o0 => (Resolved o0, st2)
               | None => (Rejected (TypeError
                            "Cannot read properties of undefined"), st2)
               end in
             match r with
             | Resolved a =>
                 (if defined (bufferView a)
                  then fun st0 =>
                    (Resolved tt,
                     with_gltf (alter_ref (set_mimeType
                                  (mime_getType env (getImageExtension env data)))
                                  image) st0)
                  else fun st0 => (Resolved tt, st0)) st3
             | Rejected e => (Rejected e, st3)
             | Pending => (Pending, st3)
             end) = (Resolved tt, st') →
            ∃ o', lookup_ref image (gltf st') = Some o'
                  ∧ if truthy (separateTextures options)
                       || truthy (dataUris options)
                    then mimeType o' = mimeType o ∧ bufferView o' = None
                    else mimeType o'
                         = mime_getType env (getImageExtension env data)
                         ∧ is_Some (bufferView o')) as Hlast.
  { intros st2 Ho2. rewrite Ho2.
    destruct (truthy (separateTextures options) || truthy (dataUris options));
      simpl in Hbv; destruct (bufferView o1) eqn:Hb1; try done;
      simpl; intros [= <-]; simpl;
      rewrite ?lookup_ref_alter_eq, ?Ho2; simpl; eauto. }
  case_bool_decide; apply Hlast; simpl;
    by rewrite ?lookup_ref_with_extensionsRequired.
Qed.

(** An image written to a bufferView, and the same image as a data URI. *)
Lemma mimeType_follows_bufferView_witness :
  let st := Sample.initial (Scenarios.oneImage Sample.png) None in
  let image := Sample.resource None (SBuffer Sample.png) None in
  let st' := (writeImage_finish Sample.env (RImage 0) 0 Sample.options st).2 in
  ∃ o', lookup_ref (RImage 0) (gltf st') = Some o'
        ∧ mimeType o' = Some "image/png" ∧ is_Some (bufferView o').
Proof.
  intros st image st'.
  apply (mimeType_follows_bufferView Sample.env (RImage 0) 0 Sample.options
           st st' image Sample.png).
  - reflexivity.
  - reflexivity.
  - vm_compute. reflexivity.
Defined.

(** ** After a failure *)

(** X16. When basisu fails and leaves no [.ktx2] file, the encode stage
    rejects with basisu's error and still goes on: the read-back fails,
    the image's bytes are replaced by [undefined], and the input temp
    file is deleted. *)
Theorem failed_basisu_clears_source env uid image options extension st o e d :
  let quality :=
    if truthy_num (basisQuality options) then basisQuality options else None in
  encodeBasis options && negb (bool_decide (extension = "ktx2")) = true →
  lookup_ref image (gltf st) = Some o →
  files st !! tmp_path env uid extension = Some d →
  files st !! tmp_path env uid ".ktx2" = None →
  basisu env (log st) (basisLinear options) quality (Some d) = (Some e, None) →
  ∃ st',
    writeImage_encode env uid image options extension st = (Rejected e, st')
    ∧ lookup_ref image (gltf st') = Some (set_source SUndefined o)
    ∧ files st' = delete (tmp_path env uid extension) (files st).
Proof.
  intros quality Hb Ho Hd Hk He. unfold writeImage_encode. rewrite Hb.
  unfold exec_basisu. fold quality. cbv beta. rewrite Hd, He.
  unfold fs_readFile, fs_unlinkSync. simpl. rewrite Hk.
  destruct (fs_readFile_error _ _ _); simpl; rewrite Hd; simpl; eexists;
    (split; [reflexivity|]); simpl; by rewrite lookup_ref_alter_eq, Ho.
Qed.

(** The second image of [Failing.twoImages], after its temp file has been
    written. *)
Lemma failed_basisu_clears_source_witness :
  let image := Sample.resource None (SBuffer Sample.png) None in
  let st :=
    with_log (fun _ => [EExecBasisu false None "/tmp/image-uid0.png" "/tmp"])
      (with_files (fun _ => {[ "/tmp/image-uid1.png" := Sample.png ]})
         (Sample.initial Failing.twoImages None)) in
  ∃ st',
    writeImage_encode Failing.env "uid1" (RImage 1) Scenarios.basisOptions
      ".png" st = (Rejected Failing.basisuError, st')
    ∧ lookup_ref (RImage 1) (gltf st') = Some (set_source SUndefined image)
    ∧ files st' = delete "/tmp/image-uid1.png" (files st).
Proof.
  intros image st.
  apply (failed_basisu_clears_source Failing.env "uid1" (RImage 1)
           Scenarios.basisOptions ".png" st image Failing.basisuError
           Sample.png); reflexivity.
Defined.

(** ** Textures *)

Lemma writeImage_encode_textures env uid image options extension st r st' :
  writeImage_encode env uid image options extension st = (r, st') →
  textures (gltf st') = textures (gltf st).
Proof.
  unfold writeImage_encode, exec_basisu, fs_readFile, fs_unlinkSync,
    gm_quality_write.
  repeat case_match; intros; unfold ret in *; simplify_eq; simpl;
    by rewrite ?textures_alter_ref.
Qed.

Lemma writeImage_finish_textures env image i options st st' :
  writeImage_finish env image i options st = (Resolved tt, st') →
  textures (gltf st') = textures (gltf st).
Proof.
  intros H.
  destruct (lookup_ref image (gltf st)) as [o|] eqn:Ho;
    [|by revert H; unfold writeImage_finish; mstep; rewrite Ho].
  destruct (source o) as [data| |] eqn:Hs;
    try (by revert H; unfold writeImage_finish, sniff; mstep;
            rewrite Ho, Hs).
  by destruct (writeImage_finish_resolved _ _ _ _ _ _ _ _ Ho Hs H)
    as (_ & _ & Ht & _).
Qed.

Lemma writeImage_textures env image i options st st' :
  writeImage env image i options st = (Resolved tt, st') →
  textures (gltf st') = textures (gltf st).
Proof.
  intros (ext & st1 & ext2 & st2 & st3 & H1 & H2 & H3 & H4)%writeImage_resolved.
  apply writeImage_write_resolved in H1 as (Hg1 & _).
  apply writeImage_encode_textures in H2.
  apply writeImage_read_resolved in H3 as (data3 & _ & Hg3 & _).
  apply writeImage_finish_textures in H4.
  rewrite H4, Hg3, textures_alter_ref, H2, Hg1. done.
Qed.

(** X17. The operation changes textures in one way only. Given that the
    two collaborator passes keep the textures, a resolved [writeResources]
    returns them as they were when [encodeBasis] is off, and with
    [extensions] replaced by [{KHR_texture_basisu: {source:
    texture.source}}] on every texture when it is on; extensions a
    texture had before are dropped. *)
Theorem textures_after_writeResources env options st g' st' :
  (∀ g, textures (removeUnusedElements env g) = textures g) →
  (∀ g n, textures (mergeBuffers env g n) = textures g) →
  writeResources env options st = (Resolved g', st') →
  textures g' =
    if encodeBasis options
    then (fun texture =>
            set_extensions
              (Some {[ "KHR_texture_basisu" :=
                         {| ext_source := tex_source texture |} ]})
              texture) <$> textures (gltf st)
    else textures (gltf st).
Proof.
  intros Hremove Hmerge Hrun.
  apply writeResources_resolved in Hrun
    as (stI & stS & stB & HI & HS & HB & -> & ->).
  set (R := fun s s' : state => textures (gltf s') = textures (gltf s)).
  assert (∀ s, R s s) as Rrefl by done.
  assert (∀ s1 s2 s3, R s1 s2 → R s2 s3 → R s1 s3) as Rtrans
    by (unfold R; intros; congruence).
  assert (R (with_writtenResourceMap (fun _ => ∅) st) stI) as RI.
  { eapply (forEachIndex_invariant R); [done|done| |exact HI].
    intros ? ? ?. apply writeImage_textures. }
  assert (R stI stS) as RS.
  { eapply (forEachIndex_invariant R); [done|done| |exact HS].
    intros ? ? ? H. by destruct (writeResource_same_textures _ _ _ _ _ _ _ _ _ H). }
  assert (R (with_gltf (fun g => mergeBuffers env g (options_name options))
               (with_gltf (removeUnusedElements env) stS)) stB) as RB.
  { eapply (forEachIndex_invariant R); [done|done| |exact HB].
    intros ? ? ? H. by destruct (writeBuffer_same_textures _ _ _ _ _ _ H). }
  unfold R in *. simpl in *.
  rewrite RB, Hmerge, Hremove, RS, RI. unfold basisuTexture. simpl.
  destruct (encodeBasis options); [done|].
  rewrite <- (list_fmap_id (textures (gltf st))) at 2. done.
Qed.

(** A texture that has another extension, with [encodeBasis]. *)
Lemma textures_after_writeResources_witness :
  let texture :=
    {| tex_source := Some 0;
       extensions := Some {[ "KHR_texture_transform" :=
                               {| ext_source := None |} ]} |} in
  let g := with_textures (fun _ => [texture])
             (Scenarios.oneImage Sample.png) in
  let st := Sample.initial g None in
  let st' := (writeResources Sample.env Scenarios.basisOptions st).2 in
  textures (gltf st') =
    [ {| tex_source := Some 0;
         extensions := Some {[ "KHR_texture_basisu" :=
                                 {| ext_source := Some 0 |} ]} |} ].
Proof.
  intros texture g st st'.
  apply (textures_after_writeResources Sample.env Scenarios.basisOptions st
           (gltf st') st').
  - done.
  - done.
  - vm_compute. reflexivity.
Defined.

(** ** Without identity, without images *)

(** X18. Deduplication goes by [resourceId] only, never by content: two
    objects without [resourceId] written to bufferViews get two new
    buffers and consecutive bufferView indices, also when their bytes are
    the same. *)
Theorem no_deduplication_without_resourceId a b st oa ob bytes_a bytes_b :
  let n := length (bufferViews (gltf st)) in
  a ≠ b →
  lookup_ref a (gltf st) = Some oa →
  lookup_ref b (gltf st) = Some ob →
  resourceId oa = None →
  resourceId ob = None →
  bufferBytes (source oa) = Some bytes_a →
  bufferBytes (source ob) = Some bytes_b →
  ∃ st1 st2,
    writeBufferView a st = (Resolved tt, st1)
    ∧ writeBufferView b st1 = (Resolved tt, st2)
    ∧ bufferView <$> lookup_ref a (gltf st2) = Some (Some (VNum n))
    ∧ bufferView <$> lookup_ref b (gltf st2) = Some (Some (VNum (S n)))
    ∧ length (bufferViews (gltf st2)) = S (S n)
    ∧ length (buffers (gltf st2)) = S (S (length (buffers (gltf st)))).
Proof.
  intros n Hab Ha Hb Hia Hib Hba Hbb.
  pose proof (writeBufferView_fresh a st oa bytes_a Ha
                ltac:(by rewrite Hia) Hba) as H1.
  rewrite Hia in H1.
  match type of H1 with _ = (_, ?s) => remember s as st1 eqn:E1 end.
  assert (lookup_ref b (gltf st1) = Some ob) as Hb1.
  { subst st1. simpl. rewrite lookup_ref_alter_ne by done.
    apply lookup_ref_appendToPool. by rewrite lookup_ref_alter_ne. }
  assert (bufferView <$> lookup_ref a (gltf st1) = Some (Some (VNum n)))
    as Ha1.
  { subst st1. simpl. rewrite lookup_ref_alter_eq.
    rewrite (lookup_ref_appendToPool _ _ (set_uri None oa)); [done|].
    by rewrite lookup_ref_alter_eq, Ha. }
  assert (length (bufferViews (gltf st1)) = S n) as Hn1.
  { subst st1 n. simpl. rewrite bufferViews_alter_ref. simpl.
    rewrite bufferViews_alter_ref, length_app. simpl. lia. }
  assert (length (buffers (gltf st1)) = S (length (buffers (gltf st))))
    as Hm1.
  { subst st1. simpl. rewrite length_buffers_alter_ref. simpl.
    rewrite length_app, length_buffers_alter_ref. simpl. lia. }
  clear E1.
  pose proof (writeBufferView_fresh b st1 ob bytes_b Hb1
                ltac:(by rewrite Hib) Hbb) as H2.
  rewrite Hib, Hn1 in H2.
  eexists. eexists. split; [exact H1|]. split; [exact H2|].
  simpl. rewrite !bufferViews_alter_ref, !length_buffers_alter_ref. simpl.
  rewrite !bufferViews_alter_ref, !length_buffers_alter_ref.
  rewrite !length_app, Hn1, Hm1. simpl.
  split; [|split; [|split; [lia|]]]; [| |rewrite length_buffers_alter_ref; lia].
  - rewrite lookup_ref_alter_ne by done.
    destruct (lookup_ref a (gltf st1)) as [oa1|] eqn:E; [|done].
    rewrite (lookup_ref_appendToPool _ _ oa1); [done|].
    by rewrite lookup_ref_alter_ne.
  - rewrite lookup_ref_alter_eq.
    rewrite (lookup_ref_appendToPool _ _ (set_uri None ob)); [done|].
    by rewrite lookup_ref_alter_eq, Hb1.
Qed.

(** Two images with the same bytes and no [resourceId]. *)
Lemma no_deduplication_without_resourceId_witness :
  let image := Sample.resource None (SBuffer Sample.png) None in
  let g := with_images (fun _ => [image; image]) Sample.emptyGltf in
  let st := Sample.initial g None in
  ∃ st1 st2,
    writeBufferView (RImage 0) st = (Resolved tt, st1)
    ∧ writeBufferView (RImage 1) st1 = (Resolved tt, st2)
    ∧ bufferView <$> lookup_ref (RImage 0) (gltf st2) = Some (Some (VNum 0))
    ∧ bufferView <$> lookup_ref (RImage 1) (gltf st2) = Some (Some (VNum 1))
    ∧ length (bufferViews (gltf st2)) = 2
    ∧ length (buffers (gltf st2)) = 2.
Proof.
  intros image g st.
  apply (no_deduplication_without_resourceId (RImage 0) (RImage 1) st
           image image Sample.png Sample.png); try reflexivity; done.
Defined.

(** X19. A document without images and shaders, without [separateBuffers]
    and [options.bufferStorage]: [writeResources] resolves, and the
    document it returns is what the two collaborator passes made of the
    input, with every buffer turned into its data URI and the textures
    passed through the [encodeBasis] step. *)
Theorem writeResources_geometry_only env options st :
  images (gltf st) = [] →
  shaders (gltf st) = [] →
  defaultValue (separateBuffers options) false = false →
  bufferStorage st = None →
  let merged := mergeBuffers env (removeUnusedElements env (gltf st))
                  (options_name options) in
  (∀ o, o ∈ buffers merged → source o ≠ SUndefined) →
  let result :=
    with_textures (map (basisuTexture (withDefaults options)))
      (with_buffers (fmap (asDataUri env ".bin")) merged) in
  writeResources env options st =
    (Resolved result,
     with_gltf (fun _ => result)
       (with_writtenResourceMap (fun _ => ∅) st)).
Proof.
  intros Himg Hsh Hsep Hst merged Hall result.
  unfold writeResources. unfold bind at 1. unfold modify at 1.
  unfold bind at 1. unfold ForEach_imageAsync. simpl gltf. rewrite Himg.
  simpl forEachIndex. unfold ret at 1.
  unfold bind at 1. unfold ForEach_shader. simpl gltf. rewrite Hsh.
  simpl forEachIndex. unfold ret at 1.
  unfold bind at 1. unfold modify at 1. unfold bind at 1. unfold modify at 1.
  unfold bind at 1.
  unfold ForEach_buffer.
  rewrite forEachIndex_data_uris by (done || (simpl; lia)).
  unfold bind, ForEach_texture, modify, gets. simpl.
  unfold result, with_gltf, with_buffers, with_textures. simpl.
  by rewrite foldl_alter_all.
Qed.

(** A document with one buffer and nothing else. *)
Lemma writeResources_geometry_only_witness :
  let g := with_buffers
             (fun _ => [Sample.resource None (SBuffer Sample.png) None])
             Sample.emptyGltf in
  let st := Sample.initial g None in
  let result :=
    with_textures (map (basisuTexture (withDefaults Sample.options)))
      (with_buffers (fmap (asDataUri Sample.env ".bin")) g) in
  writeResources Sample.env Sample.options st =
    (Resolved result,
     with_gltf (fun _ => result)
       (with_writtenResourceMap (fun _ => ∅) st)).
Proof.
  intros g st result.
  apply (writeResources_geometry_only Sample.env Sample.options st);
    try reflexivity.
  intros o Ho. apply list_elem_of_In in Ho. by destruct Ho as [<-|[]].
Defined.

(** ** Deduplication by [resourceId] *)

(** Whatever a call of [writeResource] does, and however it ends, a read
    of the [writtenResourceMap] that found a target finds it afterwards. *)
Lemma writeResource_cached_mono env object index separate dataUris extension
    options st res st' r t :
  cached (writtenResourceMap st) r = Some t →
  writeResource env object index separate dataUris extension options st
    = (res, st') →
  cached (writtenResourceMap st') r = Some t.
Proof.
  intros Hr. unfold writeResource. destruct separate; [|destruct dataUris].
  - unfold writeFile. mstep.
    destruct (lookup_ref object _) as [o|]; [|by intros [= <- <-]].
    destruct (resourceId o ≫= _) eqn:Hc; [by intros [= <- <-]|].
    match goal with |- context [getRelativePath ?a ?b ?c ?d ?s] =>
      pose proof (getRelativePath_state a b c d s) as Hs;
      destruct (getRelativePath a b c d s) as [[p|e'|] st1] end;
      simpl in Hs; subst st1;
      [destruct (resourceId o) as [r'|] eqn:Hid| |];
      intros [= <- <-]; simpl in *; try done.
    rewrite cached_insert_ne; [done|]. congruence.
  - unfold writeDataUri. mstep.
    destruct (lookup_ref object _) as [o|]; [|by intros [= <- <-]].
    destruct (source o); by intros [= <- <-].
  - unfold writeBufferView. mstep.
    destruct (lookup_ref object _) as [o|]; [|by intros [= <- <-]].
    destruct (resourceId o ≫= _) eqn:Hc; [by intros [= <- <-]|].
    unfold addBuffer, throw.
    destruct (source o); simpl; try (by intros [= <- <-]);
      (destruct (resourceId o) as [r'|] eqn:Hid;
       intros [= <- <-]; simpl in *; try done;
       rewrite cached_insert_ne; [done|congruence]).
Qed.

(** X20. Deduplication by [resourceId], for an identity [r] that the
    [writtenResourceMap] neither holds nor inherits. The first write of a
    resource with identity [r] returns normally and writes the bytes: on
    the bufferView path one new buffer and one new bufferView, whose index
    becomes the target; on the separate-file path (for a named resource)
    one entry of the sink under the first free path, which becomes the
    target. The target is recorded under [r]. Every later write of a
    resource with identity [r], on either of the two paths, only copies
    the recorded target into the object. And no call of [writeResource],
    however it ends, changes what is recorded. *)
Theorem resourceId_deduplicated env r :
  (∀ object index extension options st o bytes,
     lookup_ref object (gltf st) = Some o →
     resourceId o = Some r →
     cached (writtenResourceMap st) r = None →
     bufferBytes (source o) = Some bytes →
     ∃ st',
       writeResource env object index false false extension options st
         = (Resolved tt, st')
       ∧ bufferView <$> lookup_ref object (gltf st')
         = Some (Some (VNum (length (bufferViews (gltf st)))))
       ∧ cached (writtenResourceMap st') r
         = Some (VNum (length (bufferViews (gltf st))))
       ∧ bufferViews (gltf st') =
           bufferViews (gltf st)
           ++ [{| bv_buffer := length (buffers (gltf st)); bv_byteOffset := 0;
                  bv_byteLength := length bytes |}]
       ∧ length (buffers (gltf st')) = S (length (buffers (gltf st)))
       ∧ source <$> buffers (gltf st') !! length (buffers (gltf st))
         = Some (SBuffer bytes)
       ∧ separateResources st' = separateResources st)
  ∧ (∀ object index dataUris extension options st o sink n,
       lookup_ref object (gltf st) = Some o →
       resourceId o = Some r →
       cached (writtenResourceMap st) r = None →
       name o = Some n →
       relativePath o = None →
       separateResources st = Some sink →
       ∃ st' k,
         writeResource env object index true dataUris extension options st
           = (Resolved tt, st')
         ∧ sink_defined sink (candidate n extension k) = false
         ∧ (∀ i, (i < k)%nat →
                 sink_defined sink (candidate n extension i) = true)
         ∧ uri <$> lookup_ref object (gltf st')
           = Some (Some (VStr (candidate n extension k)))
         ∧ cached (writtenResourceMap st') r
           = Some (VStr (candidate n extension k))
         ∧ separateResources st'
           = Some (<[candidate n extension k := source o]> sink)
         ∧ bufferViews (gltf st') = bufferViews (gltf st)
         ∧ length (buffers (gltf st')) = length (buffers (gltf st)))
  ∧ (∀ object index separate dataUris extension options st o t,
       lookup_ref object (gltf st) = Some o →
       resourceId o = Some r →
       cached (writtenResourceMap st) r = Some t →
       separate || negb dataUris = true →
       writeResource env object index separate dataUris extension options st
       = (Resolved tt,
          if separate
          then with_gltf (alter_ref (set_uri (Some t)) object)
                 (with_gltf (alter_ref (set_bufferView None) object) st)
          else with_gltf (alter_ref (set_bufferView (Some t)) object)
                 (with_gltf (alter_ref (set_uri None) object) st)))
  ∧ (∀ object index separate dataUris extension options st res st' t,
       cached (writtenResourceMap st) r = Some t →
       writeResource env object index separate dataUris extension options st
         = (res, st') →
       cached (writtenResourceMap st') r = Some t).
Proof.
  split; [|split; [|split]].
  - intros object index extension options st o bytes Ho Hid Hc Hb.
    unfold writeResource.
    rewrite (writeBufferView_fresh _ _ _ bytes Ho) by (by rewrite ?Hid).
    rewrite Hid. eexists. split; [done|]. simpl.
    rewrite !bufferViews_alter_ref, !length_buffers_alter_ref. simpl.
    rewrite !bufferViews_alter_ref, !length_buffers_alter_ref.
    split.
    { rewrite lookup_ref_alter_eq.
      rewrite (lookup_ref_appendToPool _ _ (set_uri None o)); [done|].
      by rewrite lookup_ref_alter_eq, Ho. }
    split; [apply cached_insert_eq|]. split; [done|].
    split; [rewrite length_app, length_buffers_alter_ref; simpl; lia|].
    split; [|done].
    rewrite buffers_alter_ref_source by done.
    rewrite <- (length_buffers_alter_ref (set_uri None) object (gltf st)).
    apply appendToPool_last.
  - intros object index dataUris extension options st o sink n Ho Hid Hc Hn
      Hrel Hsink.
    pose proof (getName_named object index extension options st o n Ho Hn)
      as Hname.
    destruct (getRelativePath_resolves _ _ _ _ _ _ _ _ Ho Hrel Hsink Hname)
      as (k & Hk & Hfree & Hbefore).
    unfold writeResource.
    rewrite (writeFile_fresh _ _ _ _ _ _ (candidate n extension k) Ho)
      by (by rewrite ?Hid, ?Hk).
    rewrite Hid. eexists. exists k. split; [done|]. simpl.
    rewrite !lookup_ref_alter_eq, Ho, Hsink. simpl.
    rewrite (sink_assign_free _ _ _ Hfree).
    rewrite !bufferViews_alter_ref, !length_buffers_alter_ref.
    do 3 (split; [done|]). split; [apply cached_insert_eq|]. done.
  - intros object index separate dataUris extension options st o t Ho Hid Hc
      Hd.
    unfold writeResource. destruct separate; [|destruct dataUris; [done|]].
    + by apply (writeFile_cached _ _ _ _ _ o r).
    + by apply (writeBufferView_cached _ _ o r).
  - intros object index separate dataUris extension options st res st' t.
    apply writeResource_cached_mono.
Qed.

(** Two images named [wood] with the identity [tex], written to
    bufferViews and written to separate files. *)
Lemma resourceId_deduplicated_witness :
  let image := Sample.resource (Some "wood") (SBuffer Sample.png) (Some "tex") in
  let g := with_images (fun _ => [image; image]) Sample.emptyGltf in
  let write separate object index :=
    writeResource Sample.env object index separate false ".png"
      Sample.options in
  let v0 := Sample.initial g None in
  let v1 := (write false (RImage 0) 0 v0).2 in
  let v2 := (write false (RImage 1) 1 v1).2 in
  let f0 := Sample.initial g (Some ∅) in
  let f1 := (write true (RImage 0) 0 f0).2 in
  let f2 := (write true (RImage 1) 1 f1).2 in
  (write false (RImage 0) 0 v0 = (Resolved tt, v1)
   ∧ write false (RImage 1) 1 v1 = (Resolved tt, v2)
   ∧ bufferView <$> images (gltf v2) = [Some (VNum 0); Some (VNum 0)]
   ∧ length (buffers (gltf v1)) = 1
   ∧ v2 = with_gltf (alter_ref (set_bufferView (Some (VNum 0))) (RImage 1))
            (with_gltf (alter_ref (set_uri None) (RImage 1)) v1))
  ∧ (write true (RImage 0) 0 f0 = (Resolved tt, f1)
     ∧ write true (RImage 1) 1 f1 = (Resolved tt, f2)
     ∧ uri <$> images (gltf f2)
       = [Some (VStr "wood.png"); Some (VStr "wood.png")]
     ∧ separateResources f1 = Some {[ "wood.png" := SBuffer Sample.png ]}
     ∧ f2 = with_gltf (alter_ref (set_uri (Some (VStr "wood.png"))) (RImage 1))
              (with_gltf (alter_ref (set_bufferView None) (RImage 1)) f1)).
Proof.
  intros image g write v0 v1 v2 f0 f1 f2.
  pose proof (resourceId_deduplicated Sample.env "tex")
    as (Hview & Hfile & Hlater & _).
  split.
  - destruct (Hview (RImage 0) 0 ".png" Sample.options v0 image Sample.png)
      as (st' & Hrun & _ & _ & _ & Hlen & _); try reflexivity.
    assert (st' = v1) as ->
      by (subst v1 write; cbv beta; by rewrite Hrun).
    assert (write false (RImage 1) 1 v1 = (Resolved tt, v2)) as Hrun2.
    { subst v2 write. cbv beta.
      rewrite (Hlater (RImage 1) 1 false false ".png" Sample.options v1
                 image (VNum 0)); reflexivity. }
    split; [exact Hrun|]. split; [exact Hrun2|].
    split; [reflexivity|]. split; [exact Hlen|]. reflexivity.
  - destruct (Hfile (RImage 0) 0 false ".png" Sample.options f0 image ∅
                "wood")
      as (st' & k & Hrun & _ & Hbefore & _ & _ & Hsink & _);
      try reflexivity.
    assert (k = 0) as ->.
    { destruct k; [done|]. specialize (Hbefore 0 ltac:(lia)). done. }
    assert (st' = f1) as ->
      by (subst f1 write; cbv beta; by rewrite Hrun).
    assert (write true (RImage 1) 1 f1 = (Resolved tt, f2)) as Hrun2.
    { subst f2 write. cbv beta.
      rewrite (Hlater (RImage 1) 1 true false ".png" Sample.options f1
                 image (VStr "wood.png")); reflexivity. }
    split; [exact Hrun|]. split; [exact Hrun2|].
    split; [reflexivity|]. split; [exact Hsink|]. reflexivity.
Defined.
